(** * web-search-mcp: a shallow embedding of the orchestration layer

    The development follows the TypeScript sources:
    - [src/search-engine.ts]: [SearchEngine] (fallback loop, quality score,
      result parsers) and [GarbageCollector] (the process reaper);
    - [src/browser-pool.ts]: [BrowserPool];
    - [src/brave-api-rate-limiter.ts]: [BraveApiRateLimiter];
    - [src/enhanced-content-extractor.ts]: [EnhancedContentExtractor].

    Conventions of the embedding.
    - JavaScript strings are [string]s of 8-bit characters; [toLowerCase]
      folds the ASCII letters, [\s] is the ASCII white space.
    - JavaScript numbers that hold counts are [nat], process ids and clock
      readings are [Z], quality scores and time-outs are exact rationals [Q]
      (the scores are quotients of two small integers, on which the
      comparisons of the source agree with the exact ones).
    - What the sources obtain from the outside world (a fetched page, the
      outcome of a browser launch, the content of the usage file, the clock)
      is an explicit argument; a rejected promise is an error value.
    - [async] code is cut at its [await]s: the browser pool, whose claims are
      about overlapping calls, is a transition system whose transitions are
      the segments between two [await]s, and so are the calls of the rate
      limiter where they overlap.
    - Where the source throws a TypeError of the engine (a property of
      [null], a method that is not there), the embedding has an outcome for
      it. *)

From Stdlib Require Import ZArith QArith Qminmax Qround Lia Bool Ascii String DecimalString DecimalPos.
From stdpp Require Import base option list gmap.

Set Warnings "-abstract-large-number".

Local Open Scope string_scope.
Local Open Scope list_scope.

(** ** JavaScript string primitives *)

Module JsString.

(** [String.prototype.toLowerCase], on ASCII. *)
Definition lower_ascii (c : ascii) : ascii :=
  let n := nat_of_ascii c in
  if (65 <=? n)%nat && (n <=? 90)%nat then ascii_of_nat (n + 32) else c.

Fixpoint toLowerCase (s : string) : string :=
  match s with
  | EmptyString => EmptyString
  | String c s' => String (lower_ascii c) (toLowerCase s')
  end.

(** [String.prototype.includes]: [sub] occurs in [s] as a substring. *)
Fixpoint includes (s sub : string) : bool :=
  if String.prefix sub s then true
  else match s with
       | EmptyString => false
       | String _ s' => includes s' sub
       end.

(** The class [\s] of a regular expression, on ASCII: tab, line feed,
    vertical tab, form feed, carriage return and space. *)
Definition isSpace (c : ascii) : bool :=
  let n := nat_of_ascii c in
  ((9 <=? n)%nat && (n <=? 13)%nat) || (n =? 32)%nat.

(** [s.split(/\s+/)]: the pieces between maximal runs of white space; a
    string that starts (ends) with white space yields a leading (trailing)
    empty piece, and the empty string yields one empty piece. [cur] is the
    piece being read and [inws] tells that the last character was white. *)
Fixpoint split_ws_aux (cur : string) (inws : bool) (s : string) : list string :=
  match s with
  | EmptyString => [cur]
  | String c s' =>
      if isSpace c then
        if inws then split_ws_aux cur true s'
        else cur :: split_ws_aux EmptyString true s'
      else split_ws_aux (cur ++ String c EmptyString) false s'
  end.

Definition split_ws (s : string) : list string := split_ws_aux EmptyString false s.

(** [s.substring(0, n)] for [0 <= n]. *)
Definition substring0 (n : nat) (s : string) : string := String.substring 0 n s.

(** Truthiness of a string: non-empty. *)
Definition truthy (s : string) : bool :=
  match s with EmptyString => false | _ => true end.

(** [String(n)] for an integer. *)
Definition ofZ (z : Z) : string := NilEmpty.string_of_int (Z.to_int z).

(** [s.trim()]: strips the white space at both ends. *)
Fixpoint trimStart (s : string) : string :=
  match s with
  | EmptyString => EmptyString
  | String c s' => if isSpace c then trimStart s' else s
  end.

Fixpoint trimEnd (s : string) : string :=
  match s with
  | EmptyString => EmptyString
  | String c s' =>
      match trimEnd s' with
      | EmptyString => if isSpace c then EmptyString else String c EmptyString
      | t => String c t
      end
  end.

Definition trim (s : string) : string := trimEnd (trimStart s).

End JsString.

(** ** Numbers *)

(** [x < y] on the rationals that stand for JavaScript numbers. *)
Definition Qlt_bool (x y : Q) : bool := negb (Qle_bool y x).

(** ** The result record ([types.ts], as the sources use it) *)

(** [fetchStatus] is ['success'] or ['error']; [errorMessage] is the
    optional field [error]. *)

Inductive FetchStatus := success | error.

Global Instance FetchStatus_eq_dec : EqDecision FetchStatus.
Proof. solve_decision. Defined.

Record SearchResult := mkSearchResult {
  title : string;
  url : string;
  description : string;
  fullContent : string;
  contentPreview : string;
  wordCount : nat;
  timestamp : string;
  fetchStatus : FetchStatus;
  errorMessage : option string;
}.

(** ** SearchEngine.assessResultQuality *)

Module Quality.
Import JsString.

(** [query.toLowerCase().split(/\s+/).filter(w => w.length > 3)] *)
Definition queryWords (query : string) : list string :=
  List.filter (fun w => (3 <? String.length w)%nat) (split_ws (toLowerCase query)).

(** The callback of [results.forEach]: some query word occurs in the
    lower-cased title or description. *)
Definition matches (words : list string) (r : SearchResult) : bool :=
  let titleLower := toLowerCase (title r) in
  let descLower := toLowerCase (description r) in
  existsb (fun word => includes titleLower word || includes descLower word) words.

Definition matchCount (words : list string) (results : list SearchResult) : nat :=
  List.length (List.filter (matches words) results).

Definition assessResultQuality (results : list SearchResult) (query : string) : Q :=
  match results with
  | [] => 0
  | _ :: _ =>
      let words := queryWords query in
      match words with
      | [] => 1
      | _ :: _ =>
          Z.of_nat (matchCount words results) # Pos.of_nat (List.length results)
      end
  end.

End Quality.

(** ** SearchEngine: result parsers *)

Module Parsers.
Import JsString.

(** One element matched by a parser's selector, as the parser reads it:
    the text it takes the title from, the [href] attribute it takes the url
    from ([None] when the attribute is absent) and the text it takes the
    description from. The HTML parser itself (cheerio) is external. *)
Record Element := mkElement {
  titleText : string;
  href : option string;
  snippetText : string;
}.

(** The selections each parser makes in a page. *)
Record BravePage := { webSnippets : list Element; anySnippets : list Element }.
Record BingPage := { b_algo : list Element }.
Record DdgHtmlPage := { resultElements : list Element }.
Record DdgBrowserPage := { articles : list Element; legacyResults : list Element }.

(** [results.push({ title, url, description, fullContent: '', ... })] *)
Definition fresh (timestamp title url description : string) : SearchResult :=
  mkSearchResult title url description "" "" 0 timestamp success None.

(** The body shared by every [.each] callback: return when [maxResults]
    results are collected, otherwise push the element when its title and
    url are both truthy. [mk] builds the pushed record. *)
Definition visit (maxResults : nat) (mk : string -> string -> string -> SearchResult)
    (results : list SearchResult) (el : Element) : list SearchResult :=
  if (maxResults <=? List.length results)%nat then results
  else
    let title := trim (titleText el) in
    match href el with
    | Some url =>
        if truthy title && truthy url
        then results ++ [mk title url (trim (snippetText el))]
        else results
    | None => results
    end.

(** [$(selector).each(callback)] starting from the results collected so far. *)
Definition each (maxResults : nat) (mk : string -> string -> string -> SearchResult)
    (els : list Element) (results : list SearchResult) : list SearchResult :=
  fold_left (visit maxResults mk) els results.

Definition parseBraveResults (timestamp : string) (page : BravePage) (maxResults : nat)
    : list SearchResult :=
  let results := each maxResults (fresh timestamp) (webSnippets page) [] in
  match results with
  | [] => each maxResults (fun t u _ => fresh timestamp t u "") (anySnippets page) results
  | _ :: _ => results
  end.

Definition parseBingResults (timestamp : string) (page : BingPage) (maxResults : nat)
    : list SearchResult :=
  each maxResults (fresh timestamp) (b_algo page) [].

(** [uddg url] is the decoded [uddg] parameter of [url] resolved against
    duckduckgo.com when the parser replaces the url by it (URL parsing is
    the platform's). *)
Definition parseDuckDuckGoResults (uddg : string -> option string) (timestamp : string)
    (page : DdgHtmlPage) (maxResults : nat) : list SearchResult :=
  each maxResults
    (fun t u d => fresh timestamp t (match uddg u with Some c => c | None => u end) d)
    (resultElements page) [].

Definition parseDuckDuckGoBrowserResults (timestamp : string) (page : DdgBrowserPage)
    (maxResults : nat) : list SearchResult :=
  let results := each maxResults (fresh timestamp) (articles page) [] in
  match results with
  | [] => each maxResults (fresh timestamp) (legacyResults page) results
  | _ :: _ => results
  end.

End Parsers.

(** ** SearchEngine.search *)

Module SearchEngine.
Import JsString Quality Parsers.

(** The environment variables read at the start of the callback:
    [ENABLE_RELEVANCE_CHECKING], [RELEVANCE_THRESHOLD] (a finite number),
    [FORCE_MULTI_ENGINE_SEARCH]. *)
Record Config := {
  enableQualityCheck : bool;
  qualityThreshold : Q;
  forceMultiEngine : bool;
}.

Definition defaultConfig : Config :=
  {| enableQualityCheck := true; qualityThreshold := (3 # 10)%Q; forceMultiEngine := false |}.

(** What [utils.ts] and the platform provide. *)
Record Deps := {
  sanitizeQuery : string -> string;
  generateTimestamp : string;
  uddg : string -> option string;
}.

(** The outside world of one search: what each backend's fetch yields for a
    query and a time-out, [None] when the fetch throws (no browser context,
    navigation failure, HTTP error). The Bing url also carries
    [Math.min(numResults, 10)]. *)
Record Web := {
  ddgBrowser : string -> Q -> option DdgBrowserPage;
  bingBrowser : string -> nat -> Q -> option BingPage;
  braveBrowser : string -> Q -> option BravePage;
  ddgHtml : string -> Q -> option DdgHtmlPage;
}.

(** A backend attempt either throws or returns a result list. *)
Inductive Attempt := Throws | Returns (results : list SearchResult).

Record Approach := { method : string -> nat -> Q -> Attempt; name : string }.

Record SearchResultWithMetadata := { results : list SearchResult; engine : string }.

Section Backends.
Variable deps : Deps.
Variable web : Web.

Definition tryBrowserDuckDuckGoSearch (query : string) (numResults : nat) (timeout : Q) : Attempt :=
  match ddgBrowser web query timeout with
  | Some page => Returns (parseDuckDuckGoBrowserResults (generateTimestamp deps) page numResults)
  | None => Throws
  end.

Definition tryBrowserBraveSearch (query : string) (numResults : nat) (timeout : Q) : Attempt :=
  match braveBrowser web query timeout with
  | Some page => Returns (parseBraveResults (generateTimestamp deps) page numResults)
  | None => Throws
  end.

Definition tryBrowserBingSearch (query : string) (numResults : nat) (timeout : Q) : Attempt :=
  match bingBrowser web query (Nat.min numResults 10) timeout with
  | Some page => Returns (parseBingResults (generateTimestamp deps) page numResults)
  | None => Throws
  end.

Definition tryDuckDuckGoSearch (query : string) (numResults : nat) (timeout : Q) : Attempt :=
  match ddgHtml web query timeout with
  | Some page => Returns (parseDuckDuckGoResults (uddg deps) (generateTimestamp deps) page numResults)
  | None => Throws
  end.

(** The priority list of [search]. *)
Definition approaches : list Approach :=
  [ {| method := tryBrowserDuckDuckGoSearch; name := "Browser DuckDuckGo" |};
    {| method := tryBrowserBingSearch; name := "Browser Bing" |};
    {| method := tryBrowserBraveSearch; name := "Browser Brave" |};
    {| method := tryDuckDuckGoSearch; name := "Axios DuckDuckGo" |} ].

End Backends.

(** [bestResults], [bestEngine], [bestQuality]. *)
Record Best := { bestResults : list SearchResult; bestEngine : string; bestQuality : Q }.

Definition noBest : Best := {| bestResults := []; bestEngine := "None"; bestQuality := 0%Q |}.

(** What one iteration of the [for] loop does with a non-empty result list:
    leave the function with a value, or go on with the updated best. *)
Inductive Iteration := Return (r : SearchResultWithMetadata) | Continue (b : Best).

Definition iteration (cfg : Config) (query : string) (len i : nat) (a : Approach)
    (results : list SearchResult) (best : Best) : Iteration :=
  let qualityScore := if enableQualityCheck cfg then assessResultQuality results query else 1%Q in
  let best :=
    if Qlt_bool (bestQuality best) qualityScore
    then {| bestResults := results; bestEngine := name a; bestQuality := qualityScore |}
    else best in
  if Qle_bool (8 # 10) qualityScore && negb (forceMultiEngine cfg) then
    Return {| results := results; engine := name a |}
  else if Qle_bool (qualityThreshold cfg) qualityScore
          && negb (String.eqb (name a) "Browser Bing")
          && negb (forceMultiEngine cfg) then
    Return {| results := results; engine := name a |}
  else if (i =? len - 1)%nat then
    if Qle_bool (qualityThreshold cfg) (bestQuality best) || negb (enableQualityCheck cfg) then
      Return {| results := bestResults best; engine := bestEngine best |}
    else if (0 <? List.length (bestResults best))%nat then
      Return {| results := bestResults best; engine := bestEngine best |}
    else Continue best
  else Continue best.

(** The [for] loop from index [i] on; [rest] are [approaches[i..]] and [len]
    is [approaches.length]. A thrown attempt is caught and logged. *)
Fixpoint fallback (cfg : Config) (query : string) (numResults : nat) (timeout : Q)
    (len i : nat) (rest : list Approach) (best : Best) : SearchResultWithMetadata :=
  match rest with
  | [] => {| results := []; engine := "None" |}
  | a :: rest' =>
      let approachTimeout := Qmin (timeout / 3)%Q 5000%Q in
      match method a query numResults approachTimeout with
      | Throws => fallback cfg query numResults timeout len (S i) rest' best
      | Returns results =>
          if (0 <? List.length results)%nat then
            match iteration cfg query len i a results best with
            | Return r => r
            | Continue best' => fallback cfg query numResults timeout len (S i) rest' best'
            end
          else fallback cfg query numResults timeout len (S i) rest' best
      end
  end.

(** The loop over an arbitrary priority list. *)
Definition searchWith (cfg : Config) (apps : list Approach) (query : string)
    (numResults : nat) (timeout : Q) : SearchResultWithMetadata :=
  fallback cfg query numResults timeout (List.length apps) 0 apps noBest.

(** Modelled from the spec: [RateLimiter.execute] of [rate-limiter.ts], which
    is not among the sources: a call is delayed until a slot opens and then
    runs the operation exactly once, so its value is the operation's. *)
Definition rateLimiter_execute {A} (fn : unit -> A) : A := fn tt.

(** [search({ query, numResults = 5, timeout = 10000 })] *)
Definition search (deps : Deps) (cfg : Config) (web : Web) (query : string)
    (numResults : nat) (timeout : Q) : SearchResultWithMetadata :=
  let sanitizedQuery := sanitizeQuery deps query in
  rateLimiter_execute (fun _ =>
    searchWith cfg (approaches deps web) sanitizedQuery numResults timeout).

End SearchEngine.

(** ** BraveApiRateLimiter *)

Module BraveApiRateLimiter.

Record MonthlyUsage := { month : string; count : Z }.

Record Limiter := {
  lastRequestTime : Z;
  minIntervalMs : Z;
  maxRequestsPerMonth : Z;
  monthlyUsage : option MonthlyUsage;
  initialized : bool;
}.

(** [new BraveApiRateLimiter(requestsPerSecond = 1, maxRequestsPerMonth = 2000)] *)
Definition new (requestsPerSecond : Q) (maxRequestsPerMonth : Z) : Limiter :=
  {| lastRequestTime := 0;
     minIntervalMs := Qceiling (1000 / requestsPerSecond);
     maxRequestsPerMonth := maxRequestsPerMonth;
     monthlyUsage := None;
     initialized := false |}.

(** What one call of [execute] reads from the outside: the month and the
    days to the first of next month by the clock, [Date.now()] at the check
    and after the wait, and whether [fs.writeFile] goes through. *)
Record Env := {
  currentMonth : string;
  daysUntilReset : Z;
  now : Z;
  nowAfterWait : Z;
  writeOk : bool;
}.

(** The usage file: [None] when it is missing or does not parse. *)
Definition File := option MonthlyUsage.

Definition loadUsage (file : File) (env : Env) : MonthlyUsage :=
  match file with
  | Some usage =>
      if String.eqb (month usage) (currentMonth env) then usage
      else {| month := currentMonth env; count := 0 |}
  | None => {| month := currentMonth env; count := 0 |}
  end.

(** [saveUsage]: a failed write is logged and swallowed. *)
Definition saveUsage (file : File) (env : Env) (usage : MonthlyUsage) : File :=
  if writeOk env then Some usage else file.

Definition init (l : Limiter) (file : File) (env : Env) : Limiter :=
  if initialized l then l
  else {| lastRequestTime := lastRequestTime l;
          minIntervalMs := minIntervalMs l;
          maxRequestsPerMonth := maxRequestsPerMonth l;
          monthlyUsage := Some (loadUsage file env);
          initialized := true |}.

Section Execute.
(** [T] is the type of the value of [fn], [E] of what it throws. *)
Context {T E : Type}.

(** The promise [fn()] returns, settled. *)
Inductive Settled := Resolves (v : T) | Rejects (e : E).

(** How [execute] ends: with the value of [fn], with the limit error
    (carrying the cap and the days to the reset), with what [fn] threw, or
    with the TypeError of reading [count] of [null]. *)
Inductive Result :=
  | Ok (v : T)
  | LimitReached (cap days : Z)
  | Failed (e : E)
  | TypeError.

(** What a call does besides: sleeping, invoking [fn], writing the file. *)
Inductive Event := Slept (ms : Z) | Invoked | Wrote (usage : MonthlyUsage).

Record Outcome := {
  result : Result;
  limiter : Limiter;
  file : File;
  events : list Event;
}.

Definition withUsage (l : Limiter) (t : Z) (u : MonthlyUsage) : Limiter :=
  {| lastRequestTime := t;
     minIntervalMs := minIntervalMs l;
     maxRequestsPerMonth := maxRequestsPerMonth l;
     monthlyUsage := Some u;
     initialized := initialized l |}.

Definition execute (l : Limiter) (f : File) (env : Env) (fn : Settled) : Outcome :=
  let l := init l f env in
  match monthlyUsage l with
  | None => {| result := TypeError; limiter := l; file := f; events := [] |}
  | Some usage =>
      if (maxRequestsPerMonth l <=? count usage)%Z then
        {| result := LimitReached (maxRequestsPerMonth l) (daysUntilReset env);
           limiter := l; file := f; events := [] |}
      else
        let timeSinceLastRequest := (now env - lastRequestTime l)%Z in
        let waited :=
          if (timeSinceLastRequest <? minIntervalMs l)%Z
          then [Slept (minIntervalMs l - timeSinceLastRequest)] else [] in
        match fn with
        | Resolves v =>
            let usage' := {| month := month usage; count := count usage + 1 |} in
            {| result := Ok v;
               limiter := withUsage l (nowAfterWait env) usage';
               file := saveUsage f env usage';
               events := waited ++ [Invoked; Wrote usage'] |}
        | Rejects e =>
            {| result := Failed e;
               limiter := withUsage l (nowAfterWait env) usage;
               file := f;
               events := waited ++ [Invoked] |}
        end
  end.

(** The limiter object and the usage file, over a sequence of calls that do
    not overlap, with restarts of the process in between (a restart keeps
    the file and the configuration and forgets the loaded usage). *)
Record World := { lim : Limiter; disk : File }.

Inductive Op := Call (env : Env) (fn : Settled) | Restart.

Definition step (w : World) (op : Op) : World :=
  match op with
  | Call env fn =>
      let o := execute (lim w) (disk w) env fn in
      {| lim := limiter o; disk := file o |}
  | Restart =>
      {| lim := {| lastRequestTime := 0;
                   minIntervalMs := minIntervalMs (lim w);
                   maxRequestsPerMonth := maxRequestsPerMonth (lim w);
                   monthlyUsage := None;
                   initialized := false |};
         disk := disk w |}
  end.

Definition run (ops : list Op) (w : World) : World := fold_left step ops w.

End Execute.

Arguments Settled : clear implicits.
Arguments Result : clear implicits.
Arguments Outcome : clear implicits.
Arguments Op : clear implicits.

(** The count the limiter holds, and the count on file. *)
Definition heldWithin (cap : Z) (l : Limiter) : Prop :=
  forall u, monthlyUsage l = Some u -> (count u <= cap)%Z.

Definition fileWithin (cap : Z) (f : File) : Prop :=
  forall u, f = Some u -> (count u <= cap)%Z.

(** The class sets [initialized] only together with [monthlyUsage]. *)
Definition wellFormed (l : Limiter) : Prop :=
  initialized l = true -> monthlyUsage l <> None.

(** The usage [execute] works with: the loaded one on first use. *)
Definition currentUsage (l : Limiter) (f : File) (env : Env) : option MonthlyUsage :=
  monthlyUsage (init l f env).

Definition bump (u : MonthlyUsage) : MonthlyUsage :=
  {| month := month u; count := count u + 1 |}.

End BraveApiRateLimiter.

(** ** GarbageCollector (the process reaper) *)

Module GarbageCollector.
Import JsString.

Record GCConfig := { intervalMs : Z; maxProcessAgeMs : Z; verbose : bool }.

Definition DEFAULT_CONFIG (verbose : bool) : GCConfig :=
  {| intervalMs := 5 * 60 * 1000; maxProcessAgeMs := 30 * 60 * 1000; verbose := verbose |}.

(** A row of [ps -eo pid,etimes,cmd]; [etime] is in seconds. Ages are
    compared as exact rationals: [etime] and [maxProcessAgeMs] are integers,
    and the quotients the source compares differ by at least 1/60000 when
    they differ at all, far more than a rounding error. *)
Record ProcessInfo := { pid : Z; etime : Z; cmd : string }.

Definition isOrphanedChrome (config : GCConfig) (proc : ProcessInfo) : bool :=
  if negb (includes (cmd proc) "playwright")
     && negb (includes (cmd proc) "user-data-dir=/tmp/playwright")
  then false
  else
    let ageMinutes := (inject_Z (etime proc) / 60)%Q in
    Qlt_bool (inject_Z (maxProcessAgeMs config) / 60000)%Q ageMinutes.

(** The value of [runGC] and the pids it hands to [killProcess], in order. *)
Record Sweep := { killed : nat; checked : nat; terminated : list Z }.

(** The body of the [for] loop, on the pids terminated so far. *)
Definition sweepOne (config : GCConfig) (myPid : Z) (acc : list Z) (proc : ProcessInfo)
    : list Z :=
  let maxAgeSeconds := (inject_Z (maxProcessAgeMs config) / 1000)%Q in
  if Qlt_bool (inject_Z (etime proc)) maxAgeSeconds then acc
  else if (pid proc =? myPid)%Z then acc
  else if isOrphanedChrome config proc then acc ++ [pid proc]
  else acc.

(** [runGC] on the process list [findChromeProcesses] returned. *)
Definition runGC (config : GCConfig) (myPid : Z) (chromeProcesses : list ProcessInfo) : Sweep :=
  let pids := fold_left (sweepOne config myPid) chromeProcesses [] in
  {| killed := List.length pids;
     checked := List.length chromeProcesses;
     terminated := pids |}.

(** The fingerprint of the specification: the command line references the
    temporary profile directory of the automation engine. *)
Definition referencesTempProfile (proc : ProcessInfo) : bool :=
  includes (cmd proc) "user-data-dir=/tmp/playwright".

(** What makes the loop body hand a process to [killProcess], as the
    theorems below establish: it is not the reaper itself, its age in
    seconds exceeds the maximal age in milliseconds, and its command line
    contains the word playwright. *)
Definition doomed (config : GCConfig) (myPid : Z) (proc : ProcessInfo) : Prop :=
  pid proc <> myPid
  /\ (maxProcessAgeMs config < etime proc * 1000)%Z
  /\ includes (cmd proc) "playwright" = true.

End GarbageCollector.

(** ** EnhancedContentExtractor *)

Module EnhancedContentExtractor.
Import JsString.

(** The body of a response as the HTTP client hands it over. A body that
    parses as JSON arrives parsed: [NoData] is an absent body (or [null]),
    [Text] a string, [Items] an array, of which only the strings among its
    elements matter here, and [Opaque] any other value (an object, a number,
    a boolean), which has no [includes]. *)
Inductive Data := NoData | Text (s : string) | Items (strings : list string) | Opaque.

(** What a rejected promise carries: an error of the HTTP client (its
    [code], the status and body of its response when there is one, its
    message), any other [Error], [null] or [undefined], or another value
    that is no [Error] and has neither [response] nor [message]. *)
Inductive Thrown :=
  | AxiosError (code : option string) (status : option Z) (data : Data)
      (message : string)
  | PlainError (message : string)
  | Nullish
  | NonError.

Inductive Outcome (A : Type) := Resolved (a : A) | Rejected (e : Thrown).
Arguments Resolved {A} a.
Arguments Rejected {A} e.

(** What [utils.ts], the HTML parser and the engine provide.
    [parseContent] is the method of that name: it reduces the markup with
    cheerio and ends in [cleanText(_, this.maxContentLength)].
    [typeErrorMessage e] is the wording of the TypeError the engine throws
    when [shouldUseBrowser] reads from [e] what is not there. *)
Record Deps := {
  typeErrorMessage : Thrown -> string;
  parseContent : string -> string;
  cleanText : string -> nat -> string;
  getContentPreview : string -> string;
  getWordCount : string -> nat;
  generateTimestamp : string;
  isPdfUrl : string -> bool;
}.

(** The fields the constructor reads from the environment variables. *)
Record Extractor := { defaultTimeout : Q; maxContentLength : nat }.

Record ContentExtractionOptions := {
  optUrl : string;
  optTimeout : option Q;
  optMaxContentLength : option nat;
}.

(** The outside world of an extraction: the body [axios.get] resolves to
    or the error it rejects with, the markup the rendered page yields or the
    error of the browser session, and whether the 50 s timer of the bulk
    variant fires before the extraction of a url settles. *)
Record World := {
  axiosGet : string -> Q -> Outcome string;
  browserPage : string -> Q -> Outcome string;
  timerFirst : string -> bool;
}.

Definition errStatus (e : Thrown) : option Z :=
  match e with AxiosError _ s _ _ => s | _ => None end.

Definition errMessage (e : Thrown) : option string :=
  match e with
  | AxiosError _ _ _ m => Some m
  | PlainError m => Some m
  | Nullish | NonError => None
  end.

Definition errData (e : Thrown) : Data :=
  match e with AxiosError _ _ d _ => d | _ => NoData end.

Definition statusIs (e : Thrown) (n : Z) : bool :=
  match errStatus e with Some s => (s =? n)%Z | None => false end.

(** [o?.includes(sub) === true] *)
Definition optIncludes (o : option string) (sub : string) : bool :=
  match o with Some s => includes s sub | None => false end.

(** [d?.includes(sub) === true], or [None] where the call throws: the body
    is there and has no method [includes]. An array includes [sub] when one
    of its elements is that string. *)
Definition dataIncludes (d : Data) (sub : string) : option bool :=
  match d with
  | NoData => Some false
  | Text s => Some (includes s sub)
  | Items strings => Some (existsb (String.eqb sub) strings)
  | Opaque => None
  end.

(** The elements of an array literal are evaluated one after the other;
    the first that throws ends the evaluation. *)
Fixpoint evaluated (elements : list (option bool)) : option (list bool) :=
  match elements with
  | [] => Some []
  | None :: _ => None
  | Some b :: rest =>
      match evaluated rest with
      | Some bs => Some (b :: bs)
      | None => None
      end
  end.

(** The decision of [shouldUseBrowser], or [None] where it throws a
    TypeError while it builds the array of indicators: on [null] and
    [undefined] at the first [error.response], on a body without
    [includes] at [error.response?.data?.includes]. *)
Definition shouldUseBrowser (e : Thrown) (url : string) : option bool :=
  match e with
  | Nullish => None
  | _ =>
      let indicators :=
        evaluated
          [ Some (statusIs e 403); Some (statusIs e 429); Some (statusIs e 503);
            Some (optIncludes (errMessage e) "timeout");
            Some (optIncludes (errMessage e) "Access denied");
            Some (optIncludes (errMessage e) "Forbidden");
            Some (optIncludes (errMessage e) "Low quality content detected");
            dataIncludes (errData e) "Please enable JavaScript";
            dataIncludes (errData e) "captcha";
            dataIncludes (errData e) "unusual traffic";
            dataIncludes (errData e) "robot";
            Some (includes url "twitter.com"); Some (includes url "facebook.com");
            Some (includes url "instagram.com"); Some (includes url "linkedin.com");
            Some (includes url "reddit.com"); Some (includes url "medium.com") ] in
      match indicators with
      | Some indicators => Some (existsb (fun indicator => indicator) indicators)
      | None => None
      end
  end.

Definition isLowQualityContent (content : string) : bool :=
  let lowQualityIndicators :=
    [ (String.length content <? 100)%nat;
      includes content "Please enable JavaScript";
      includes content "Access Denied";
      includes content "403 Forbidden";
      includes content "captcha";
      includes content "unusual traffic";
      includes content "robot";
      String.eqb (trim content) "" ] in
  existsb (fun indicator => indicator) lowQualityIndicators.

Section Extraction.
Variable deps : Deps.
Variable self : Extractor.
Variable world : World.

Definition timeoutOf (options : ContentExtractionOptions) : Q :=
  match optTimeout options with Some t => t | None => defaultTimeout self end.

Definition extractWithAxios (options : ContentExtractionOptions) : Outcome string :=
  let url := optUrl options in
  let maxLength :=
    match optMaxContentLength options with Some n => n | None => maxContentLength self end in
  match axiosGet world url (timeoutOf options) with
  | Rejected e => Rejected e
  | Resolved data =>
      let content := parseContent deps data in
      let content :=
        if negb (maxLength =? 0)%nat && (maxLength <? String.length content)%nat
        then substring0 maxLength content else content in
      if isLowQualityContent content
      then Rejected (PlainError "Low quality content detected - likely bot detection")
      else Resolved content
  end.

Definition extractWithBrowser (options : ContentExtractionOptions) : Outcome string :=
  match browserPage world (optUrl options) (timeoutOf options) with
  | Rejected e => Rejected e
  | Resolved html => Resolved (parseContent deps html)
  end.

Definition extractContent (options : ContentExtractionOptions) : Outcome string :=
  let url := optUrl options in
  match extractWithAxios options with
  | Resolved content => Resolved content
  | Rejected e =>
      match shouldUseBrowser e url with
      | Some true =>
          match extractWithBrowser options with
          | Resolved content => Resolved content
          | Rejected _ =>
              Rejected (PlainError ("Both axios and browser extraction failed for " ++ url))
          end
      | Some false => Rejected e
      | None => Rejected (PlainError (typeErrorMessage deps e))
      end
  end.

Definition getSpecificErrorMessage (e : Thrown) : string :=
  match e with
  | AxiosError code status _ message =>
      if match code with Some c => String.eqb c "ECONNABORTED" | None => false end
      then "Request timeout"
      else if statusIs e 403 then "403 Forbidden - Access denied"
      else if statusIs e 404 then "404 Not found"
      else if includes message "maxContentLength" then "Content too long"
      else match status with
           | Some s =>
               if (s =? 0)%Z then "Network error: " ++ message
               else "HTTP " ++ ofZ s ++ ": " ++ message
           | None => "Network error: " ++ message
           end
  | PlainError message => message
  | Nullish | NonError => "Unknown error"
  end.

(** The options of the bulk variant: [{ url, timeout: 45000 }]. *)
Definition bulkOptions (url : string) : ContentExtractionOptions :=
  {| optUrl := url; optTimeout := Some 45000%Q; optMaxContentLength := None |}.

(** [Promise.race([extractionPromise, timeoutPromise])] *)
Definition raced (url : string) : Outcome string :=
  if timerFirst world url then Rejected (PlainError "Content extraction timeout")
  else extractContent (bulkOptions url).

(** The callback of [resultsToProcess.map]: it catches every error. *)
Definition extractOne (r : SearchResult) : SearchResult :=
  match raced (url r) with
  | Resolved content =>
      let cleanedContent := cleanText deps content (maxContentLength self) in
      {| title := title r; url := url r; description := description r;
         fullContent := cleanedContent;
         contentPreview := getContentPreview deps cleanedContent;
         wordCount := getWordCount deps cleanedContent;
         timestamp := generateTimestamp deps;
         fetchStatus := success;
         errorMessage := errorMessage r |}
  | Rejected e =>
      {| title := title r; url := url r; description := description r;
         fullContent := "";
         contentPreview := "";
         wordCount := 0;
         timestamp := generateTimestamp deps;
         fetchStatus := error;
         errorMessage := Some (getSpecificErrorMessage e) |}
  end.

Definition isSuccess (r : SearchResult) : bool := bool_decide (fetchStatus r = success).
Definition isError (r : SearchResult) : bool := bool_decide (fetchStatus r = error).

(** [nonPdfResults.slice(0, Math.min(targetCount * 2, 10))] *)
Definition resultsToProcess (results : list SearchResult) (targetCount : nat)
    : list SearchResult :=
  let nonPdfResults := List.filter (fun r => negb (isPdfUrl deps (url r))) results in
  firstn (Nat.min (targetCount * 2) 10) nonPdfResults.

Definition extractContentForResults (results : list SearchResult) (targetCount : nat)
    : list SearchResult :=
  let allResults := List.map extractOne (resultsToProcess results targetCount) in
  let successfulResults := List.filter isSuccess allResults in
  let failedResults := List.filter isError allResults in
  firstn targetCount
    (firstn targetCount successfulResults
     ++ firstn (Nat.max 0 (targetCount - List.length successfulResults)) failedResults).

End Extraction.

End EnhancedContentExtractor.

(** ** BrowserPool *)

Module BrowserPool.

(** Identities of [Browser] objects, of the promises [launchBrowser()]
    returns, and of the calls of [getBrowser]. *)
Abbreviation Browser := nat (only parsing).
Abbreviation Promise := nat (only parsing).
Abbreviation Caller := nat (only parsing).

Definition MAX_CONTEXTS_PER_BROWSER : nat := 50.

(** The fields of the pool object. *)
Record Pool := {
  browser : option Browser;
  browserLaunchPromise : option Promise;
  contextCount : nat;
}.

(** The state of the promise of a launch. *)
Inductive Settlement := Pending | Fulfilled (b : Browser) | Failed.

(** Where a call of [getBrowser] stands: suspended at the [await] of
    [safeCloseBrowser], suspended at the [await] of the launch it started,
    having returned the pending promise of another call's launch, or
    settled: returned a browser (with the launch it came from, if any), or
    rejected with the error of a launch. *)
Inductive Call :=
  | AwaitingClose (b : Browser)
  | AwaitingLaunch (p : Promise)
  | AwaitingShared (p : Promise)
  | Returned (via : option Promise) (b : Browser)
  | Threw (via : Promise).

(** The pool together with what surrounds it: the launches made so far and
    their promises, the calls in progress, the browsers that are connected,
    the browsers handed to [safeCloseBrowser] (in order), and the identity
    the next launched browser gets. *)
Record System := {
  pool : Pool;
  launches : gmap Promise Settlement;
  launchCount : nat;
  calls : gmap Caller Call;
  connected : gset Browser;
  closing : list Browser;
  nextBrowser : Browser;
}.

Definition initial : System :=
  {| pool := {| browser := None; browserLaunchPromise := None; contextCount := 0 |};
     launches := ∅; launchCount := 0; calls := ∅; connected := ∅;
     closing := []; nextBrowser := 0 |}.

Definition setPool (s : System) (p : Pool) : System :=
  {| pool := p; launches := launches s; launchCount := launchCount s; calls := calls s;
     connected := connected s; closing := closing s; nextBrowser := nextBrowser s |}.

Definition setCall (s : System) (c : Caller) (k : Call) : System :=
  {| pool := pool s; launches := launches s; launchCount := launchCount s;
     calls := <[c := k]> (calls s);
     connected := connected s; closing := closing s; nextBrowser := nextBrowser s |}.

Definition setConnected (s : System) (g : gset Browser) : System :=
  {| pool := pool s; launches := launches s; launchCount := launchCount s; calls := calls s;
     connected := g; closing := closing s; nextBrowser := nextBrowser s |}.

(** Lines 58-66 of [getBrowser]: return the pending promise if there is
    one, otherwise call [launchBrowser()], store its promise and await it. *)
Definition launchOrShare (c : Caller) (s : System) : System :=
  match browserLaunchPromise (pool s) with
  | Some p => setCall s c (AwaitingShared p)
  | None =>
      let p := launchCount s in
      {| pool := {| browser := browser (pool s);
                    browserLaunchPromise := Some p;
                    contextCount := contextCount (pool s) |};
         launches := <[p := Pending]> (launches s);
         launchCount := S p;
         calls := <[c := AwaitingLaunch p]> (calls s);
         connected := connected s; closing := closing s; nextBrowser := nextBrowser s |}
  end.

(** Lines 46-56: from the entry of [getBrowser] to its first [await] or
    [return]. *)
Definition enter (c : Caller) (s : System) : System :=
  match browser (pool s) with
  | Some b =>
      if bool_decide (b ∈ connected s)
         && (contextCount (pool s) <? MAX_CONTEXTS_PER_BROWSER)%nat
      then setCall s c (Returned None b)
      else
        {| pool := pool s; launches := launches s; launchCount := launchCount s;
           calls := <[c := AwaitingClose b]> (calls s);
           connected := connected s; closing := closing s ++ [b];
           nextBrowser := nextBrowser s |}
  | None => launchOrShare c s
  end.

(** Line 55 and on, once [safeCloseBrowser] has settled: a failed close is
    logged, not propagated. *)
Definition afterClose (c : Caller) (b : Browser) (ok : bool) (s : System) : System :=
  let s := if ok then setConnected s (connected s ∖ {[b]}) else s in
  launchOrShare c
    (setPool s {| browser := None;
                  browserLaunchPromise := browserLaunchPromise (pool s);
                  contextCount := contextCount (pool s) |}).

(** Lines 66-71 in the call that launched, once its promise has settled. *)
Definition afterLaunch (c : Caller) (p : Promise) (r : Settlement) (s : System)
    : option System :=
  match r with
  | Fulfilled b =>
      Some (setCall
              (setPool s {| browser := Some b; browserLaunchPromise := None;
                            contextCount := 0 |})
              c (Returned (Some p) b))
  | Failed =>
      Some (setCall
              (setPool s {| browser := browser (pool s); browserLaunchPromise := None;
                            contextCount := contextCount (pool s) |})
              c (Threw p))
  | Pending => None
  end.

(** A call that returned another call's promise settles as that promise. *)
Definition afterShared (c : Caller) (p : Promise) (r : Settlement) (s : System)
    : option System :=
  match r with
  | Fulfilled b => Some (setCall s c (Returned (Some p) b))
  | Failed => Some (setCall s c (Threw p))
  | Pending => None
  end.

(** The transitions: a call of [getBrowser] starts; the close a call awaits
    settles; [chromium.launch] settles; a call resumes after the launch
    promise it awaits has settled; a browser disconnects on its own; the
    [getContext] a call was made from increments the counter. *)
Inductive Event :=
  | Enter (c : Caller)
  | Closed (c : Caller) (ok : bool)
  | Launched (p : Promise) (ok : bool)
  | Resume (c : Caller)
  | Disconnect (b : Browser)
  | Issue (c : Caller).

Definition exec (e : Event) (s : System) : option System :=
  match e with
  | Enter c =>
      match calls s !! c with
      | None => Some (enter c s)
      | Some _ => None
      end
  | Closed c ok =>
      match calls s !! c with
      | Some (AwaitingClose b) => Some (afterClose c b ok s)
      | _ => None
      end
  | Launched p ok =>
      match launches s !! p with
      | Some Pending =>
          if ok then
            let b := nextBrowser s in
            Some {| pool := pool s; launches := <[p := Fulfilled b]> (launches s);
                    launchCount := launchCount s; calls := calls s;
                    connected := connected s ∪ {[b]}; closing := closing s;
                    nextBrowser := S b |}
          else
            Some {| pool := pool s; launches := <[p := Failed]> (launches s);
                    launchCount := launchCount s; calls := calls s;
                    connected := connected s; closing := closing s;
                    nextBrowser := nextBrowser s |}
      | _ => None
      end
  | Resume c =>
      match calls s !! c with
      | Some (AwaitingLaunch p) =>
          match launches s !! p with
          | Some r => afterLaunch c p r s
          | None => None
          end
      | Some (AwaitingShared p) =>
          match launches s !! p with
          | Some r => afterShared c p r s
          | None => None
          end
      | _ => None
      end
  | Disconnect b => Some (setConnected s (connected s ∖ {[b]}))
  | Issue c =>
      match calls s !! c with
      | Some (Returned _ _) =>
          Some {| pool := {| browser := browser (pool s);
                             browserLaunchPromise := browserLaunchPromise (pool s);
                             contextCount := S (contextCount (pool s)) |};
                  launches := launches s; launchCount := launchCount s;
                  calls := delete c (calls s);
                  connected := connected s; closing := closing s;
                  nextBrowser := nextBrowser s |}
      | _ => None
      end
  end.

Fixpoint run (es : list Event) (s : System) : option System :=
  match es with
  | [] => Some s
  | e :: es' =>
      match exec e s with
      | Some s' => run es' s'
      | None => None
      end
  end.

Definition reachable (s : System) : Prop := exists es, run es initial = Some s.

(** One call of [getBrowser] that no other call overlaps: its segments in
    a row, the close and the launch settling as [closeOk] and [launchOk]
    tell. *)
Definition getBrowser (closeOk launchOk : bool) (c : Caller) (s : System) : option System :=
  match exec (Enter c) s with
  | None => None
  | Some s1 =>
      let s2 :=
        match calls s1 !! c with
        | Some (AwaitingClose _) => exec (Closed c closeOk) s1
        | _ => Some s1
        end in
      match s2 with
      | None => None
      | Some s2 =>
          match calls s2 !! c with
          | Some (AwaitingLaunch p) =>
              match exec (Launched p launchOk) s2 with
              | Some s3 => exec (Resume c) s3
              | None => None
              end
          | Some (AwaitingShared _) => exec (Resume c) s2
          | _ => Some s2
          end
      end
  end.

(** [getContext]: [await this.getBrowser()], then [this.contextCount++]
    (the [newContext] that follows does not touch the pool). *)
Definition getContext (closeOk launchOk : bool) (c : Caller) (s : System) : option System :=
  match getBrowser closeOk launchOk c s with
  | None => None
  | Some s' =>
      match calls s' !! c with
      | Some (Returned _ _) => exec (Issue c) s'
      | _ => Some s'
      end
  end.

(** [n] calls of [getContext] in a row, by the callers [c], [c+1], ... *)
Fixpoint issueContexts (closeOk launchOk : bool) (n : nat) (c : Caller) (s : System)
    : option System :=
  match n with
  | O => Some s
  | S n' =>
      match getContext closeOk launchOk c s with
      | Some s' => issueContexts closeOk launchOk n' (S c) s'
      | None => None
      end
  end.

(** What holds of every reachable state (proved below): while a launch is
    pending the marker names it and the pool holds no browser; the call
    suspended on its own launch is unique and the marker names its promise;
    a settled call agrees with the promise it came from; promises beyond
    [launchCount] do not exist yet. *)
Record Inv (s : System) : Prop := {
  inv_pending : forall p, launches s !! p = Some Pending ->
    browserLaunchPromise (pool s) = Some p /\ browser (pool s) = None;
  inv_owner : forall c p, calls s !! c = Some (AwaitingLaunch p) ->
    browserLaunchPromise (pool s) = Some p;
  inv_one_owner : forall c c' p p',
    calls s !! c = Some (AwaitingLaunch p) ->
    calls s !! c' = Some (AwaitingLaunch p') -> c = c';
  inv_returned : forall c p b, calls s !! c = Some (Returned (Some p) b) ->
    launches s !! p = Some (Fulfilled b);
  inv_threw : forall c p, calls s !! c = Some (Threw p) ->
    launches s !! p = Some Failed;
  inv_fresh : forall p, (launchCount s <= p)%nat -> launches s !! p = None;
}.

(** Browsers in use were launched before: their identities lie below the
    next one. *)
Record Fresh (s : System) : Prop := {
  fresh_browser : forall b, browser (pool s) = Some b -> (b < nextBrowser s)%nat;
  fresh_launched : forall p b, launches s !! p = Some (Fulfilled b) ->
    (b < nextBrowser s)%nat;
}.

(** The launch step: the call that launched resumes on a fulfilled promise. *)
Definition launchSucceeds (e : Event) (s : System) (b : nat) : Prop :=
  exists c p, e = Resume c
    /\ calls s !! c = Some (AwaitingLaunch p)
    /\ launches s !! p = Some (Fulfilled b).

(** The state with the context counter set to [n]. *)
Definition withCount (s : System) (n : nat) : System :=
  setPool s {| browser := browser (pool s);
               browserLaunchPromise := browserLaunchPromise (pool s);
               contextCount := n |}.

(** [n + 1] calls start one after the other on a pool before any of them
    resumes; then the launch succeeds and each call resumes. *)
Definition concurrentCalls (n : nat) : list Event :=
  List.map Enter (seq 0 (S n)) ++ [Launched 0 true] ++ List.map Resume (seq 0 (S n)).

End BrowserPool.

(** ** Concrete runs used below *)

Module Scenarios.
Import Parsers SearchEngine.

(** [sanitizeQuery] leaves the query "weather london" as it is; no url
    carries an [uddg] parameter. *)
Definition deps0 : SearchEngine.Deps :=
  {| sanitizeQuery := fun q => q;
     generateTimestamp := "2026-11-03T00:00:00.000Z";
     uddg := fun _ => None |}.

(** Two hits, of which the first mentions the query: quality 1/2. *)
Definition mixedHits : list Element :=
  [ mkElement "London weather today" (Some "https://a.example/london") "Forecast for the week";
    mkElement "Cooking pasta" (Some "https://b.example/pasta") "Recipes" ].

(** Two hits that both mention the query: quality 1. *)
Definition goodHits : list Element :=
  [ mkElement "Weather in London" (Some "https://c.example/1") "Hourly";
    mkElement "London weather radar" (Some "https://d.example/2") "Live" ].

(** Two hits that do not mention the query: quality 0. *)
Definition poorHits : list Element :=
  [ mkElement "Cooking pasta" (Some "https://b.example/pasta") "Recipes";
    mkElement "Chess openings" (Some "https://e.example/chess") "Theory" ].

(** Only Bing answers, with [mixedHits]; the other three backends throw. *)
Definition webBingOnly : Web :=
  {| ddgBrowser := fun _ _ => None;
     bingBrowser := fun _ _ _ => Some {| b_algo := mixedHits |};
     braveBrowser := fun _ _ => None;
     ddgHtml := fun _ _ => None |}.

(** Every backend answers with [poorHits]. *)
Definition webAllPoor : Web :=
  {| ddgBrowser := fun _ _ => Some {| articles := poorHits; legacyResults := [] |};
     bingBrowser := fun _ _ _ => Some {| b_algo := poorHits |};
     braveBrowser := fun _ _ => Some {| webSnippets := poorHits; anySnippets := [] |};
     ddgHtml := fun _ _ => Some {| resultElements := poorHits |} |}.

(** The first backend answers with [mixedHits], Bing with [goodHits]. *)
Definition webDdgMixedBingGood : Web :=
  {| ddgBrowser := fun _ _ => Some {| articles := mixedHits; legacyResults := [] |};
     bingBrowser := fun _ _ _ => Some {| b_algo := goodHits |};
     braveBrowser := fun _ _ => None;
     ddgHtml := fun _ _ => None |}.

(** The first backend throws, Bing answers with [mixedHits], Brave with
    [goodHits]. *)
Definition webBingMixedBraveGood : Web :=
  {| ddgBrowser := fun _ _ => None;
     bingBrowser := fun _ _ _ => Some {| b_algo := mixedHits |};
     braveBrowser := fun _ _ => Some {| webSnippets := goodHits; anySnippets := [] |};
     ddgHtml := fun _ _ => None |}.

Definition timestamp0 : string := SearchEngine.generateTimestamp deps0.

Definition mixedResults : list SearchResult :=
  [ fresh timestamp0 "London weather today" "https://a.example/london" "Forecast for the week";
    fresh timestamp0 "Cooking pasta" "https://b.example/pasta" "Recipes" ].

Definition goodResults : list SearchResult :=
  [ fresh timestamp0 "Weather in London" "https://c.example/1" "Hourly";
    fresh timestamp0 "London weather radar" "https://d.example/2" "Live" ].

Definition poorResults : list SearchResult :=
  [ fresh timestamp0 "Cooking pasta" "https://b.example/pasta" "Recipes";
    fresh timestamp0 "Chess openings" "https://e.example/chess" "Theory" ].

(** A limiter with the default configuration, not yet used; the usage
    file holds 1999 calls of October 2026, and the clock says October. *)
Definition limiter0 : BraveApiRateLimiter.Limiter := BraveApiRateLimiter.new 1 2000.

Definition usageFile0 : BraveApiRateLimiter.File :=
  Some {| BraveApiRateLimiter.month := "2026-10"; BraveApiRateLimiter.count := 1999 |}.

Definition october : BraveApiRateLimiter.Env :=
  {| BraveApiRateLimiter.currentMonth := "2026-10";
     BraveApiRateLimiter.daysUntilReset := 12;
     BraveApiRateLimiter.now := 1760000000000;
     BraveApiRateLimiter.nowAfterWait := 1760000000000;
     BraveApiRateLimiter.writeOk := true |}.

(** A browser the automation engine started forty minutes ago and left
    behind. *)
Definition orphanChrome : GarbageCollector.ProcessInfo :=
  {| GarbageCollector.pid := 7001;
     GarbageCollector.etime := 2400;
     GarbageCollector.cmd :=
       "/opt/google/chrome/chrome --user-data-dir=/tmp/playwright_chromiumdev_profile-Ab12" |}.

(** A Chrome of the user, forty minutes old. *)
Definition userChrome : GarbageCollector.ProcessInfo :=
  {| GarbageCollector.pid := 7002;
     GarbageCollector.etime := 2400;
     GarbageCollector.cmd := "/opt/google/chrome/chrome --profile-directory=Default" |}.

(** A Chrome started by hand forty minutes ago with a profile directory
    of its own, whose name happens to contain the word playwright. *)
Definition strayChrome : GarbageCollector.ProcessInfo :=
  {| GarbageCollector.pid := 4242;
     GarbageCollector.etime := 2400;
     GarbageCollector.cmd :=
       "/opt/google/chrome/chrome --user-data-dir=/home/ci/playwright-profile" |}.

(** Stand-ins for [utils.ts] and the HTML parser on the pages below, which
    are plain text: the text of such a page is the page itself. *)
Definition extractorDeps0 : EnhancedContentExtractor.Deps :=
  {| EnhancedContentExtractor.typeErrorMessage := fun e =>
       match e with
       | EnhancedContentExtractor.Nullish =>
           "Cannot read properties of null (reading 'response')"
       | _ => "error.response?.data?.includes is not a function"
       end;
     EnhancedContentExtractor.parseContent := fun html => html;
     EnhancedContentExtractor.cleanText :=
       fun s n => if (n <? String.length s)%nat then JsString.substring0 n s else s;
     EnhancedContentExtractor.getContentPreview := JsString.substring0 200;
     EnhancedContentExtractor.getWordCount :=
       fun s => List.length (List.filter JsString.truthy (JsString.split_ws s));
     EnhancedContentExtractor.generateTimestamp := "2026-11-03T00:00:00.000Z";
     EnhancedContentExtractor.isPdfUrl :=
       fun u => JsString.includes (JsString.toLowerCase u) ".pdf" |}.

(** The extractor with the default environment. *)
Definition extractor0 : EnhancedContentExtractor.Extractor :=
  {| EnhancedContentExtractor.defaultTimeout := 30000;
     EnhancedContentExtractor.maxContentLength := 500000 |}.

Fixpoint replicate (n : nat) (c : ascii) : string :=
  match n with
  | O => EmptyString
  | S n' => String c (replicate n' c)
  end.

(** A page of 1500 letters. *)
Definition longPage : string := replicate 1500 "a"%char.

(** The site answers the HTTP client with 403 and serves [longPage] to the
    browser. *)
Definition worldForbidden : EnhancedContentExtractor.World :=
  {| EnhancedContentExtractor.axiosGet := fun _ _ =>
       EnhancedContentExtractor.Rejected
         (EnhancedContentExtractor.AxiosError (Some "ERR_BAD_REQUEST") (Some 403%Z)
            (EnhancedContentExtractor.Text "Forbidden")
            "Request failed with status code 403");
     EnhancedContentExtractor.browserPage := fun _ _ =>
       EnhancedContentExtractor.Resolved longPage;
     EnhancedContentExtractor.timerFirst := fun _ => false |}.

(** The site serves [longPage] to the HTTP client and to the browser. *)
Definition worldOpen : EnhancedContentExtractor.World :=
  {| EnhancedContentExtractor.axiosGet := fun _ _ =>
       EnhancedContentExtractor.Resolved longPage;
     EnhancedContentExtractor.browserPage := fun _ _ =>
       EnhancedContentExtractor.Resolved longPage;
     EnhancedContentExtractor.timerFirst := fun _ => false |}.


Definition articleOptions (maxLength : nat) : EnhancedContentExtractor.ContentExtractionOptions :=
  {| EnhancedContentExtractor.optUrl := "https://example.org/article";
     EnhancedContentExtractor.optTimeout := None;
     EnhancedContentExtractor.optMaxContentLength := Some maxLength |}.


(** A pool in which two calls wait for the launch the first of them
    started. *)
Definition twoWaiting : BrowserPool.System :=
  match BrowserPool.run [BrowserPool.Enter 0; BrowserPool.Enter 1] BrowserPool.initial with
  | Some s => s
  | None => BrowserPool.initial
  end.

(** A pool that has just launched its first browser for call 0. *)
Definition warmPool : BrowserPool.System :=
  match BrowserPool.run
          [BrowserPool.Enter 0; BrowserPool.Launched 0 true; BrowserPool.Resume 0]
          BrowserPool.initial with
  | Some s => s
  | None => BrowserPool.initial
  end.

End Scenarios.

(** ** Strings, character by character *)

Module Chars.

(** Every character of [s] satisfies [p]. *)
Fixpoint allChars (p : ascii -> bool) (s : string) : bool :=
  match s with
  | EmptyString => true
  | String c s' => p c && allChars p s'
  end.

End Chars.

(** ** The result parsers, as selections *)

Module ParserSpec.
Import JsString Parsers.

(** The test [if (title && url)] of every parser, on an element. *)
Definition accepted (el : Element) : bool :=
  truthy (trim (titleText el))
  && match href el with Some url => truthy url | None => false end.

(** The record a parser pushes for an accepted element. *)
Definition pushed (mk : string -> string -> string -> SearchResult) (el : Element)
    : SearchResult :=
  mk (trim (titleText el))
     (match href el with Some url => url | None => EmptyString end)
     (trim (snippetText el)).

(** The first [maxResults] accepted elements of a selection, as records. *)
Definition firstAccepted (maxResults : nat)
    (mk : string -> string -> string -> SearchResult) (els : list Element)
    : list SearchResult :=
  firstn maxResults (List.map (pushed mk) (List.filter accepted els)).

(** A result as a parser leaves it: a title, no content yet, and the
    status ['success']. *)
Definition bare (r : SearchResult) : Prop :=
  truthy (title r) = true /\ trim (title r) = title r
  /\ fetchStatus r = success /\ fullContent r = ""
  /\ contentPreview r = "" /\ wordCount r = 0%nat /\ errorMessage r = None.

End ParserSpec.

(** ** The fallback loop, in terms of its backends *)

Module SearchSpec.
Import Quality SearchEngine.

(** The quality score the loop gives a result list. *)
Definition score (cfg : Config) (query : string) (rs : list SearchResult) : Q :=
  if enableQualityCheck cfg then assessResultQuality rs query else 1%Q.

(** The two tests of the loop body that return a backend's list at once. *)
Definition returnsAtOnce (cfg : Config) (query : string) (a : Approach)
    (rs : list SearchResult) : bool :=
  (Qle_bool (8 # 10) (score cfg query rs) && negb (forceMultiEngine cfg))
  || (Qle_bool (qualityThreshold cfg) (score cfg query rs)
      && negb (String.eqb (name a) "Browser Bing")
      && negb (forceMultiEngine cfg)).

(** The update of the best list by a non-empty result list. *)
Definition track (cfg : Config) (query : string) (a : Approach)
    (rs : list SearchResult) (best : Best) : Best :=
  if Qlt_bool (bestQuality best) (score cfg query rs)
  then {| bestResults := rs; bestEngine := name a; bestQuality := score cfg query rs |}
  else best.

(** What the attempt of a backend is in one search. *)
Definition attempt (query : string) (numResults : nat) (timeout : Q) (a : Approach)
    : Attempt :=
  method a query numResults (Qmin (timeout / 3) 5000).

(** A backend the loop passes over: it throws, finds nothing, or finds a
    list that is not returned at once. *)
Definition passedOver (cfg : Config) (query : string) (numResults : nat) (timeout : Q)
    (a : Approach) : Prop :=
  match attempt query numResults timeout a with
  | Throws => True
  | Returns [] => True
  | Returns rs => returnsAtOnce cfg query a rs = false
  end.

(** [bestResults], [bestEngine], [bestQuality] after the loop has gone
    through [apps] without returning. *)
Definition tracked (cfg : Config) (query : string) (numResults : nat) (timeout : Q)
    (apps : list Approach) (best : Best) : Best :=
  fold_left
    (fun b a =>
       match attempt query numResults timeout a with
       | Returns (r :: rs) => track cfg query a (r :: rs) b
       | _ => b
       end)
    apps best.

(** What the loop returns when its last backend is passed over too. *)
Definition lastVerdict (cfg : Config) (lastAttempt : Attempt) (best : Best)
    : SearchResultWithMetadata :=
  match lastAttempt with
  | Returns (_ :: _) =>
      if Qle_bool (qualityThreshold cfg) (bestQuality best)
         || negb (enableQualityCheck cfg)
         || (0 <? List.length (bestResults best))%nat
      then {| results := bestResults best; engine := bestEngine best |}
      else {| results := []; engine := "None" |}
  | _ => {| results := []; engine := "None" |}
  end.

(** The result names a backend of the list and carries what that backend
    returned, or it is the empty list under the name "None". *)
Definition sound (query : string) (numResults : nat) (timeout : Q)
    (apps : list Approach) (rs : list SearchResult) (eng : string) : Prop :=
  (rs = [] /\ eng = "None")
  \/ (rs <> [] /\ exists a, In a apps /\ eng = name a
                          /\ attempt query numResults timeout a = Returns rs).

End SearchSpec.

(** ** The quality score, up to case *)

Module QualitySpec.
Import JsString Quality.

(** A result with its title and description in lower case. *)
Definition lowered (r : SearchResult) : SearchResult :=
  mkSearchResult (toLowerCase (title r)) (url r) (toLowerCase (description r))
    (fullContent r) (contentPreview r) (wordCount r) (timestamp r)
    (fetchStatus r) (errorMessage r).

End QualitySpec.

(** ** Content extraction: the two paths together *)

Module ExtractorSpec.
Import JsString EnhancedContentExtractor.

(** [maxContentLength] of [extractWithAxios] after the defaults. *)
Definition maxLengthOf (self : Extractor) (options : ContentExtractionOptions) : nat :=
  match optMaxContentLength options with Some n => n | None => maxContentLength self end.

(** The sites [shouldUseBrowser] takes for heavy in scripts. *)
Definition jsHeavy (url : string) : bool :=
  includes url "twitter.com" || includes url "facebook.com"
  || includes url "instagram.com" || includes url "linkedin.com"
  || includes url "reddit.com" || includes url "medium.com".

(** The errors [shouldUseBrowser] can read all it asks for: every thrown
    value but [null] and [undefined], and but an error of the HTTP client
    whose response body is there and has no method [includes]. *)
Definition inspectable (e : Thrown) : bool :=
  match e with
  | Nullish => false
  | AxiosError _ _ Opaque _ => false
  | _ => true
  end.

(** [extractContent] once the lightweight path is known to fail with an
    error that calls for the browser. *)
Definition viaBrowser (deps : Deps) (self : Extractor) (world : World)
    (options : ContentExtractionOptions) : Outcome string :=
  match extractWithBrowser deps self world options with
  | Resolved content => Resolved content
  | Rejected _ =>
      Rejected (PlainError ("Both axios and browser extraction failed for " ++ optUrl options))
  end.

(** The words that make a text count as low in quality. *)
Definition botMarkers : list string :=
  [ "Please enable JavaScript"; "Access Denied"; "403 Forbidden"; "captcha";
    "unusual traffic"; "robot" ].

End ExtractorSpec.

(** ** Browser sessions, call by call *)

Module Session.
Import JsString Parsers.

(** The selectors the sessions wait for: ['.react-results--main'],
    ['#links'], ['[data-type=web]'], ['.b_algo, .b_result'] and the list of
    content selectors of the extractor. *)
Inductive Selector := ReactResultsMain | LinksLegacy | DataTypeWeb | BingAlgo | MainContent.

(** The awaited calls of a session, in the words of the sources. *)
Inductive Call :=
  | GetContext
  | NewPage
  | Route
  | Goto (url : string) (timeout : Q)
  | WaitForSelector (selector : Selector) (timeout : Z)
  | Title
  | Content
  | ImportFs
  | WriteFile (name : string)
  | MouseMove
  | Evaluate
  | WaitForTimeout
  | Close
  | AxiosGet (url : string) (timeout : Q).

(** The method a call invokes. *)
Definition method (c : Call) : nat :=
  match c with
  | GetContext => 0 | NewPage => 1 | Route => 2 | Goto _ _ => 3
  | WaitForSelector _ _ => 4 | Title => 5 | Content => 6 | ImportFs => 7
  | WriteFile _ => 8 | MouseMove => 9 | Evaluate => 10 | WaitForTimeout => 11
  | Close => 12 | AxiosGet _ _ => 13
  end%nat.

(** An awaited promise resolves with a value (the markup, the title; the
    empty string stands for [undefined]) or rejects. *)
Inductive Answer := Resolves (value : string) | Rejects.

(** The outside world of a session: the answer to the [n]-th call of a
    method ([n] counts from 0). *)
Definition Oracle := Call -> nat -> Answer.

(** What a session throws: the rejection of one of its calls, or an error
    it makes itself. *)
Inductive Thrown := Failure (c : Call) | Fresh (message : string).

(** A session is a computation over the trace of the calls made so far
    that ends in a value or in a thrown error. *)
Definition M (A : Type) : Type := list Call -> list Call * (A + Thrown).

Definition ret {A} (a : A) : M A := fun h => (h, inl a).

Definition throw {A} (e : Thrown) : M A := fun h => (h, inr e).

Definition bind {A B} (m : M A) (k : A -> M B) : M B :=
  fun h =>
    match m h with
    | (h', inl a) => k a h'
    | (h', inr e) => (h', inr e)
    end.

(** [try { m } catch (e) { handler e }] *)
Definition tryCatch {A} (m : M A) (handler : Thrown -> M A) : M A :=
  fun h =>
    match m h with
    | (h', inl a) => (h', inl a)
    | (h', inr e) => handler e h'
    end.

(** How often the method of [c] was called in [h]. *)
Definition occurrences (h : list Call) (c : Call) : nat :=
  List.length (List.filter (fun c' => (method c' =? method c)%nat) h).

(** [await c] *)
Definition await (oracle : Oracle) (c : Call) : M string :=
  fun h =>
    (h ++ [c],
     match oracle c (occurrences h c) with
     | Resolves v => inl v
     | Rejects => inr (Failure c)
     end).

Notation "'let*' x := m 'in' k" := (bind m (fun x => k))
  (at level 10, x name, m at level 100, k at level 200).

(** What the HTML parser selects on a page, per parser, and what the
    platform provides. *)
Record Platform := {
  encodeURIComponent : string -> string;
  generateTimestamp : string;
  uddg : string -> option string;
  loadDdgBrowser : string -> DdgBrowserPage;
  loadBing : string -> BingPage;
  loadBrave : string -> BravePage;
  loadDdgHtml : string -> DdgHtmlPage;
  parseContent : string -> string;
}.

Section Sessions.
Variable platform : Platform.
Variable oracle : Oracle.

(** [try { await context.close(); } catch { }] followed by [throw error] *)
Definition closeAndRethrow {A} (error : Thrown) : M A :=
  let* _ := tryCatch (await oracle Close) (fun _ => ret "") in
  throw error.

Definition tryBrowserDuckDuckGoSearch (query : string) (numResults : nat) (timeout : Q)
    : M (list SearchResult) :=
  let* _ := await oracle GetContext in
  tryCatch
    (let* _ := await oracle NewPage in
     let searchUrl :=
       ("https://duckduckgo.com/?q=" ++ encodeURIComponent platform query
        ++ "&t=h_&ia=web")%string in
     let* _ := await oracle (Goto searchUrl timeout) in
     let* _ :=
       tryCatch (await oracle (WaitForSelector ReactResultsMain 3000))
         (fun _ =>
            tryCatch (await oracle (WaitForSelector LinksLegacy 2000))
              (fun _ => ret "")) in
     let* html := await oracle Content in
     let results :=
       parseDuckDuckGoBrowserResults (generateTimestamp platform)
         (loadDdgBrowser platform html) numResults in
     let* _ := await oracle Close in
     ret results)
    closeAndRethrow.

Definition tryBrowserBraveSearch (query : string) (numResults : nat) (timeout : Q)
    : M (list SearchResult) :=
  let* _ := await oracle GetContext in
  tryCatch
    (let* _ := await oracle NewPage in
     let searchUrl :=
       ("https://search.brave.com/search?q=" ++ encodeURIComponent platform query
        ++ "&source=web")%string in
     let* _ := await oracle (Goto searchUrl timeout) in
     let* _ := tryCatch (await oracle (WaitForSelector DataTypeWeb 3000)) (fun _ => ret "") in
     let* html := await oracle Content in
     let results :=
       parseBraveResults (generateTimestamp platform) (loadBrave platform html) numResults in
     let* _ := await oracle Close in
     ret results)
    closeAndRethrow.

Definition tryBrowserBingSearch (query : string) (numResults : nat) (timeout : Q)
    : M (list SearchResult) :=
  let* _ := await oracle GetContext in
  tryCatch
    (let* _ := await oracle NewPage in
     let searchUrl :=
       ("https://www.bing.com/search?q=" ++ encodeURIComponent platform query
        ++ "&count=" ++ ofZ (Z.of_nat (Nat.min numResults 10)))%string in
     let* _ := await oracle (Goto searchUrl timeout) in
     let* _ :=
       tryCatch (await oracle (WaitForSelector BingAlgo 3000))
         (fun _ =>
            let* _ := await oracle Title in
            tryCatch
              (let* _ := await oracle ImportFs in
               let* dump := await oracle Content in
               await oracle (WriteFile "bing-error.html"))
              (fun _ => ret "")) in
     let* html := await oracle Content in
     let results :=
       parseBingResults (generateTimestamp platform) (loadBing platform html) numResults in
     let* _ := await oracle Close in
     ret results)
    closeAndRethrow.

Definition tryDuckDuckGoSearch (query : string) (numResults : nat) (timeout : Q)
    : M (list SearchResult) :=
  tryCatch
    (let* data := await oracle (AxiosGet "https://html.duckduckgo.com/html/" timeout) in
     ret (parseDuckDuckGoResults (uddg platform) (generateTimestamp platform)
            (loadDdgHtml platform data) numResults))
    (fun _ => throw (Fresh "DuckDuckGo search failed")).

Definition simulateHumanBehavior : M string :=
  tryCatch
    (let* _ := await oracle MouseMove in
     let* _ := await oracle Evaluate in
     await oracle WaitForTimeout)
    (fun _ => ret "").

Definition extractWithBrowser (url : string) (timeout : Q) : M string :=
  let* _ := await oracle GetContext in
  tryCatch
    (let* _ := await oracle NewPage in
     let* _ := await oracle Route in
     let* _ := tryCatch (await oracle (Goto url timeout)) (fun gotoError => throw gotoError) in
     let* _ := simulateHumanBehavior in
     let* _ := tryCatch (await oracle (WaitForSelector MainContent 5000)) (fun _ => ret "") in
     let* html := await oracle Content in
     let content := parseContent platform html in
     let* _ := await oracle Close in
     ret content)
    closeAndRethrow.

End Sessions.

(** A session started with no call made. *)
Definition run {A} (m : M A) : list Call * (A + Thrown) := m [].

(** The first of [calls] that is rejected; a call comes with the number
    of earlier calls of its method. *)
Fixpoint firstRejected (oracle : Oracle) (calls : list (Call * nat)) : option Call :=
  match calls with
  | [] => None
  | (c, n) :: calls' =>
      match oracle c n with
      | Rejects => Some c
      | Resolves _ => firstRejected oracle calls'
      end
  end.

(** The value of the [n]-th answer to [c]. *)
Definition valueOf (oracle : Oracle) (c : Call) (n : nat) : string :=
  match oracle c n with Resolves v => v | Rejects => "" end.

(** The outcome of a session that stands and falls with [calls] and
    returns [value] when all of them resolve. *)
Definition standsOn {A} (oracle : Oracle) (calls : list (Call * nat)) (value : A)
    : A + Thrown :=
  match firstRejected oracle calls with
  | Some c => inr (Failure c)
  | None => inl value
  end.

(** The urls the search sessions navigate to. *)
Definition ddgUrl (platform : Platform) (query : string) : string :=
  "https://duckduckgo.com/?q=" ++ encodeURIComponent platform query ++ "&t=h_&ia=web".

Definition braveUrl (platform : Platform) (query : string) : string :=
  "https://search.brave.com/search?q=" ++ encodeURIComponent platform query ++ "&source=web".

Definition bingUrl (platform : Platform) (query : string) (count : nat) : string :=
  "https://www.bing.com/search?q=" ++ encodeURIComponent platform query
  ++ "&count=" ++ ofZ (Z.of_nat count).

(** What the Bing session comes to for a page: after a selector that did
    not show up it stands on the title as well, and on the second reading of
    the markup when the dump got as far as the first. *)
Definition bingOutcome {A} (oracle : Oracle) (url : string) (timeout : Q)
    (value : string -> A) : A + Thrown :=
  match oracle (WaitForSelector BingAlgo 3000) 0%nat with
  | Resolves _ =>
      standsOn oracle
        [(GetContext, 0); (NewPage, 0); (Goto url timeout, 0); (Content, 0); (Close, 0)]%nat
        (value (valueOf oracle Content 0))
  | Rejects =>
      let reading :=
        match oracle ImportFs 0%nat with Resolves _ => 1%nat | Rejects => 0%nat end in
      standsOn oracle
        [(GetContext, 0); (NewPage, 0); (Goto url timeout, 0); (Title, 0);
         (Content, reading); (Close, 0)]%nat
        (value (valueOf oracle Content reading))
  end.

(** The sessions seen from the fallback loop: an attempt that returns or
    throws, and the pages the backends obtain. *)
Definition toAttempt (r : list SearchResult + Thrown) : SearchEngine.Attempt :=
  match r with
  | inl results => SearchEngine.Returns results
  | inr _ => SearchEngine.Throws
  end.

Definition pageOf {A} (r : A + Thrown) : option A :=
  match r with inl page => Some page | inr _ => None end.

Definition depsOf (platform : Platform) (sanitizeQuery : string -> string)
    : SearchEngine.Deps :=
  {| SearchEngine.sanitizeQuery := sanitizeQuery;
     SearchEngine.generateTimestamp := generateTimestamp platform;
     SearchEngine.uddg := uddg platform |}.

Definition webOf (platform : Platform) (oracle : Oracle) : SearchEngine.Web :=
  {| SearchEngine.ddgBrowser := fun query timeout =>
       pageOf (standsOn oracle
                 [(GetContext, 0); (NewPage, 0); (Goto (ddgUrl platform query) timeout, 0);
                  (Content, 0); (Close, 0)]%nat
                 (loadDdgBrowser platform (valueOf oracle Content 0)));
     SearchEngine.bingBrowser := fun query count timeout =>
       pageOf (bingOutcome oracle (bingUrl platform query count) timeout (loadBing platform));
     SearchEngine.braveBrowser := fun query timeout =>
       pageOf (standsOn oracle
                 [(GetContext, 0); (NewPage, 0); (Goto (braveUrl platform query) timeout, 0);
                  (Content, 0); (Close, 0)]%nat
                 (loadBrave platform (valueOf oracle Content 0)));
     SearchEngine.ddgHtml := fun query timeout =>
       pageOf (standsOn oracle [(AxiosGet "https://html.duckduckgo.com/html/" timeout, 0%nat)]
                 (loadDdgHtml platform
                    (valueOf oracle (AxiosGet "https://html.duckduckgo.com/html/" timeout) 0))) |}.

Definition isClose (c : Call) : bool :=
  match c with Close => true | _ => false end.

(** The calls made after the first [context.close()]. *)
Fixpoint afterClose (trace : list Call) : list Call :=
  match trace with
  | [] => []
  | c :: trace' => if isClose c then trace' else afterClose trace'
  end.

(** A session leaves no context behind: when [getContext] rejects it made
    no other call; otherwise its last call is [context.close()], and after
    the first [close] it awaits nothing, or one more [close] when the first
    one rejected, whose error is then the one thrown. *)
Definition leavesNoContext {A} (oracle : Oracle) (r : list Call * (A + Thrown)) : Prop :=
  match oracle GetContext 0%nat with
  | Rejects => r = ([GetContext], inr (Failure GetContext))
  | Resolves _ =>
      List.head (fst r) = Some GetContext
      /\ List.last (fst r) GetContext = Close
      /\ (afterClose (fst r) = []
          \/ (afterClose (fst r) = [Close]
              /\ snd r = inr (Failure Close)
              /\ oracle Close 0%nat = Rejects))
  end.

End Session.

(** ** BraveApiRateLimiter: pacing, restarts and the status *)

Module BraveApiStatus.
Import BraveApiRateLimiter.

(** The object [getStatus] resolves to. *)
Record Status := {
  monthlyUsed : Z;
  monthlyLimit : Z;
  monthlyRemaining : Z;
  statusMonth : string;
  statusDaysUntilReset : Z;
}.

(** [getStatus]: the status ([None] stands for the TypeError of reading
    [count] of [null]) and the limiter after [init]. *)
Definition getStatus (l : Limiter) (f : File) (env : Env) : option Status * Limiter :=
  let l := init l f env in
  (match monthlyUsage l with
   | Some usage =>
       Some {| monthlyUsed := count usage;
               monthlyLimit := maxRequestsPerMonth l;
               monthlyRemaining := maxRequestsPerMonth l - count usage;
               statusMonth := month usage;
               statusDaysUntilReset := daysUntilReset env |}
   | None => None
   end, l).




End BraveApiStatus.

(** ** BraveApiRateLimiter: calls of [execute] that overlap *)

Module LimiterCalls.
Import BraveApiRateLimiter.

Section Calls.
Context {T E : Type}.

(** Where a call of [execute] stands: at one of its awaits, or settled.
    [Loading] is the [await] of [fs.readFile] in [loadUsage], entered with
    the month read before it; [Initialized] the [await this.init()] once
    [init] has nothing more to do; [Sleeping] the [await this.sleep];
    [Running] the [await fn()]; [Saving] the [await] of [fs.writeFile],
    entered with the text [JSON.stringify] made of the usage. *)
Inductive Stage :=
  | Loading (currentMonth : string)
  | Initialized
  | Sleeping (waitTime : Z)
  | Running
  | Saving (v : T) (usage : MonthlyUsage)
  | Returned (r : Result T E).

(** The one limiter object that all calls share, the usage file, the
    calls under way, and how often an operation has been invoked. *)
Record System := {
  shared : Limiter;
  usageFile : File;
  stages : gmap nat Stage;
  invoked : nat;
}.

(** What moves a call from one await to the next, with what it reads
    from the outside on the way: [execute] is called; the file is read;
    the call goes on after [init] (reading the clock, and once more when it
    need not wait); the sleep is over (reading the clock); the operation
    settles; the file is written, or the write fails. *)
Inductive Event :=
  | Enter (c : nat) (currentMonth : string)
  | Loaded (c : nat)
  | Resume (c : nat) (now nowAgain daysUntilReset : Z)
  | Wake (c : nat) (now : Z)
  | Settle (c : nat) (fn : Settled T E)
  | Saved (c : nat) (writeOk : bool).

Definition at_stage (c : nat) (stage : Stage) (s : System) : System :=
  {| shared := shared s; usageFile := usageFile s;
     stages := <[c := stage]> (stages s); invoked := invoked s |}.

(** The clock of [loadUsage], which reads the month only. *)
Definition inMonth (currentMonth : string) : Env :=
  {| currentMonth := currentMonth; daysUntilReset := 0; now := 0; nowAfterWait := 0;
     writeOk := true |}.

(** [this.lastRequestTime = Date.now()] and the call of [fn]. *)
Definition invoke (c : nat) (now : Z) (s : System) : System :=
  {| shared := {| lastRequestTime := now;
                  minIntervalMs := minIntervalMs (shared s);
                  maxRequestsPerMonth := maxRequestsPerMonth (shared s);
                  monthlyUsage := monthlyUsage (shared s);
                  initialized := initialized (shared s) |};
     usageFile := usageFile s;
     stages := <[c := Running]> (stages s);
     invoked := S (invoked s) |}.

(** One segment of [execute], from an await to the next; [None] when the
    call is not at the await the event ends. *)
Definition step (s : System) (ev : Event) : option System :=
  let l := shared s in
  match ev with
  | Enter c currentMonth =>
      match stages s !! c with
      | Some _ => None
      | None =>
          Some (at_stage c (if initialized l then Initialized else Loading currentMonth) s)
      end
  | Loaded c =>
      match stages s !! c with
      | Some (Loading currentMonth) =>
          Some {| shared := {| lastRequestTime := lastRequestTime l;
                               minIntervalMs := minIntervalMs l;
                               maxRequestsPerMonth := maxRequestsPerMonth l;
                               monthlyUsage :=
                                 Some (loadUsage (usageFile s) (inMonth currentMonth));
                               initialized := true |};
                  usageFile := usageFile s;
                  stages := <[c := Initialized]> (stages s);
                  invoked := invoked s |}
      | _ => None
      end
  | Resume c now nowAgain daysUntilReset =>
      match stages s !! c with
      | Some Initialized =>
          match monthlyUsage l with
          | None => Some (at_stage c (Returned TypeError) s)
          | Some usage =>
              if (maxRequestsPerMonth l <=? count usage)%Z then
                Some (at_stage c
                        (Returned (LimitReached (maxRequestsPerMonth l) daysUntilReset)) s)
              else
                let timeSinceLastRequest := (now - lastRequestTime l)%Z in
                if (timeSinceLastRequest <? minIntervalMs l)%Z
                then Some (at_stage c (Sleeping (minIntervalMs l - timeSinceLastRequest)) s)
                else Some (invoke c nowAgain s)
          end
      | _ => None
      end
  | Wake c now =>
      match stages s !! c with
      | Some (Sleeping _) => Some (invoke c now s)
      | _ => None
      end
  | Settle c fn =>
      match stages s !! c with
      | Some Running =>
          match fn with
          | Rejects e => Some (at_stage c (Returned (Failed e)) s)
          | Resolves v =>
              match monthlyUsage l with
              | None => Some (at_stage c (Returned TypeError) s)
              | Some usage =>
                  Some {| shared := withUsage l (lastRequestTime l) (bump usage);
                          usageFile := usageFile s;
                          stages := <[c := Saving v (bump usage)]> (stages s);
                          invoked := invoked s |}
              end
          end
      | _ => None
      end
  | Saved c writeOk =>
      match stages s !! c with
      | Some (Saving v usage) =>
          Some {| shared := l;
                  usageFile := if writeOk then Some usage else usageFile s;
                  stages := <[c := Returned (Ok v)]> (stages s);
                  invoked := invoked s |}
      | _ => None
      end
  end.

Fixpoint run (events : list Event) (s : System) : option System :=
  match events with
  | [] => Some s
  | ev :: rest =>
      match step s ev with
      | Some s' => run rest s'
      | None => None
      end
  end.

(** The segments of one call that no other call overlaps, on the clock
    and the outcomes of [env] and [fn]. *)
Definition alone (c : nat) (l : Limiter) (f : File) (env : Env) (fn : Settled T E)
    : list Event :=
  let l' := init l f env in
  Enter c (currentMonth env)
  :: (if initialized l then [] else [Loaded c])
  ++ Resume c (now env) (nowAfterWait env) (daysUntilReset env)
  :: match monthlyUsage l' with
     | None => []
     | Some usage =>
         if (maxRequestsPerMonth l' <=? count usage)%Z then []
         else
           (if (now env - lastRequestTime l' <? minIntervalMs l')%Z
            then [Wake c (nowAfterWait env)] else [])
           ++ Settle c fn
           :: match fn with
              | Resolves _ => [Saved c (writeOk env)]
              | Rejects _ => []
              end
     end.

(** How often a call that ended with [r] invoked its operation. *)
Definition invocationsOf (r : Result T E) : nat :=
  match r with Ok _ | Failed _ => 1 | _ => 0 end.

End Calls.

Arguments Stage : clear implicits.
Arguments System : clear implicits.
Arguments Event : clear implicits.

(** Two calls at the last free slot of October. Both enter before the
    usage is loaded; both find 1999 calls counted; the first invokes its
    operation at once, the second after the second it has to wait; both
    operations resolve, and both calls count and write. *)
Definition lastSlot : System nat string :=
  {| shared := Scenarios.limiter0; usageFile := Scenarios.usageFile0;
     stages := ∅; invoked := 0 |}.

Definition twoCalls : list (Event nat string) :=
  [ Enter 0 "2026-10"; Enter 1 "2026-10"; Loaded 0; Loaded 1;
    Resume 0 1760000000000 1760000000000 12;
    Resume 1 1760000000000 1760000000000 12;
    Settle 0 (Resolves 7%nat);
    Wake 1 1760000001000;
    Settle 1 (Resolves 8%nat);
    Saved 0 true; Saved 1 true ].

(** The clock one second later. *)
Definition octoberNext : Env :=
  {| currentMonth := "2026-10"; daysUntilReset := 12;
     now := 1760000001000; nowAfterWait := 1760000001000; writeOk := true |}.

End LimiterCalls.

(** ** BrowserPool: one caller at a time, overlapping callers, shutdown *)

Module PoolUse.
Import BrowserPool.

(** What happens to a pool that is used by one caller at a time: a call of
    [getContext], with the outcomes of the close and of the launch it may
    need, or a browser that disconnects. *)
Inductive Use := GetContext (closeOk launchOk : bool) | Drop (b : nat).

(** The uses one after the other, the calls named [c], [c+1], ... *)
Fixpoint useAll (uses : list Use) (c : nat) (s : System) : option System :=
  match uses with
  | [] => Some s
  | GetContext closeOk launchOk :: uses' =>
      match getContext closeOk launchOk c s with
      | Some s' => useAll uses' (S c) s'
      | None => None
      end
  | Drop b :: uses' =>
      match exec (Disconnect b) s with
      | Some s' => useAll uses' c s'
      | None => None
      end
  end.

(** A pool between two calls that do not overlap: no launch is marked, the
    counter is within the threshold, and the calls from [c] on have not
    started. *)
Record Quiet (c : nat) (s : System) : Prop := {
  quiet_marker : browserLaunchPromise (pool s) = None;
  quiet_count : (contextCount (pool s) <= MAX_CONTEXTS_PER_BROWSER)%nat;
  quiet_calls : forall d, (c <= d)%nat -> calls s !! d = None;
}.

(** [closeAll], not overlapped by another call; [closeOk] tells whether
    [browser.close()] went through. *)
Definition closeAll (closeOk : bool) (s : System) : System :=
  match browser (pool s) with
  | Some b =>
      {| pool := {| browser := None;
                    browserLaunchPromise := browserLaunchPromise (pool s);
                    contextCount := contextCount (pool s) |};
         launches := launches s; launchCount := launchCount s; calls := calls s;
         connected := if closeOk then connected s ∖ {[b]} else connected s;
         closing := closing s ++ [b];
         nextBrowser := nextBrowser s |}
  | None => s
  end.

(** Calls that overlap: the calls [a], ..., [a+n-1] of [getContext] all
    obtain their browser before any of them counts its context. *)
Definition overlapping (a n : nat) : list Event :=
  List.map Enter (seq a n) ++ List.map Issue (seq a n).

End PoolUse.

(** ** GarbageCollector: reading the process table, signalling, the timer *)

Module Reaper.
Import JsString Chars GarbageCollector.

(** The class [\d]. *)
Definition isDigit (c : ascii) : bool :=
  let n := nat_of_ascii c in (48 <=? n)%nat && (n <=? 57)%nat.

(** The line terminators, which [.] does not match. *)
Definition isLineTerminator (c : ascii) : bool :=
  let n := nat_of_ascii c in (n =? 10)%nat || (n =? 13)%nat.

(** The longest prefix of [s] whose characters satisfy [p], and the rest:
    what a greedy [p+] or [p*] takes from the start of [s]. *)
Fixpoint span (p : ascii -> bool) (s : string) : string * string :=
  match s with
  | EmptyString => (EmptyString, EmptyString)
  | String c s' =>
      if p c then let (taken, rest) := span p s' in (String c taken, rest)
      else (EmptyString, s)
  end.

(** The value of a string of decimal digits, read from the left on top of
    [acc]. Process ids and ages are far below 2^53, where the numbers of
    the source are exact. *)
Fixpoint digitsValue (acc : Z) (digits : string) : Z :=
  match digits with
  | EmptyString => acc
  | String c digits' => digitsValue (10 * acc + (Z.of_nat (nat_of_ascii c) - 48)) digits'
  end.

(** [parseInt(s, 10)]: white space is skipped, a sign is read, then the
    longest run of digits; [None] stands for [NaN]. *)
Definition parseInt (s : string) : option Z :=
  let s := trimStart s in
  let (negative, s) :=
    match s with
    | String "-" s' => (true, s')
    | String "+" s' => (false, s')
    | _ => (false, s)
    end in
  let (digits, _) := span isDigit s in
  if truthy digits then
    Some (if negative then (- digitsValue 0 digits)%Z else digitsValue 0 digits)
  else None.

(** The match of the trimmed line against the pattern of a row: a run of
    digits, white space, a run of digits, white space, and the rest of the
    line, which must hold no line terminator; the result is the three
    groups. Every quantifier is greedy, and giving back a character never
    helps: a digit is no white space, and the last group stops at a line
    terminator wherever it starts. *)
Definition matchRow (line : string) : option (string * string * string) :=
  let (pidDigits, rest1) := span isDigit (trim line) in
  let (gap1, rest2) := span isSpace rest1 in
  let (etimeDigits, rest3) := span isDigit rest2 in
  let (gap2, cmd) := span isSpace rest3 in
  if truthy pidDigits && truthy gap1 && truthy etimeDigits && truthy gap2
     && allChars (fun c => negb (isLineTerminator c)) cmd
  then Some (pidDigits, etimeDigits, cmd)
  else None.

(** [s.split('\n')]; [cur] is the piece being read. *)
Fixpoint splitLines (cur : string) (s : string) : list string :=
  match s with
  | EmptyString => [cur]
  | String c s' =>
      if Ascii.eqb c "010" then cur :: splitLines EmptyString s'
      else splitLines (cur ++ String c EmptyString) s'
  end.

(** The body of the [for] loop over the lines. *)
Definition parseLine (line : string) : list ProcessInfo :=
  match matchRow line with
  | Some (pidDigits, etimeDigits, command) =>
      match parseInt pidDigits, parseInt etimeDigits with
      | Some p, Some e => [ {| pid := p; etime := e; cmd := command |} ]
      | _, _ => []
      end
  | None => []
  end.

(** [findChromeProcesses] on what the [ps] pipeline printed; [None] when
    the command failed. *)
Definition findChromeProcesses (stdout : option string) : list ProcessInfo :=
  match stdout with
  | None => []
  | Some out =>
      if negb (truthy (trim out)) then []
      else List.concat (List.map parseLine (splitLines EmptyString (trim out)))
  end.

(** The signals of [process.kill]: ['SIGTERM'], [0] (a probe) and
    ['SIGKILL']. *)
Inductive Signal := SIGTERM | Probe | SIGKILL.

(** [process.kill] returns, or throws an error with a [code]. *)
Inductive KillAnswer := Delivered | Raises (code : string).

(** The system the signals go to. *)
Definition Kernel := Z -> Signal -> KillAnswer.

(** What [killProcess] did: the calls of [process.kill] in order, and
    whether it logged a failure. It never throws. *)
Record Killing := { sent : list (Z * Signal); logged : bool }.

Definition killProcess (kernel : Kernel) (p : Z) : Killing :=
  match kernel p SIGTERM with
  | Raises code =>
      {| sent := [(p, SIGTERM)]; logged := negb (String.eqb code "ESRCH") |}
  | Delivered =>
      match kernel p Probe with
      | Raises _ => {| sent := [(p, SIGTERM); (p, Probe)]; logged := false |}
      | Delivered => {| sent := [(p, SIGTERM); (p, Probe); (p, SIGKILL)]; logged := false |}
      end
  end.

(** A sweep from the output of [ps] to the signals sent. *)
Definition sweepSignals (kernel : Kernel) (config : GCConfig) (myPid : Z)
    (stdout : option string) : list (Z * Signal) :=
  List.concat
    (List.map (fun p => sent (killProcess kernel p))
       (terminated (runGC config myPid (findChromeProcesses stdout)))).

(** [killAllPlaywrightChromes] on what [pgrep] printed: the pids handed to
    [killProcess]; the value returned is their number. *)
Definition killAllPlaywrightChromes (myPid : Z) (stdout : option string) : list Z :=
  match stdout with
  | None => []
  | Some out =>
      if negb (truthy (trim out)) then []
      else
        List.filter (fun p => negb (p =? myPid)%Z)
          (List.concat
             (List.map (fun line => match parseInt line with Some p => [p] | None => [] end)
                (splitLines EmptyString (trim out))))
  end.

(** The head of [s], if any, does not satisfy [p]: a greedy [p*] stops
    in front of [s]. *)
Definition stopsAt (p : ascii -> bool) (s : string) : Prop :=
  match s with
  | EmptyString => True
  | String c _ => p c = false
  end.

(** A command line as [ps] prints it in the last column of a row: not
    empty, no white space at its ends, no line terminator inside. *)
Definition tidy (command : string) : Prop :=
  truthy command = true
  /\ trim command = command
  /\ allChars (fun c => negb (isLineTerminator c)) command = true.

End Reaper.

(** ** GarbageCollector: the timer and the instance of the module *)

Module Collector.
Import GarbageCollector.

(** [Partial<GCConfig>]: the fields a caller passes. *)
Record PartialConfig := {
  givenIntervalMs : option Z;
  givenMaxProcessAgeMs : option Z;
  givenVerbose : option bool;
}.

(** The constructor's [{ ...DEFAULT_CONFIG, ...config }]; [gcVerbose] tells
    whether [GC_VERBOSE] was ['true'] when the module was loaded, and an
    absent [config] is the empty object. *)
Definition construct (gcVerbose : bool) (config : option PartialConfig) : GCConfig :=
  let defaults := DEFAULT_CONFIG gcVerbose in
  match config with
  | None => defaults
  | Some given =>
      {| intervalMs := default (intervalMs defaults) (givenIntervalMs given);
         maxProcessAgeMs := default (maxProcessAgeMs defaults) (givenMaxProcessAgeMs given);
         verbose := default (verbose defaults) (givenVerbose given) |}
  end.

(** A collector: its configuration and the handle of its timer. *)
Record Instance := { config : GCConfig; intervalHandle : option nat }.

(** The module and its runtime: the instance [globalGC], the timers that
    are set (handle and period), the handle the next timer gets, and the
    number of sweeps [start] has run at once. *)
Record Runtime := {
  globalGC : option Instance;
  timers : list (nat * Z);
  nextHandle : nat;
  sweepsAtStart : nat;
}.

Definition loaded : Runtime :=
  {| globalGC := None; timers := []; nextHandle := 0; sweepsAtStart := 0 |}.

(** [gc.start()] on the instance of the module. *)
Definition start (r : Runtime) : Runtime :=
  match globalGC r with
  | None => r
  | Some gc =>
      match intervalHandle gc with
      | Some _ => r
      | None =>
          let handle := nextHandle r in
          {| globalGC := Some {| config := config gc; intervalHandle := Some handle |};
             timers := timers r ++ [(handle, intervalMs (config gc))];
             nextHandle := S handle;
             sweepsAtStart := S (sweepsAtStart r) |}
      end
  end.

(** [gc.stop()] on the instance of the module. *)
Definition stop (r : Runtime) : Runtime :=
  match globalGC r with
  | None => r
  | Some gc =>
      match intervalHandle gc with
      | Some handle =>
          {| globalGC := Some {| config := config gc; intervalHandle := None |};
             timers := List.filter (fun timer => negb (fst timer =? handle)%nat) (timers r);
             nextHandle := nextHandle r;
             sweepsAtStart := sweepsAtStart r |}
      | None => r
      end
  end.

Definition getGarbageCollector (gcVerbose : bool) (config : option PartialConfig)
    (r : Runtime) : Runtime :=
  match globalGC r with
  | Some _ => r
  | None =>
      {| globalGC := Some {| config := construct gcVerbose config; intervalHandle := None |};
         timers := timers r; nextHandle := nextHandle r;
         sweepsAtStart := sweepsAtStart r |}
  end.

Definition startGarbageCollector (gcVerbose : bool) (config : option PartialConfig)
    (r : Runtime) : Runtime :=
  start (getGarbageCollector gcVerbose config r).

(** What the rest of the program does with the module. *)
Inductive Op :=
  | GetGarbageCollector (config : option PartialConfig)
  | StartGarbageCollector (config : option PartialConfig)
  | Start
  | Stop.

Definition step (gcVerbose : bool) (r : Runtime) (op : Op) : Runtime :=
  match op with
  | GetGarbageCollector config => getGarbageCollector gcVerbose config r
  | StartGarbageCollector config => startGarbageCollector gcVerbose config r
  | Start => start r
  | Stop => stop r
  end.

Definition run (gcVerbose : bool) (ops : list Op) (r : Runtime) : Runtime :=
  fold_left (step gcVerbose) ops r.

(** The configuration the first call that makes the instance passes. *)
Fixpoint firstConfig (ops : list Op) : option (option PartialConfig) :=
  match ops with
  | [] => None
  | GetGarbageCollector config :: _ => Some config
  | StartGarbageCollector config :: _ => Some config
  | _ :: ops' => firstConfig ops'
  end.

(** The timers are those of the instance: none, or the one whose handle
    the instance holds, with the period of its configuration. *)
Definition timersOf (r : Runtime) : list (nat * Z) :=
  match globalGC r with
  | Some gc =>
      match intervalHandle gc with
      | Some handle => [(handle, intervalMs (config gc))]
      | None => []
      end
  | None => []
  end.

End Collector.

(** ** Personas *)

Module Personas.
Import JsString.

Record Viewport := { width : Z; height : Z }.

Record Persona := {
  name : string;
  userAgent : string;
  viewport : Viewport;
  platform : string;
  locale : string;
  timezoneId : string;
  deviceScaleFactor : Z;
}.

Definition GOLDEN_PERSONAS : list Persona :=
  [ {| name := "Windows 10 Chrome 121";
       userAgent := "Mozilla/5.0 (Windows NT 10.0; Win64; x64) AppleWebKit/537.36 (KHTML, like Gecko) Chrome/121.0.0.0 Safari/537.36";
       viewport := {| width := 1920; height := 1080 |};
       platform := "Win32";
       locale := "en-US";
       timezoneId := "America/New_York";
       deviceScaleFactor := 1 |};
    {| name := "Mac OS Chrome 121";
       userAgent := "Mozilla/5.0 (Macintosh; Intel Mac OS X 10_15_7) AppleWebKit/537.36 (KHTML, like Gecko) Chrome/121.0.0.0 Safari/537.36";
       viewport := {| width := 1440; height := 900 |};
       platform := "MacIntel";
       locale := "en-US";
       timezoneId := "America/Los_Angeles";
       deviceScaleFactor := 2 |};
    {| name := "Windows 11 Chrome 122";
       userAgent := "Mozilla/5.0 (Windows NT 10.0; Win64; x64) AppleWebKit/537.36 (KHTML, like Gecko) Chrome/122.0.0.0 Safari/537.36";
       viewport := {| width := 1366; height := 768 |};
       platform := "Win32";
       locale := "en-GB";
       timezoneId := "Europe/London";
       deviceScaleFactor := 1 |};
    {| name := "Mac OS Chrome 122";
       userAgent := "Mozilla/5.0 (Macintosh; Intel Mac OS X 10_15_7) AppleWebKit/537.36 (KHTML, like Gecko) Chrome/122.0.0.0 Safari/537.36";
       viewport := {| width := 1536; height := 960 |};
       platform := "MacIntel";
       locale := "en-US";
       timezoneId := "America/Chicago";
       deviceScaleFactor := 2 |} ].

(** [getRandomPersona], with [random] the value of [Math.random()];
    [None] stands for [undefined], the value of an index outside the
    table. The product with the length of the table, a power of two, is
    exact in the numbers of the source. *)
Definition getRandomPersona (random : Q) : option Persona :=
  let index := Qfloor (random * inject_Z (Z.of_nat (List.length GOLDEN_PERSONAS))) in
  if (index <? 0)%Z then None else nth_error GOLDEN_PERSONAS (Z.to_nat index).

(** [hasTouch] of the context [getContext] makes for a persona. *)
Definition hasTouch (persona : Persona) : bool := (1 <? deviceScaleFactor persona)%Z.

(** The user agent names the system the platform stands for. *)
Definition coherent (persona : Persona) : bool :=
  (String.eqb (platform persona) "Win32" && includes (userAgent persona) "Windows NT"
   && negb (includes (userAgent persona) "Macintosh"))
  || (String.eqb (platform persona) "MacIntel" && includes (userAgent persona) "Macintosh"
      && negb (includes (userAgent persona) "Windows NT")).

End Personas.

(** ** Further concrete runs *)

Module Cases.
Import Parsers SearchEngine Scenarios.

(** The default configuration with [FORCE_MULTI_ENGINE_SEARCH] on. *)
Definition forcedConfig : Config :=
  {| enableQualityCheck := true; qualityThreshold := (3 # 10)%Q; forceMultiEngine := true |}.

(** The first backend answers with [mixedHits], Bing with [goodHits], Brave
    throws and the plain DuckDuckGo page has [poorHits]. *)
Definition webGoodThenPoor : Web :=
  {| ddgBrowser := fun _ _ => Some {| articles := mixedHits; legacyResults := [] |};
     bingBrowser := fun _ _ _ => Some {| b_algo := goodHits |};
     braveBrowser := fun _ _ => None;
     ddgHtml := fun _ _ => Some {| resultElements := poorHits |} |}.

(** A thread on a site that [shouldUseBrowser] takes for heavy in scripts. *)
Definition redditOptions : EnhancedContentExtractor.ContentExtractionOptions :=
  {| EnhancedContentExtractor.optUrl := "https://www.reddit.com/r/weather/london";
     EnhancedContentExtractor.optTimeout := None;
     EnhancedContentExtractor.optMaxContentLength := None |}.

(** The site answers the HTTP client with 404 and a plain text, and serves
    [longPage] to the browser. *)
Definition worldNotFound : EnhancedContentExtractor.World :=
  {| EnhancedContentExtractor.axiosGet := fun _ _ =>
       EnhancedContentExtractor.Rejected
         (EnhancedContentExtractor.AxiosError (Some "ERR_BAD_REQUEST") (Some 404%Z)
            (EnhancedContentExtractor.Text "Not Found")
            "Request failed with status code 404");
     EnhancedContentExtractor.browserPage := fun _ _ =>
       EnhancedContentExtractor.Resolved longPage;
     EnhancedContentExtractor.timerFirst := fun _ => false |}.

(** The same site answering 404 with a JSON object as the body. *)
Definition worldNotFoundJson : EnhancedContentExtractor.World :=
  {| EnhancedContentExtractor.axiosGet := fun _ _ =>
       EnhancedContentExtractor.Rejected
         (EnhancedContentExtractor.AxiosError (Some "ERR_BAD_REQUEST") (Some 404%Z)
            EnhancedContentExtractor.Opaque
            "Request failed with status code 404");
     EnhancedContentExtractor.browserPage := fun _ _ =>
       EnhancedContentExtractor.Resolved longPage;
     EnhancedContentExtractor.timerFirst := fun _ => false |}.






End Cases.

(** * Properties *)

(** ** Strings *)

Section StringFacts.
Import JsString.

Lemma append_String (c : ascii) (a b : string) :
  (String c a ++ b)%string = String c (a ++ b)%string.
Proof. reflexivity. Qed.

Lemma append_Empty (b : string) : ("" ++ b)%string = b.
Proof. reflexivity. Qed.

Lemma append_assoc (a b c : string) : ((a ++ b) ++ c)%string = (a ++ b ++ c)%string.
Proof.
  induction a as [|x a IH]; [reflexivity|].
  rewrite !append_String, IH. reflexivity.
Qed.

Lemma prefix_app (sub s : string) :
  String.prefix sub s = true <-> exists post, s = (sub ++ post)%string.
Proof.
  revert s. induction sub as [|c sub IH]; intros s.
  - destruct s; simpl; split; eauto.
  - destruct s as [|d s]; simpl.
    + split; [discriminate | intros [post H]; discriminate].
    + destruct (ascii_dec c d) as [->|Hne].
      * rewrite IH. split; intros [post H]; exists post;
          rewrite append_String in *; congruence.
      * split; [discriminate | intros [post H]; rewrite append_String in H; congruence].
Qed.

(** [includes] is the substring test. *)
Lemma includes_unfold (s sub : string) :
  includes s sub =
  if String.prefix sub s then true
  else match s with
       | EmptyString => false
       | String _ s' => includes s' sub
       end.
Proof. destruct s; reflexivity. Qed.

Lemma includes_spec (s sub : string) :
  includes s sub = true <-> exists pre post, s = (pre ++ sub ++ post)%string.
Proof.
  split.
  - induction s as [|c s IH]; rewrite includes_unfold;
      destruct (String.prefix sub _) eqn:Hp.
    + apply prefix_app in Hp as [post Hp]. intros _. exists "", post.
      rewrite append_Empty. exact Hp.
    + intros H; discriminate H.
    + apply prefix_app in Hp as [post Hp]. intros _. exists "", post.
      rewrite append_Empty. exact Hp.
    + intros H. destruct (IH H) as (pre & post & ->).
      exists (String c pre), post. rewrite append_String. reflexivity.
  - intros (pre & post & ->). induction pre as [|c pre IH].
    + rewrite append_Empty, includes_unfold.
      replace (String.prefix sub (sub ++ post)) with true; [reflexivity|].
      symmetry. apply prefix_app. eauto.
    + rewrite append_String, includes_unfold, IH.
      destruct (String.prefix sub _); reflexivity.
Qed.

Lemma length_substring0 (n : nat) (s : string) :
  (n <= String.length s)%nat -> String.length (substring0 n s) = n.
Proof.
  unfold substring0. revert s. induction n as [|n IH]; intros s Hn.
  - destruct s; reflexivity.
  - destruct s as [|c s]; simpl in *; [lia|]. rewrite IH; [done|lia].
Qed.

End StringFacts.

(** ** The quality score *)

Section QualityFacts.
Import JsString Quality.

Lemma matches_spec (words : list string) (r : SearchResult) :
  matches words r = true <->
  exists word, In word words /\
    (includes (toLowerCase (title r)) word = true
     \/ includes (toLowerCase (description r)) word = true).
Proof.
  unfold matches. rewrite existsb_exists.
  split; intros (w & Hin & H); exists w; split; auto.
  - apply orb_true_iff in H. exact H.
  - apply orb_true_iff. exact H.
Qed.

Lemma queryWords_spec (query word : string) :
  In word (queryWords query) <->
  In word (split_ws (toLowerCase query)) /\ (3 < String.length word)%nat.
Proof.
  unfold queryWords. rewrite List.filter_In, Nat.ltb_lt. tauto.
Qed.

Lemma matchCount_le (words : list string) (results : list SearchResult) :
  (matchCount words results <= List.length results)%nat.
Proof. unfold matchCount. apply List.filter_length_le. Qed.

Lemma Zpos_of_nat (n : nat) : n <> O -> Z.pos (Pos.of_nat n) = Z.of_nat n.
Proof. intros Hn. lia. Qed.

(** C6, as the source has it: the score lies in [0,1]; on the empty result
    list it is 0 whatever the query; on a non-empty list it is the number
    of results whose lower-cased title or description contains a query word
    of more than three characters, divided by the number of results, when
    the query has such a word, and 1 when it has none. *)
Theorem assessResultQuality_spec (results : list SearchResult) (query : string) :
  (0 <= assessResultQuality results query <= 1)%Q
  /\ (results = [] -> assessResultQuality results query = 0%Q)
  /\ (results <> [] -> queryWords query <> [] ->
      (assessResultQuality results query ==
       inject_Z (Z.of_nat (matchCount (queryWords query) results))
       / inject_Z (Z.of_nat (List.length results)))%Q)
  /\ (results <> [] -> queryWords query = [] ->
      assessResultQuality results query = 1%Q).
Proof.
  pose proof (matchCount_le (queryWords query) results) as Hle.
  destruct results as [|r rs].
  - simpl. repeat split; try done. 
  - unfold assessResultQuality.
    destruct (queryWords query) as [|w ws] eqn:Hw.
    + repeat split; try done.
    + set (n := List.length (r :: rs)) in *.
      set (m := matchCount (w :: ws) (r :: rs)) in *.
      assert (Hn : n <> O) by (subst n; simpl; lia).
      assert (Hq : (Z.of_nat m # Pos.of_nat n ==
                    inject_Z (Z.of_nat m) / inject_Z (Z.of_nat n))%Q).
      { rewrite (Qmake_Qdiv (Z.of_nat m) (Pos.of_nat n)).
        rewrite (Zpos_of_nat n Hn). reflexivity. }
      repeat split; try done.
      * unfold Qle; simpl. lia.
      * unfold Qle; simpl. rewrite (Zpos_of_nat n Hn). lia.
Qed.

(** C6 as stated fails on the empty result list: the query "hi" has no word
    of more than three characters, and the score of the empty list is 0,
    not 1. *)
Lemma assessResultQuality_empty_list :
  queryWords "hi" = []
  /\ assessResultQuality [] "hi" = 0%Q
  /\ ~ (assessResultQuality [] "hi" == 1)%Q.
Proof. repeat split; try reflexivity. intros H. discriminate H. Qed.

End QualityFacts.

(** ** The result parsers and the fallback loop *)

Section SearchFacts.
Import JsString Quality Parsers SearchEngine.

Lemma visit_length maxResults mk results el :
  (List.length results <= maxResults)%nat ->
  (List.length (visit maxResults mk results el) <= maxResults)%nat.
Proof.
  intros H. unfold visit.
  destruct (maxResults <=? List.length results)%nat eqn:Hfull; [exact H|].
  apply Nat.leb_gt in Hfull.
  destruct (href el) as [u|]; [|exact H].
  destruct (truthy (trim (titleText el)) && truthy u); [|exact H].
  rewrite List.length_app. simpl. lia.
Qed.

Lemma each_length maxResults mk els results :
  (List.length results <= maxResults)%nat ->
  (List.length (each maxResults mk els results) <= maxResults)%nat.
Proof.
  unfold each. revert results.
  induction els as [|el els IH]; intros results H; simpl; [exact H|].
  apply IH, visit_length, H.
Qed.

Lemma parseBraveResults_length timestamp page maxResults :
  (List.length (parseBraveResults timestamp page maxResults) <= maxResults)%nat.
Proof.
  unfold parseBraveResults.
  pose proof (each_length maxResults (fresh timestamp) (webSnippets page) []) as H.
  destruct (each maxResults (fresh timestamp) (webSnippets page) []) as [|r rs].
  - apply each_length. simpl. lia.
  - apply H. simpl. lia.
Qed.

Lemma parseBingResults_length timestamp page maxResults :
  (List.length (parseBingResults timestamp page maxResults) <= maxResults)%nat.
Proof. apply each_length. simpl. lia. Qed.

Lemma parseDuckDuckGoResults_length uddg timestamp page maxResults :
  (List.length (parseDuckDuckGoResults uddg timestamp page maxResults) <= maxResults)%nat.
Proof. apply each_length. simpl. lia. Qed.

Lemma parseDuckDuckGoBrowserResults_length timestamp page maxResults :
  (List.length (parseDuckDuckGoBrowserResults timestamp page maxResults) <= maxResults)%nat.
Proof.
  unfold parseDuckDuckGoBrowserResults.
  pose proof (each_length maxResults (fresh timestamp) (articles page) []) as H.
  destruct (each maxResults (fresh timestamp) (articles page) []) as [|r rs].
  - apply each_length. simpl. lia.
  - apply H. simpl. lia.
Qed.

(** Every backend of the priority list returns at most [numResults] results. *)
Lemma approaches_length deps web a query numResults timeout rs :
  In a (approaches deps web) ->
  method a query numResults timeout = Returns rs ->
  (List.length rs <= numResults)%nat.
Proof.
  unfold approaches. simpl.
  intros [<-|[<-|[<-|[<-|[]]]]]; simpl.
  - unfold tryBrowserDuckDuckGoSearch. destruct (ddgBrowser _ _ _); [|discriminate].
    intros [= <-]. apply parseDuckDuckGoBrowserResults_length.
  - unfold tryBrowserBingSearch. destruct (bingBrowser _ _ _ _); [|discriminate].
    intros [= <-]. apply parseBingResults_length.
  - unfold tryBrowserBraveSearch. destruct (braveBrowser _ _ _); [|discriminate].
    intros [= <-]. apply parseBraveResults_length.
  - unfold tryDuckDuckGoSearch. destruct (ddgHtml _ _ _); [|discriminate].
    intros [= <-]. apply parseDuckDuckGoResults_length.
Qed.

(** What an iteration returns is the attempt's list or the best list, and
    the best list it goes on with is the attempt's list or the former best. *)
Lemma iteration_results (P : list SearchResult -> Prop) cfg query len i a rs best :
  P rs -> P (bestResults best) ->
  match iteration cfg query len i a rs best with
  | Return r => P (results r)
  | Continue best' => P (bestResults best')
  end.
Proof.
  intros Hrs Hbest. unfold iteration.
  set (q := if enableQualityCheck cfg then _ else _).
  set (best' := if Qlt_bool (bestQuality best) q then _ else best).
  assert (Hb' : P (bestResults best')).
  { subst best'. destruct (Qlt_bool (bestQuality best) q); [exact Hrs|exact Hbest]. }
  repeat match goal with
         | |- context [if ?b then _ else _] => destruct b; simpl; try assumption
         end.
Qed.

(** Any property of the empty list, of the initial best list and of every
    list a backend returns holds of the list the loop returns. *)
Lemma fallback_results (P : list SearchResult -> Prop) cfg query numResults timeout len :
  P [] ->
  forall rest i best,
    P (bestResults best) ->
    (forall a rs, In a rest ->
       method a query numResults (Qmin (timeout / 3) 5000) = Returns rs -> P rs) ->
    P (results (fallback cfg query numResults timeout len i rest best)).
Proof.
  intros Hnil rest.
  induction rest as [|a rest IH]; intros i best Hbest Hall; simpl; [exact Hnil|].
  destruct (method a query numResults _) as [|rs] eqn:Hm.
  - apply IH; [exact Hbest|]. intros b rs' Hin. apply Hall. now right.
  - assert (Hrs : P rs) by (apply (Hall a rs); [now left|exact Hm]).
    destruct (0 <? List.length rs)%nat.
    + pose proof (iteration_results P cfg query len i a rs best Hrs Hbest) as Hit.
      destruct (iteration cfg query len i a rs best) as [r|best']; [exact Hit|].
      apply IH; [exact Hit|]. intros b rs' Hin. apply Hall. now right.
    + apply IH; [exact Hbest|]. intros b rs' Hin. apply Hall. now right.
Qed.

(** C10: whatever the pages, the configuration and the query, [search]
    returns at most [numResults] results: every parser stops pushing once
    [numResults] results are collected, and [search] returns the list of one
    backend or the empty list. *)
Theorem search_length_le deps cfg web query numResults timeout :
  (List.length (results (search deps cfg web query numResults timeout)) <= numResults)%nat.
Proof.
  unfold search, rateLimiter_execute, searchWith.
  apply (fallback_results (fun rs => (List.length rs <= numResults)%nat)).
  - simpl. lia.
  - simpl. lia.
  - intros a rs Hin Hm. eapply approaches_length; eauto.
Qed.

(** When every attempt throws or returns the empty list the loop ends in
    the empty sentinel. *)
Lemma fallback_all_fail cfg query numResults timeout len rest :
  (forall a, In a rest ->
     method a query numResults (Qmin (timeout / 3) 5000) = Throws
     \/ method a query numResults (Qmin (timeout / 3) 5000) = Returns []) ->
  forall i best,
    fallback cfg query numResults timeout len i rest best
    = {| results := []; engine := "None" |}.
Proof.
  induction rest as [|a rest IH]; intros Hall i best; simpl; [reflexivity|].
  destruct (Hall a (or_introl eq_refl)) as [-> | ->]; simpl;
    apply IH; intros b Hin; apply Hall; now right.
Qed.

(** With forcing off, a list whose quality reaches the threshold is
    returned at once by every backend whose name is not "Browser Bing". *)
Lemma iteration_acceptable cfg query len i a rs best :
  forceMultiEngine cfg = false ->
  String.eqb (name a) "Browser Bing" = false ->
  Qle_bool (qualityThreshold cfg)
    (if enableQualityCheck cfg then assessResultQuality rs query else 1%Q) = true ->
  iteration cfg query len i a rs best = Return {| results := rs; engine := name a |}.
Proof.
  intros Hf Hn Hq. unfold iteration. rewrite Hf, Hn, Hq. simpl.
  destruct (Qle_bool (8 # 10) _); reflexivity.
Qed.

(** The backend named "Browser Bing" is held back below 0.8 unless it is
    the last one. *)
Lemma iteration_bing_held cfg query len i a rs best :
  String.eqb (name a) "Browser Bing" = true ->
  Qle_bool (8 # 10)
    (if enableQualityCheck cfg then assessResultQuality rs query else 1%Q) = false ->
  (i =? len - 1)%nat = false ->
  exists best', iteration cfg query len i a rs best = Continue best'.
Proof.
  intros Hn Hq Hi. unfold iteration. rewrite Hn, Hq, Hi. simpl.
  destruct (Qle_bool (qualityThreshold cfg) _); simpl; eauto.
Qed.

(** The first backend of the priority list is "Browser DuckDuckGo": with
    forcing off, whatever it finds with a quality at the threshold or above
    is the value of [search]. *)
Lemma search_first_backend deps cfg web query numResults timeout page :
  ddgBrowser web (sanitizeQuery deps query) (Qmin (timeout / 3) 5000) = Some page ->
  parseDuckDuckGoBrowserResults (generateTimestamp deps) page numResults <> [] ->
  forceMultiEngine cfg = false ->
  Qle_bool (qualityThreshold cfg)
    (if enableQualityCheck cfg
     then assessResultQuality
            (parseDuckDuckGoBrowserResults (generateTimestamp deps) page numResults)
            (sanitizeQuery deps query)
     else 1%Q) = true ->
  search deps cfg web query numResults timeout
  = {| results := parseDuckDuckGoBrowserResults (generateTimestamp deps) page numResults;
       engine := "Browser DuckDuckGo" |}.
Proof.
  intros Hpage Hne Hf Hq.
  unfold search, rateLimiter_execute, searchWith, approaches.
  cbn [fallback method]. unfold tryBrowserDuckDuckGoSearch at 1. rewrite Hpage.
  destruct (parseDuckDuckGoBrowserResults _ page numResults) as [|r rs] eqn:Hrs;
    [contradiction|].
  cbn [List.length Nat.ltb Nat.leb].
  rewrite iteration_acceptable; [reflexivity|exact Hf|reflexivity|exact Hq].
Qed.

(** Whatever Bing finds below 0.8 is lost when it is the only backend that
    answers: the value of [search] is the empty sentinel. *)
Lemma search_sentinel_despite_bing deps cfg web query numResults timeout page :
  ddgBrowser web (sanitizeQuery deps query) (Qmin (timeout / 3) 5000) = None ->
  bingBrowser web (sanitizeQuery deps query) (Nat.min numResults 10)
    (Qmin (timeout / 3) 5000) = Some page ->
  braveBrowser web (sanitizeQuery deps query) (Qmin (timeout / 3) 5000) = None ->
  ddgHtml web (sanitizeQuery deps query) (Qmin (timeout / 3) 5000) = None ->
  Qle_bool (8 # 10)
    (if enableQualityCheck cfg
     then assessResultQuality (parseBingResults (generateTimestamp deps) page numResults)
            (sanitizeQuery deps query)
     else 1%Q) = false ->
  search deps cfg web query numResults timeout = {| results := []; engine := "None" |}.
Proof.
  intros Hddg Hbing Hbrave Hhtml Hq.
  unfold search, rateLimiter_execute, searchWith.
  change (List.length (approaches deps web)) with 4%nat. unfold approaches.
  cbn [fallback method]. unfold tryBrowserDuckDuckGoSearch at 1. rewrite Hddg.
  cbn [fallback method]. unfold tryBrowserBingSearch at 1. rewrite Hbing.
  assert (Hrest : forall i best,
            fallback cfg (sanitizeQuery deps query) numResults timeout 4 i
              [ {| method := tryBrowserBraveSearch deps web; name := "Browser Brave" |};
                {| method := tryDuckDuckGoSearch deps web; name := "Axios DuckDuckGo" |} ]
              best
            = {| results := []; engine := "None" |}).
  { intros i best. apply fallback_all_fail.
    intros a [<-|[<-|[]]]; left; simpl.
    - unfold tryBrowserBraveSearch. rewrite Hbrave. reflexivity.
    - unfold tryDuckDuckGoSearch. rewrite Hhtml. reflexivity. }
  destruct (0 <? _)%nat; [|apply Hrest].
  destruct (iteration_bing_held cfg (sanitizeQuery deps query) 4 1
              {| method := tryBrowserBingSearch deps web; name := "Browser Bing" |}
              (parseBingResults (generateTimestamp deps) page numResults) noBest)
    as [best' ->]; [reflexivity|exact Hq|reflexivity|].
  apply Hrest.
Qed.

End SearchFacts.

(** ** The fallback loop on concrete runs *)

Section SearchRuns.
Import Quality Parsers SearchEngine Scenarios.

(** C1, the code at the failing input. Bing, the second backend, returns a
    non-empty list of quality 1/2 (above the threshold 0.3, below 0.8): it
    is kept as the best so far and the loop goes on; the two backends after
    it throw, so the check made on the last backend is never reached and
    [search] returns the empty sentinel instead of the best list. *)
Theorem search_loses_best_when_last_backends_throw :
  tryBrowserBingSearch deps0 webBingOnly "weather london" 3 (Qmin (10000 / 3) 5000)
    = Returns mixedResults
  /\ assessResultQuality mixedResults "weather london" = (1 # 2)%Q
  /\ search deps0 defaultConfig webBingOnly "weather london" 3 10000
     = {| results := []; engine := "None" |}.
Proof. repeat split; vm_compute; reflexivity. Qed.

(** A second way to the same end: every backend returns a non-empty list of
    quality 0; no list ever beats the initial best quality 0, and the empty
    sentinel is returned after the last backend. *)
Lemma search_none_when_all_scores_zero :
  tryDuckDuckGoSearch deps0 webAllPoor "weather london" 3 (Qmin (10000 / 3) 5000)
    = Returns poorResults
  /\ (assessResultQuality poorResults "weather london" == 0)%Q
  /\ search deps0 defaultConfig webAllPoor "weather london" 3 10000
     = {| results := []; engine := "None" |}.
Proof. repeat split; vm_compute; reflexivity. Qed.

(** C2, the code at the failing input. The backend that is first in the
    priority list is "Browser DuckDuckGo"; its list of quality 1/2 (at
    least the threshold 0.3, below 0.8, forcing off) is returned at once,
    although Bing would have returned a list of quality 1. The backend held
    back is the second one, "Browser Bing": its list of quality 1/2 is not
    returned at once, and Brave's list is returned instead. *)
Theorem search_returns_first_backend_at_once :
  List.map name (approaches deps0 webDdgMixedBingGood)
    = ["Browser DuckDuckGo"; "Browser Bing"; "Browser Brave"; "Axios DuckDuckGo"]
  /\ forceMultiEngine defaultConfig = false
  /\ assessResultQuality mixedResults "weather london" = (1 # 2)%Q
  /\ search deps0 defaultConfig webDdgMixedBingGood "weather london" 3 10000
     = {| results := mixedResults; engine := "Browser DuckDuckGo" |}
  /\ search deps0 defaultConfig webBingMixedBraveGood "weather london" 3 10000
     = {| results := goodResults; engine := "Browser Brave" |}.
Proof. repeat split; vm_compute; reflexivity. Qed.

End SearchRuns.

(** ** The monthly quota *)

Section QuotaFacts.
Import BraveApiRateLimiter.
Context {T E : Type}.

Lemma currentUsage_some l f env :
  wellFormed l -> exists usage, currentUsage l f env = Some usage.
Proof.
  unfold wellFormed, currentUsage, init. intros Hwf.
  destruct (initialized l) eqn:Hi; simpl; [|eauto].
  destruct (monthlyUsage l) as [u|]; [eauto|]. now destruct Hwf.
Qed.

(** On first use a record of another month is replaced by a zero count. *)
Lemma currentUsage_new_month l f env u :
  initialized l = false -> f = Some u -> month u <> currentMonth env ->
  currentUsage l f env = Some {| month := currentMonth env; count := 0 |}.
Proof.
  unfold currentUsage, init, loadUsage. intros -> -> Hm. simpl.
  destruct (String.eqb_spec (month u) (currentMonth env)); [contradiction|reflexivity].
Qed.

Lemma init_cap l f env : maxRequestsPerMonth (init l f env) = maxRequestsPerMonth l.
Proof. unfold init. destruct (initialized l); reflexivity. Qed.

Lemma init_within cap l f env :
  (0 <= cap)%Z -> heldWithin cap l -> fileWithin cap f -> heldWithin cap (init l f env).
Proof.
  unfold heldWithin, fileWithin, init, loadUsage. intros Hcap Hl Hf u.
  destruct (initialized l); [apply Hl|]. simpl.
  destruct f as [u0|]; [|intros [= <-]; simpl; lia].
  destruct (String.eqb (month u0) (currentMonth env)); intros [= <-]; simpl; [|lia].
  now apply Hf.
Qed.

(** The call is refused at the cap: nothing happens. *)
Lemma execute_refused l f env (fn : Settled T E) usage :
  currentUsage l f env = Some usage ->
  (maxRequestsPerMonth l <= count usage)%Z ->
  execute l f env fn =
  {| result := LimitReached (maxRequestsPerMonth l) (daysUntilReset env);
     limiter := init l f env; file := f; events := [] |}.
Proof.
  unfold currentUsage, execute. intros -> Hge. rewrite init_cap.
  destruct (Z.leb_spec (maxRequestsPerMonth l) (count usage)); [reflexivity|lia].
Qed.

(** Below the cap [fn] is invoked, and the count follows its outcome. *)
Lemma execute_allowed l f env (fn : Settled T E) usage :
  currentUsage l f env = Some usage ->
  (count usage < maxRequestsPerMonth l)%Z ->
  exists waited,
    (forall ev, In ev waited -> exists ms, ev = Slept ms) /\
    execute l f env fn =
    match fn with
    | Resolves v =>
        {| result := Ok v;
           limiter := withUsage (init l f env) (nowAfterWait env) (bump usage);
           file := saveUsage f env (bump usage);
           events := waited ++ [Invoked; Wrote (bump usage)] |}
    | Rejects e =>
        {| result := Failed e;
           limiter := withUsage (init l f env) (nowAfterWait env) usage;
           file := f;
           events := waited ++ [Invoked] |}
    end.
Proof.
  unfold currentUsage, execute. intros -> Hlt. rewrite init_cap.
  destruct (Z.leb_spec (maxRequestsPerMonth l) (count usage)); [lia|].
  eexists. split; [|destruct fn; reflexivity].
  intros ev. destruct (_ <? _)%Z; simpl; [|tauto].
  intros [<-|[]]. eauto.
Qed.

Lemma execute_wellFormed l f env (fn : Settled T E) :
  wellFormed l -> wellFormed (limiter (execute l f env fn)).
Proof.
  intros Hwf. destruct (currentUsage_some l f env Hwf) as [usage Hu].
  destruct (Z.le_gt_cases (maxRequestsPerMonth l) (count usage)) as [Hge|Hlt].
  - rewrite (execute_refused _ _ _ _ _ Hu Hge). simpl.
    unfold wellFormed. unfold currentUsage in Hu. rewrite Hu. done.
  - destruct (execute_allowed _ _ _ fn _ Hu Hlt) as (w & _ & ->).
    destruct fn; simpl; unfold wellFormed; simpl; done.
Qed.

Lemma execute_cap l f env (fn : Settled T E) :
  wellFormed l ->
  maxRequestsPerMonth (limiter (execute l f env fn)) = maxRequestsPerMonth l.
Proof.
  intros Hwf. destruct (currentUsage_some l f env Hwf) as [usage Hu].
  destruct (Z.le_gt_cases (maxRequestsPerMonth l) (count usage)) as [Hge|Hlt].
  - rewrite (execute_refused _ _ _ _ _ Hu Hge). simpl. apply init_cap.
  - destruct (execute_allowed _ _ _ fn _ Hu Hlt) as (w & _ & ->).
    destruct fn; simpl; apply init_cap.
Qed.

(** A call keeps the held count and the count on file within the cap. *)
Lemma execute_within l f env (fn : Settled T E) :
  wellFormed l -> (0 <= maxRequestsPerMonth l)%Z ->
  heldWithin (maxRequestsPerMonth l) l -> fileWithin (maxRequestsPerMonth l) f ->
  heldWithin (maxRequestsPerMonth l) (limiter (execute l f env fn))
  /\ fileWithin (maxRequestsPerMonth l) (file (execute l f env fn)).
Proof.
  intros Hwf Hcap Hl Hf.
  pose proof (init_within _ l f env Hcap Hl Hf) as Hinit.
  destruct (currentUsage_some l f env Hwf) as [usage Hu].
  assert (Hus : (count usage <= maxRequestsPerMonth l)%Z) by (apply Hinit, Hu).
  destruct (Z.le_gt_cases (maxRequestsPerMonth l) (count usage)) as [Hge|Hlt].
  - rewrite (execute_refused _ _ _ _ _ Hu Hge). simpl. auto.
  - destruct (execute_allowed _ _ _ fn _ Hu Hlt) as (w & _ & ->).
    destruct fn; simpl; (split; [|]); unfold heldWithin, fileWithin, saveUsage; simpl.
    + intros u [= <-]. simpl. lia.
    + destruct (writeOk env); [intros u [= <-]; simpl; lia|exact Hf].
    + intros u [= <-]. exact Hus.
    + exact Hf.
Qed.

(** Over any sequence of calls and restarts. *)
Lemma run_within (ops : list (Op T E)) : forall w,
  wellFormed (lim w) -> (0 <= maxRequestsPerMonth (lim w))%Z ->
  heldWithin (maxRequestsPerMonth (lim w)) (lim w) ->
  fileWithin (maxRequestsPerMonth (lim w)) (disk w) ->
  maxRequestsPerMonth (lim (run ops w)) = maxRequestsPerMonth (lim w)
  /\ heldWithin (maxRequestsPerMonth (lim w)) (lim (run ops w))
  /\ fileWithin (maxRequestsPerMonth (lim w)) (disk (run ops w)).
Proof.
  unfold run. induction ops as [|op ops IH]; intros w Hwf Hcap Hl Hf; simpl; [auto|].
  assert (Hstep : wellFormed (lim (step w op))
                  /\ maxRequestsPerMonth (lim (step w op)) = maxRequestsPerMonth (lim w)
                  /\ heldWithin (maxRequestsPerMonth (lim w)) (lim (step w op))
                  /\ fileWithin (maxRequestsPerMonth (lim w)) (disk (step w op))).
  { destruct op as [env fn|]; simpl.
    - pose proof (execute_within (lim w) (disk w) env fn Hwf Hcap Hl Hf) as [? ?].
      split; [now apply execute_wellFormed|]. split; [now apply execute_cap|]. auto.
    - repeat split; [done|done|exact Hf]. }
  destruct Hstep as (Hwf' & Hc' & Hl' & Hf').
  specialize (IH (step w op)). rewrite Hc' in IH.
  destruct IH as (-> & ? & ?); auto; try lia.
Qed.

(** The quota over calls that do not overlap. For a call of [execute]
    that no other call overlaps, on a limiter as the class builds it, with
    [usage] the usage in force (the one loaded on first use): at or above the cap the call throws the limit error with
    the days to the reset, does not invoke [fn] and changes neither the
    count nor the file; below the cap [fn] is invoked, the count is
    incremented and written to the file when [fn] resolves, and count and
    file are unchanged when it rejects; on first use a record of another
    month counts as 0; over this call and any further calls and restarts,
    a count within the cap, held or on file, stays within the cap; and from
    a new limiter with no usage file, no sequence of calls and restarts
    brings the count, held or on file, above the cap. *)
Theorem execute_quota (l : Limiter) (f : File) (env : Env) (fn : Settled T E)
    (ops : list (Op T E)) :
  wellFormed l ->
  exists usage,
    currentUsage l f env = Some usage
    /\ (forall u, initialized l = false -> f = Some u ->
          month u <> currentMonth env -> count usage = 0%Z)
    /\ ((maxRequestsPerMonth l <= count usage)%Z ->
          result (execute l f env fn)
            = LimitReached (maxRequestsPerMonth l) (daysUntilReset env)
          /\ ~ In Invoked (events (execute l f env fn))
          /\ monthlyUsage (limiter (execute l f env fn)) = Some usage
          /\ file (execute l f env fn) = f)
    /\ ((count usage < maxRequestsPerMonth l)%Z ->
          In Invoked (events (execute l f env fn))
          /\ (forall v, fn = Resolves v ->
                result (execute l f env fn) = Ok v
                /\ monthlyUsage (limiter (execute l f env fn)) = Some (bump usage)
                /\ In (Wrote (bump usage)) (events (execute l f env fn))
                /\ (writeOk env = true -> file (execute l f env fn) = Some (bump usage))
                /\ (writeOk env = false -> file (execute l f env fn) = f))
          /\ (forall e, fn = Rejects e ->
                result (execute l f env fn) = Failed e
                /\ monthlyUsage (limiter (execute l f env fn)) = Some usage
                /\ (forall u, ~ In (Wrote u) (events (execute l f env fn)))
                /\ file (execute l f env fn) = f))
    /\ ((0 <= maxRequestsPerMonth l)%Z ->
        heldWithin (maxRequestsPerMonth l) l -> fileWithin (maxRequestsPerMonth l) f ->
        heldWithin (maxRequestsPerMonth l)
          (lim (run (Call env fn :: ops) {| lim := l; disk := f |}))
        /\ fileWithin (maxRequestsPerMonth l)
          (disk (run (Call env fn :: ops) {| lim := l; disk := f |})))
    /\ (forall requestsPerSecond cap, (0 <= cap)%Z ->
        heldWithin cap (lim (run ops {| lim := new requestsPerSecond cap; disk := None |}))
        /\ fileWithin cap
             (disk (run ops {| lim := new requestsPerSecond cap; disk := None |}))).
Proof.
  intros Hwf. destruct (currentUsage_some l f env Hwf) as [usage Hu].
  exists usage. split; [exact Hu|]. split; [|split; [|split; [|split]]].
  - intros u Hi Hf Hm. rewrite (currentUsage_new_month l f env u Hi Hf Hm) in Hu.
    injection Hu as <-. reflexivity.
  - intros Hge. rewrite (execute_refused _ _ _ _ _ Hu Hge). simpl.
    repeat split; [tauto|exact Hu].
  - intros Hlt. destruct (execute_allowed _ _ _ fn _ Hu Hlt) as (w & Hw & ->).
    split; [|split].
    + destruct fn; simpl; apply in_or_app; right; simpl; auto.
    + intros v ->. simpl. unfold saveUsage. repeat split.
      * apply in_or_app; right; simpl; auto.
      * intros ->. reflexivity.
      * intros ->. reflexivity.
    + intros e ->. simpl. repeat split.
      intros u Hin. apply in_app_or in Hin as [Hin|Hin].
      * destruct (Hw _ Hin) as [ms Hms]. discriminate Hms.
      * destruct Hin as [Hin|[]]. discriminate Hin.
  - intros Hcap Hl Hf.
    pose proof (run_within (Call env fn :: ops) {| lim := l; disk := f |}
                  Hwf Hcap Hl Hf) as (_ & ? & ?).
    auto.
  - intros rps cap Hcap.
    pose proof (run_within ops {| lim := new rps cap; disk := None |}) as Hrun.
    simpl in Hrun. destruct Hrun as (_ & ? & ?); auto; try discriminate.
Qed.

End QuotaFacts.

(** The theorem at work: the 2000th call of the month goes through and
    fills the quota. *)
Lemma execute_quota_witness :
  BraveApiRateLimiter.wellFormed Scenarios.limiter0
  /\ BraveApiRateLimiter.result
       (BraveApiRateLimiter.execute (T := nat) (E := string) Scenarios.limiter0 Scenarios.usageFile0
          Scenarios.october (BraveApiRateLimiter.Resolves 7%nat))
     = BraveApiRateLimiter.Ok 7%nat.
Proof.
  assert (Hwf : BraveApiRateLimiter.wellFormed Scenarios.limiter0)
    by (intros H; discriminate H).
  split; [exact Hwf|].
  destruct (execute_quota (E := string) Scenarios.limiter0 Scenarios.usageFile0
              Scenarios.october (BraveApiRateLimiter.Resolves 7%nat) [] Hwf) as (usage & Hu & _ & _ & Hbelow & _).
  injection Hu as <-.
  destruct (Hbelow ltac:(simpl; lia)) as (_ & Hok & _).
  destruct (Hok 7%nat eq_refl) as (Hres & _). exact Hres.
Defined.

(** ** The process reaper *)

Section ReaperFacts.
Import JsString GarbageCollector.

Lemma Qlt_bool_iff (x y : Q) : Qlt_bool x y = true <-> (x < y)%Q.
Proof.
  unfold Qlt_bool. rewrite negb_true_iff, <- not_true_iff_false, Qle_bool_iff.
  split; [apply Qnot_le_lt | apply Qlt_not_le].
Qed.

(** [etime < maxProcessAgeMs / 1000], in integers. *)
Lemma younger_iff (e m : Z) :
  Qlt_bool (inject_Z e) (inject_Z m / 1000) = true <-> (e * 1000 < m)%Z.
Proof.
  rewrite Qlt_bool_iff. unfold Qlt, Qdiv, Qmult, Qinv, inject_Z. simpl. lia.
Qed.

(** [etime / 60 > maxProcessAgeMs / 60000], in integers. *)
Lemma older_iff (e m : Z) :
  Qlt_bool (inject_Z m / 60000) (inject_Z e / 60) = true <-> (m < e * 1000)%Z.
Proof.
  rewrite Qlt_bool_iff. unfold Qlt, Qdiv, Qmult, Qinv, inject_Z. simpl. lia.
Qed.

(** A reference to the temporary profile directory mentions playwright. *)
Lemma tempProfile_mentions_playwright (s : string) :
  includes s "user-data-dir=/tmp/playwright" = true -> includes s "playwright" = true.
Proof.
  rewrite !includes_spec. intros (pre & post & ->).
  exists (pre ++ "user-data-dir=/tmp/")%string, post.
  rewrite append_assoc. reflexivity.
Qed.

Lemma sweepOne_spec config myPid acc proc :
  (doomed config myPid proc /\ sweepOne config myPid acc proc = acc ++ [pid proc])
  \/ (~ doomed config myPid proc /\ sweepOne config myPid acc proc = acc).
Proof.
  unfold sweepOne, doomed, isOrphanedChrome.
  destruct (Qlt_bool (inject_Z (etime proc)) _) eqn:Hy.
  { apply younger_iff in Hy. right. split; [lia|reflexivity]. }
  apply not_true_iff_false in Hy. rewrite younger_iff in Hy.
  destruct (Z.eqb_spec (pid proc) myPid) as [Heq|Hne].
  { right. split; [tauto|reflexivity]. }
  destruct (includes (cmd proc) "playwright") eqn:Hp; simpl.
  - destruct (Qlt_bool _ _) eqn:Ho.
    + apply older_iff in Ho. left. auto.
    + apply not_true_iff_false in Ho. rewrite older_iff in Ho.
      right. split; [lia|reflexivity].
  - destruct (includes (cmd proc) "user-data-dir=/tmp/playwright") eqn:Ht; simpl.
    + apply tempProfile_mentions_playwright in Ht. congruence.
    + right. split; [intros (_ & _ & H); discriminate H|reflexivity].
Qed.

Lemma sweep_spec config myPid procs : forall acc p,
  In p (fold_left (sweepOne config myPid) procs acc) <->
  In p acc \/ exists proc, In proc procs /\ pid proc = p /\ doomed config myPid proc.
Proof.
  induction procs as [|proc procs IH]; intros acc p; simpl.
  - split; [auto|]. intros [H|(proc & [] & _)]. exact H.
  - rewrite IH.
    destruct (sweepOne_spec config myPid acc proc) as [[Hd ->]|[Hn ->]].
    + rewrite in_app_iff. simpl. split.
      * intros [[H|[H|[]]]|(q & Hin & Hq)]; eauto 8.
      * intros [H|(q & [<-|Hin] & Hp & Hq)]; eauto 8.
    + split.
      * intros [H|(q & Hin & Hq)]; eauto 8.
      * intros [H|(q & [<-|Hin] & Hp & Hq)]; eauto 8. contradiction.
Qed.

(** C5, as the source has it: a sweep hands a pid to [killProcess] only if
    a listed process with that pid is not the reaper itself, is older than
    the maximal age (thirty minutes by default), and has a command line that
    contains the word playwright (which a reference to the temporary profile
    directory [user-data-dir=/tmp/playwright] does, and other command lines
    do too); the loop body leaves a process whose command line does not
    contain playwright alone at any age; and the reaper never targets its
    own pid. *)
Theorem runGC_terminates_only_if (config : GCConfig) (myPid : Z)
    (chromeProcesses : list ProcessInfo) :
  List.Forall
    (fun p =>
       exists proc, In proc chromeProcesses /\ pid proc = p
         /\ pid proc <> myPid
         /\ (maxProcessAgeMs config < etime proc * 1000)%Z
         /\ includes (cmd proc) "playwright" = true)
    (terminated (runGC config myPid chromeProcesses))
  /\ (forall verbose, maxProcessAgeMs (DEFAULT_CONFIG verbose) = (30 * 60 * 1000)%Z)
  /\ (forall acc proc,
        includes (cmd proc) "playwright" = false ->
        sweepOne config myPid acc proc = acc)
  /\ ~ In myPid (terminated (runGC config myPid chromeProcesses)).
Proof.
  unfold runGC; simpl. repeat split.
  - apply List.Forall_forall. intros p H.
    apply sweep_spec in H as [[]|(proc & Hin & Hp & Hd)].
    exists proc. unfold doomed in Hd. tauto.
  - intros acc proc Hcmd.
    destruct (sweepOne_spec config myPid acc proc) as [[(_ & _ & Hd) _]|[_ ->]];
      [congruence|reflexivity].
  - intros H. apply sweep_spec in H as [[]|(proc & Hin & Hp & Hne & _)].
    contradiction.
Qed.

(** Under the default configuration a forty-minute-old browser of the
    automation engine is terminated, a forty-minute-old Chrome of the user
    is not, and neither is the reaper's own process. *)
Example runGC_default_sweep :
  runGC (DEFAULT_CONFIG false) 7003
    [Scenarios.orphanChrome; Scenarios.userChrome;
     {| pid := 7003; etime := 2400; cmd := cmd Scenarios.orphanChrome |}]
  = {| killed := 1; checked := 3; terminated := [7001%Z] |}.
Proof. vm_compute. reflexivity. Qed.

(** C5 as stated fails: under the default configuration the sweep
    terminates a forty-minute-old Chrome whose command line mentions
    playwright in the name of a profile directory of its own, and does not
    reference the temporary profile directory of the automation engine. *)
Lemma runGC_terminates_without_temp_profile :
  terminated (runGC (DEFAULT_CONFIG false) 1 [Scenarios.strayChrome]) = [4242%Z]
  /\ referencesTempProfile Scenarios.strayChrome = false
  /\ includes (cmd Scenarios.strayChrome) "/tmp/" = false.
Proof. repeat split; vm_compute; reflexivity. Qed.

End ReaperFacts.

(** ** Content extraction *)

Section ExtractionFacts.
Import JsString EnhancedContentExtractor.
Variable deps : Deps.
Variable self : Extractor.
Variable world : World.

(** On the lightweight path a text longer than a non-zero [maxLength] is
    cut to exactly [maxLength] characters. *)
Lemma extractWithAxios_truncates options maxLength data content :
  optMaxContentLength options = Some maxLength ->
  maxLength <> O ->
  axiosGet world (optUrl options) (timeoutOf self options) = Resolved data ->
  (maxLength < String.length (parseContent deps data))%nat ->
  extractWithAxios deps self world options = Resolved content ->
  content = substring0 maxLength (parseContent deps data)
  /\ String.length content = maxLength.
Proof.
  unfold extractWithAxios. intros -> Hnz -> Hlong.
  destruct (Nat.eqb_spec maxLength 0); [contradiction|].
  destruct (Nat.ltb_spec maxLength (String.length (parseContent deps data))); [|lia].
  simpl. destruct (isLowQualityContent _); [discriminate|].
  intros [= <-]. split; [reflexivity|]. apply length_substring0. lia.
Qed.

(** The rendered path returns the parsed text as it is: the requested
    [maxContentLength] does not enter. *)
Lemma extractWithBrowser_ignores_maxLength url timeout m1 m2 :
  extractWithBrowser deps self world
    {| optUrl := url; optTimeout := timeout; optMaxContentLength := m1 |}
  = extractWithBrowser deps self world
    {| optUrl := url; optTimeout := timeout; optMaxContentLength := m2 |}.
Proof. reflexivity. Qed.

(** Whenever the lightweight failure calls for the browser and the browser
    yields a page, the value of [extractContent] is the parsed page,
    whatever [maxContentLength] was asked for. *)
Lemma extractContent_via_browser options e html :
  extractWithAxios deps self world options = Rejected e ->
  shouldUseBrowser e (optUrl options) = Some true ->
  browserPage world (optUrl options) (timeoutOf self options) = Resolved html ->
  extractContent deps self world options = Resolved (parseContent deps html).
Proof.
  intros Hax Hb Hpage. unfold extractContent, extractWithBrowser.
  rewrite Hax, Hb, Hpage. reflexivity.
Qed.

Lemma In_firstn {A} (n : nat) (l : list A) (x : A) : In x (firstn n l) -> In x l.
Proof.
  revert l. induction n as [|n IH]; intros [|y l]; simpl; try tauto.
  intros [->|H]; auto.
Qed.





Lemma extractOne_url r : url (extractOne deps self world r) = url r.
Proof. unfold extractOne. destruct (raced _ _ _ _); reflexivity. Qed.



End ExtractionFacts.

Section ExtractionRuns.
Import JsString EnhancedContentExtractor Scenarios.

(** C7, the code at the failing input. With [maxContentLength = 1000] and
    a site that answers the HTTP client with 403, the extraction falls back
    to the browser and returns all 1500 characters of the page, not 1000.
    The same happens on an open site when fewer than 100 characters are
    asked for: the lightweight text, cut to 50 characters, counts as low
    quality, and the browser path returns the whole page. *)
Theorem extractContent_browser_path_does_not_truncate :
  String.length longPage = 1500%nat
  /\ extractContent extractorDeps0 extractor0 worldForbidden (articleOptions 1000)
     = Resolved longPage
  /\ extractContent extractorDeps0 extractor0 worldOpen (articleOptions 1000)
     = Resolved (substring0 1000 longPage)
  /\ extractContent extractorDeps0 extractor0 worldOpen (articleOptions 50)
     = Resolved longPage.
Proof. repeat split; vm_compute; reflexivity. Qed.


End ExtractionRuns.

(** ** The browser pool *)

Section PoolFacts.
Import BrowserPool.

Lemma Inv_initial : Inv initial.
Proof. split; simpl; intros; rewrite ?lookup_empty in *; done. Qed.

Lemma Inv_launchOrShare c s :
  Inv s -> browser (pool s) = None -> Inv (launchOrShare c s).
Proof.
  intros [I1 I2 I3 I4 I5 I6] Hb. unfold launchOrShare.
  destruct (browserLaunchPromise (pool s)) as [p|] eqn:Hm.
  - split; simpl.
    + intros q Hq. rewrite Hm. eauto.
    + intros d q Hd. rewrite Hm. destruct (decide (d = c)); simplify_map_eq. eauto.
    + intros d d' q q' Hd Hd'.
      destruct (decide (d = c)), (decide (d' = c)); simplify_map_eq. eauto.
    + intros d q b Hd. destruct (decide (d = c)); simplify_map_eq. eauto.
    + intros d q Hd. destruct (decide (d = c)); simplify_map_eq. eauto.
    + eauto.
  - assert (Hnone : forall d q, calls s !! d = Some (AwaitingLaunch q) -> False).
    { intros d q Hd. apply I2 in Hd. congruence. }
    assert (Hnew : launches s !! launchCount s = None) by (apply I6; lia).
    split; simpl.
    + intros q Hq. destruct (decide (q = launchCount s)) as [->|Hne]; [done|].
      rewrite lookup_insert_ne in Hq by done. apply I1 in Hq as [? _]. congruence.
    + intros d q Hd. destruct (decide (d = c)); simplify_map_eq; [done|].
      exfalso. eauto.
    + intros d d' q q' Hd Hd'.
      destruct (decide (d = c)), (decide (d' = c)); simplify_map_eq; try done;
        exfalso; eauto.
    + intros d q b Hd. destruct (decide (d = c)); simplify_map_eq.
      apply I4 in Hd. destruct (decide (q = launchCount s)) as [->|Hne];
        [by rewrite Hnew in Hd|].
      rewrite lookup_insert_ne by done. done.
    + intros d q Hd. destruct (decide (d = c)); simplify_map_eq.
      apply I5 in Hd. destruct (decide (q = launchCount s)) as [->|Hne];
        [by rewrite Hnew in Hd|].
      rewrite lookup_insert_ne by done. done.
    + intros q Hq. rewrite lookup_insert_ne by lia. apply I6. lia.
Qed.

(** The six parts of [Inv] after a transition that only rebinds the call
    [c] to a state other than [AwaitingLaunch]. *)
Ltac inv_at c :=
  split; simpl;
  [ intros q Hq; eauto
  | intros d q Hd; destruct (decide (d = c)); simplify_map_eq; eauto
  | intros d d' q q' Hd Hd';
    destruct (decide (d = c)), (decide (d' = c)); simplify_map_eq; eauto
  | intros d q b' Hd; destruct (decide (d = c)); simplify_map_eq; eauto
  | intros d q Hd; destruct (decide (d = c)); simplify_map_eq; eauto
  | eauto ].

Lemma Inv_exec e s s' : Inv s -> exec e s = Some s' -> Inv s'.
Proof.
  intros HI He. destruct e as [c|c ok|p ok|c|b|c]; simpl in He.
  - (* Enter *)
    destruct (calls s !! c) eqn:Hc; [discriminate|]. injection He as <-.
    unfold enter. destruct (browser (pool s)) as [b|] eqn:Hb.
    + destruct HI as [I1 I2 I3 I4 I5 I6].
      destruct (_ && _); inv_at c.
    + apply Inv_launchOrShare; done.
  - (* Closed *)
    destruct (calls s !! c) as [[b| | | |]|] eqn:Hc; try discriminate.
    injection He as <-. unfold afterClose.
    apply Inv_launchOrShare; [|by destruct ok].
    destruct HI as [I1 I2 I3 I4 I5 I6].
    destruct ok; split; simpl; eauto; intros q Hq; destruct (I1 q Hq); auto.
  - (* Launched *)
    destruct (launches s !! p) as [[| |]|] eqn:Hp; try discriminate.
    destruct HI as [I1 I2 I3 I4 I5 I6].
    destruct ok; injection He as <-; split; simpl; eauto.
    all: try (intros q Hq; destruct (decide (q = p)) as [->|Hne];
              [by rewrite lookup_insert_eq in Hq|];
              rewrite lookup_insert_ne in Hq by done; eauto).
    all: try (intros d q b Hd; apply I4 in Hd;
              rewrite lookup_insert_ne; [done|]; intros <-; rewrite Hp in Hd; done).
    all: try (intros d q Hd; apply I5 in Hd;
              rewrite lookup_insert_ne; [done|]; intros <-; rewrite Hp in Hd; done).
    all: try (intros q Hq; rewrite lookup_insert_ne; [eauto|];
              intros <-; rewrite I6 in Hp; done).
  - (* Resume *)
    destruct HI as [I1 I2 I3 I4 I5 I6].
    destruct (calls s !! c) as [[b|p|p|via b|via]|] eqn:Hc; try discriminate.
    + (* the call that launched *)
      destruct (launches s !! p) as [[|b|]|] eqn:Hp; try discriminate;
        injection He as <-.
      all: assert (Hnopending : forall q, launches s !! q = Some Pending -> False)
        by (intros q Hq; destruct (I1 q Hq) as [Hm _];
            rewrite (I2 c p Hc) in Hm; injection Hm as <-; rewrite Hp in Hq; done).
      all: assert (Hnoowner : forall d q, d <> c ->
                     calls s !! d = Some (AwaitingLaunch q) -> False)
        by (intros d q Hne Hd; apply Hne; eapply I3; eauto).
      all: split; simpl;
        [ intros q Hq; exfalso; eauto
        | intros d q Hd; destruct (decide (d = c)); simplify_map_eq; exfalso; eauto
        | intros d d' q q' Hd Hd';
          destruct (decide (d = c)), (decide (d' = c)); simplify_map_eq;
          exfalso; eauto
        | intros d q b' Hd; destruct (decide (d = c)); simplify_map_eq; eauto
        | intros d q Hd; destruct (decide (d = c)); simplify_map_eq; eauto
        | eauto ].
    + (* a call that shares the launch *)
      destruct (launches s !! p) as [[|b|]|] eqn:Hp; try discriminate;
        injection He as <-; inv_at c.
  - (* Disconnect *)
    injection He as <-. destruct HI. split; simpl; eauto.
  - (* Issue *)
    destruct HI as [I1 I2 I3 I4 I5 I6].
    destruct (calls s !! c) as [[b|p|p|via b|via]|] eqn:Hc; try discriminate.
    injection He as <-. split; simpl; eauto.
    all: try (intros d q Hd; apply lookup_delete_Some in Hd as [_ Hd]; eauto).
    all: try (intros d d' q q' Hd Hd'; apply lookup_delete_Some in Hd as [_ Hd];
              apply lookup_delete_Some in Hd' as [_ Hd']; eauto).
    all: try (intros d q b' Hd; apply lookup_delete_Some in Hd as [_ Hd]; eauto).
Qed.

Lemma Inv_run es : forall s s', Inv s -> run es s = Some s' -> Inv s'.
Proof.
  induction es as [|e es IH]; simpl; intros s s' HI Hr.
  - injection Hr as <-. exact HI.
  - destruct (exec e s) as [s1|] eqn:He; [|discriminate].
    eapply IH; [|exact Hr]. eapply Inv_exec; eauto.
Qed.

Lemma Inv_reachable s : reachable s -> Inv s.
Proof. intros [es Hes]. eapply Inv_run; [apply Inv_initial|exact Hes]. Qed.

Lemma exec_counter e s s' :
  exec e s = Some s' ->
  (forall b, launchSucceeds e s b ->
     contextCount (pool s') = 0%nat /\ browser (pool s') = Some b)
  /\ ((forall b, ~ launchSucceeds e s b) ->
      contextCount (pool s') = contextCount (pool s)
      \/ contextCount (pool s') = S (contextCount (pool s))).
Proof.
  intros He. split.
  - intros b (c & p & -> & Hc & Hp). simpl in He. rewrite Hc, Hp in He.
    injection He as <-. simpl. done.
  - intros Hno. destruct e as [c|c ok|p ok|c|b|c]; simpl in He.
    + destruct (calls s !! c); [discriminate|]. injection He as <-.
      unfold enter, launchOrShare.
      destruct (browser (pool s)); [destruct (_ && _); simpl; auto|].
      destruct (browserLaunchPromise (pool s)); simpl; auto.
    + destruct (calls s !! c) as [[b| | | |]|]; try discriminate.
      injection He as <-. unfold afterClose, launchOrShare.
      destruct ok; simpl; destruct (browserLaunchPromise (pool s)); simpl; auto.
    + destruct (launches s !! p) as [[| |]|]; try discriminate.
      destruct ok; injection He as <-; simpl; auto.
    + destruct (calls s !! c) as [[b|p|p|via b|via]|] eqn:Hc; try discriminate.
      * destruct (launches s !! p) as [[|b|]|] eqn:Hp; try discriminate.
        -- exfalso. apply (Hno b). exists c, p. auto.
        -- injection He as <-. simpl. auto.
      * destruct (launches s !! p) as [[|b|]|] eqn:Hp; try discriminate;
          injection He as <-; simpl; auto.
    + injection He as <-. simpl. auto.
    + destruct (calls s !! c) as [[b|p|p|via b|via]|]; try discriminate.
      injection He as <-. simpl. auto.
Qed.

Lemma Fresh_initial : Fresh initial.
Proof. split; simpl; intros; [discriminate|]. rewrite lookup_empty in H. done. Qed.

Lemma Fresh_launchOrShare c s :
  Fresh s -> Fresh (launchOrShare c s).
Proof.
  intros [F1 F2]. unfold launchOrShare.
  destruct (browserLaunchPromise (pool s)); split; simpl; eauto.
  intros p b Hp. destruct (decide (p = launchCount s)) as [->|Hne].
  - rewrite lookup_insert_eq in Hp. discriminate.
  - rewrite lookup_insert_ne in Hp by done. eauto.
Qed.

Lemma Fresh_exec e s s' : Fresh s -> exec e s = Some s' -> Fresh s'.
Proof.
  intros HF He. destruct e as [c|c ok|p ok|c|b|c]; simpl in He.
  - destruct (calls s !! c); [discriminate|]. injection He as <-.
    unfold enter. destruct (browser (pool s)) eqn:Hb.
    + destruct HF as [F1 F2]. destruct (_ && _); split; simpl; eauto;
        rewrite Hb; eauto.
    + by apply Fresh_launchOrShare.
  - destruct (calls s !! c) as [[b| | | |]|]; try discriminate.
    injection He as <-. unfold afterClose. apply Fresh_launchOrShare.
    destruct HF as [F1 F2]. destruct ok; split; simpl; eauto; discriminate.
  - destruct (launches s !! p) as [[| |]|]; try discriminate.
    destruct HF as [F1 F2].
    destruct ok; injection He as <-; split; simpl.
    + intros b Hb. apply F1 in Hb. lia.
    + intros q b Hq. destruct (decide (q = p)) as [->|Hne].
      * rewrite lookup_insert_eq in Hq. injection Hq as <-. lia.
      * rewrite lookup_insert_ne in Hq by done. apply F2 in Hq. lia.
    + eauto.
    + intros q b Hq. destruct (decide (q = p)) as [->|Hne].
      * rewrite lookup_insert_eq in Hq. discriminate.
      * rewrite lookup_insert_ne in Hq by done. eauto.
  - destruct HF as [F1 F2].
    destruct (calls s !! c) as [[b|p|p|via b|via]|]; try discriminate;
      destruct (launches s !! p) as [[|b|]|] eqn:Hp; try discriminate;
      injection He as <-; split; simpl; eauto.
    intros b' [= <-]. eauto.
  - injection He as <-. destruct HF. split; simpl; eauto.
  - destruct (calls s !! c) as [[b|p|p|via b|via]|]; try discriminate.
    injection He as <-. destruct HF. split; simpl; eauto.
Qed.

Lemma Fresh_reachable s : reachable s -> Fresh s.
Proof.
  intros [es Hes]. revert Hes. generalize Fresh_initial. generalize initial.
  induction es as [|e es IH]; simpl; intros s0 HF Hr.
  - injection Hr as <-. exact HF.
  - destruct (exec e s0) as [s1|] eqn:He; [|discriminate].
    eapply IH; [|exact Hr]. eapply Fresh_exec; eauto.
Qed.

(** Below the threshold the connected browser is returned and nothing
    else changes. *)
Lemma getBrowser_below closeOk launchOk c s b :
  browser (pool s) = Some b -> b ∈ connected s ->
  (contextCount (pool s) < MAX_CONTEXTS_PER_BROWSER)%nat ->
  calls s !! c = None ->
  getBrowser closeOk launchOk c s = Some (setCall s c (Returned None b)).
Proof.
  intros Hb Hconn Hn Hc. unfold getBrowser. simpl. rewrite Hc.
  unfold enter. rewrite Hb.
  rewrite (bool_decide_eq_true_2 _ Hconn).
  destruct (Nat.ltb_spec (contextCount (pool s)) MAX_CONTEXTS_PER_BROWSER); [|lia].
  repeat (simpl; rewrite lookup_insert_eq). reflexivity.
Qed.

Lemma System_eta s :
  s = {| pool := pool s; launches := launches s; launchCount := launchCount s;
         calls := calls s; connected := connected s; closing := closing s;
         nextBrowser := nextBrowser s |}.
Proof. destruct s; reflexivity. Qed.

Lemma getContext_below closeOk launchOk c s b :
  browser (pool s) = Some b -> b ∈ connected s ->
  (contextCount (pool s) < MAX_CONTEXTS_PER_BROWSER)%nat ->
  calls s !! c = None ->
  getContext closeOk launchOk c s = Some (withCount s (S (contextCount (pool s)))).
Proof.
  intros Hb Hconn Hn Hc. unfold getContext.
  rewrite (getBrowser_below _ _ _ _ b) by done.
  simpl. rewrite lookup_insert_eq.
  unfold withCount, setPool. simpl. f_equal. f_equal.
  rewrite delete_insert_eq. apply delete_id. exact Hc.
Qed.

Lemma issueContexts_below closeOk launchOk b : forall k c s,
  browser (pool s) = Some b -> b ∈ connected s ->
  (contextCount (pool s) + k <= MAX_CONTEXTS_PER_BROWSER)%nat ->
  (forall d, (c <= d)%nat -> calls s !! d = None) ->
  issueContexts closeOk launchOk k c s = Some (withCount s (contextCount (pool s) + k)).
Proof.
  induction k as [|k IH]; intros c s Hb Hconn Hn Hc; simpl.
  - unfold withCount, setPool. rewrite Nat.add_0_r.
    destruct s as [[? ? ?] ? ? ? ? ? ?]; reflexivity.
  - rewrite (getContext_below _ _ _ _ b); try done; [|lia|apply Hc; lia].
    rewrite IH; simpl; try done; [|lia|intros d Hd; apply Hc; lia].
    unfold withCount, setPool. simpl. do 3 f_equal. lia.
Qed.

(** At the threshold (or with a disconnected browser) and no launch
    pending, the call closes the old browser, launches a new one and
    returns it. *)
Lemma getBrowser_rotates closeOk c s b :
  browser (pool s) = Some b -> browserLaunchPromise (pool s) = None ->
  (MAX_CONTEXTS_PER_BROWSER <= contextCount (pool s))%nat \/ b ∉ connected s ->
  calls s !! c = None ->
  exists s',
    getBrowser closeOk true c s = Some s'
    /\ calls s' !! c = Some (Returned (Some (launchCount s)) (nextBrowser s))
    /\ pool s' = {| browser := Some (nextBrowser s); browserLaunchPromise := None;
                    contextCount := 0 |}
    /\ closing s' = closing s ++ [b]
    /\ launchCount s' = S (launchCount s)
    /\ nextBrowser s ∈ connected s'.
Proof.
  intros Hb Hm Hold Hc. unfold getBrowser. simpl. rewrite Hc.
  unfold enter. rewrite Hb.
  assert (Hcond : bool_decide (b ∈ connected s)
                  && (contextCount (pool s) <? MAX_CONTEXTS_PER_BROWSER)%nat = false).
  { apply andb_false_iff. destruct Hold as [Hn|Hd].
    - right. apply Nat.ltb_ge. exact Hn.
    - left. apply bool_decide_eq_false_2. exact Hd. }
  rewrite Hcond. simpl. rewrite lookup_insert_eq.
  unfold afterClose, launchOrShare.
  destruct closeOk; simpl; rewrite Hm; simpl.
  all: repeat (rewrite lookup_insert_eq; simpl).
  all: eexists; split; [reflexivity|]; simpl.
  all: rewrite ?lookup_insert_eq; repeat split; try done; clear; set_solver.
Qed.

Lemma run_app es1 es2 s :
  run (es1 ++ es2) s = match run es1 s with Some s1 => run es2 s1 | None => None end.
Proof.
  revert s. induction es1 as [|e es1 IH]; intros s; simpl; [reflexivity|].
  destruct (exec e s); [apply IH|reflexivity].
Qed.

(** Calls that start while the marker is set all share its promise. *)
Lemma run_enter_shared p : forall cs s,
  browser (pool s) = None -> browserLaunchPromise (pool s) = Some p ->
  List.NoDup cs -> (forall c, In c cs -> calls s !! c = None) ->
  exists s',
    run (List.map Enter cs) s = Some s'
    /\ pool s' = pool s /\ launches s' = launches s
    /\ launchCount s' = launchCount s /\ nextBrowser s' = nextBrowser s
    /\ (forall c, In c cs -> calls s' !! c = Some (AwaitingShared p))
    /\ (forall c, ~ In c cs -> calls s' !! c = calls s !! c).
Proof.
  induction cs as [|c cs IH]; intros s Hb Hm Hnd Hc; simpl.
  - exists s. repeat split; tauto.
  - rewrite (Hc c) by (now left). apply List.NoDup_cons_iff in Hnd as [Hnin Hnd].
    unfold enter, launchOrShare. rewrite Hb, Hm.
    destruct (IH (setCall s c (AwaitingShared p))) as (s' & Hr & Hp & Hl & Hn & Hx & Hin & Hout);
      try done.
    { intros d Hd. simpl. rewrite lookup_insert_ne by (intros ->; done).
      apply Hc. now right. }
    exists s'. split; [exact Hr|]. repeat split; try done.
    + intros d [<-|Hd]; [|by apply Hin].
      rewrite Hout by done. simpl. apply lookup_insert_eq.
    + intros d Hd. rewrite Hout by tauto. simpl.
      apply lookup_insert_ne. intros ->. tauto.
Qed.

(** Once the promise is fulfilled, each of them resumes with its browser. *)
Lemma run_resume_shared p b : forall cs s,
  launches s !! p = Some (Fulfilled b) ->
  List.NoDup cs -> (forall c, In c cs -> calls s !! c = Some (AwaitingShared p)) ->
  exists s',
    run (List.map Resume cs) s = Some s'
    /\ pool s' = pool s /\ launchCount s' = launchCount s
    /\ (forall c, In c cs -> calls s' !! c = Some (Returned (Some p) b))
    /\ (forall c, ~ In c cs -> calls s' !! c = calls s !! c).
Proof.
  induction cs as [|c cs IH]; intros s Hp Hnd Hc; simpl.
  - exists s. repeat split; tauto.
  - rewrite (Hc c) by (now left). rewrite Hp. simpl.
    apply List.NoDup_cons_iff in Hnd as [Hnin Hnd].
    destruct (IH (setCall s c (Returned (Some p) b))) as (s' & Hr & Hpool & Hn & Hin & Hout);
      try done.
    { intros d Hd. simpl. rewrite lookup_insert_ne by (intros ->; done).
      apply Hc. now right. }
    exists s'. split; [exact Hr|]. repeat split; try done.
    + intros d [<-|Hd]; [|by apply Hin].
      rewrite Hout by done. simpl. apply lookup_insert_eq.
    + intros d Hd. rewrite Hout by tauto. simpl.
      apply lookup_insert_ne. intros ->. tauto.
Qed.

(** Any number of overlapping calls on an empty pool: one launch, and every
    call returns the browser of that launch. *)
Lemma concurrentCalls_one_launch (n : nat) :
  exists s',
    run (concurrentCalls n) initial = Some s'
    /\ launchCount s' = 1%nat
    /\ pool s' = {| browser := Some 0%nat; browserLaunchPromise := None;
                    contextCount := 0 |}
    /\ forall c, (c <= n)%nat -> calls s' !! c = Some (Returned (Some 0%nat) 0%nat).
Proof.
  unfold concurrentCalls. rewrite !run_app.
  change (seq 0 (S n)) with (0%nat :: seq 1 n). cbn [List.map run].
  set (s1 := enter 0 initial).
  assert (E1 : exec (Enter 0) initial = Some s1) by reflexivity.
  assert (C1 : calls s1 = <[0%nat := AwaitingLaunch 0]> ∅) by reflexivity.
  assert (L1 : launches s1 = <[0%nat := Pending]> ∅) by reflexivity.
  rewrite E1.
  destruct (run_enter_shared 0 (seq 1 n) s1)
    as (s2 & -> & Hp2 & Hl2 & Hn2 & Hx2 & Hin2 & Hout2); try done.
  { apply List.seq_NoDup. }
  { intros c Hc. apply List.in_seq in Hc. rewrite C1.
    rewrite lookup_insert_ne by lia. apply lookup_empty. }
  assert (E3 : exec (Launched 0 true) s2
               = Some {| pool := pool s2; launches := <[0%nat := Fulfilled 0]> (launches s2);
                         launchCount := launchCount s2; calls := calls s2;
                         connected := connected s2 ∪ {[0%nat]}; closing := closing s2;
                         nextBrowser := 1 |}).
  { cbn [exec]. rewrite Hl2, L1, lookup_insert_eq, Hx2. reflexivity. }
  cbn [app run]. rewrite E3. set (s3 := {| pool := pool s2 |}).
  assert (E4 : exec (Resume 0) s3
               = Some (setCall
                         (setPool s3 {| browser := Some 0%nat; browserLaunchPromise := None;
                                        contextCount := 0 |})
                         0%nat (Returned (Some 0%nat) 0%nat))).
  { cbn [exec]. subst s3. cbn [calls launches].
    rewrite Hout2 by (intros Hc; apply List.in_seq in Hc; lia).
    rewrite C1, !lookup_insert_eq. reflexivity. }
  cbn [List.map run]. rewrite E4. set (s4 := setCall _ _ _).
  destruct (run_resume_shared 0 0 (seq 1 n) s4) as (s5 & -> & Hp5 & Hn5 & Hin5 & Hout5).
  { subst s4 s3. simpl. apply lookup_insert_eq. }
  { apply List.seq_NoDup. }
  { intros c Hc. subst s4 s3. simpl. apply List.in_seq in Hc as Hc'.
    rewrite lookup_insert_ne by lia. apply Hin2. exact Hc. }
  exists s5. split; [reflexivity|]. split; [|split].
  - rewrite Hn5. subst s4 s3. simpl. rewrite Hn2. reflexivity.
  - rewrite Hp5. subst s4 s3. reflexivity.
  - intros c Hc. destruct c as [|c].
    + rewrite Hout5; [subst s4; simpl; apply lookup_insert_eq|].
      intros H. apply List.in_seq in H. lia.
    + apply Hin5. apply List.in_seq. lia.
Qed.

(** C4. In every state the pool can reach, whatever the interleaving of
    the calls: at most one launch is pending, and the marker names it; a
    call of [getBrowser] that starts while a launch is pending starts no
    launch and waits for that one; every call that waits for a launch,
    the one that started it included, settles as that launch does, so all
    of them return the same browser; the call that launched clears the
    marker when it resumes, after success and after failure; a transition
    sets the context counter to 0 when it is the resumption of the launching
    call on a successful launch, and leaves it or increments it otherwise;
    and [n + 1] overlapping calls on an empty pool make one launch and all
    return its browser. *)
Theorem getBrowser_single_flight (s : System) :
  reachable s ->
  (forall p q, launches s !! p = Some Pending -> launches s !! q = Some Pending -> p = q)
  /\ (forall p, launches s !! p = Some Pending ->
        browserLaunchPromise (pool s) = Some p)
  /\ (forall p c s', launches s !! p = Some Pending -> exec (Enter c) s = Some s' ->
        calls s' !! c = Some (AwaitingShared p)
        /\ launches s' = launches s /\ launchCount s' = launchCount s
        /\ pool s' = pool s)
  /\ (forall c p s',
        calls s !! c = Some (AwaitingLaunch p) \/ calls s !! c = Some (AwaitingShared p) ->
        exec (Resume c) s = Some s' ->
        (exists b, launches s !! p = Some (Fulfilled b)
                   /\ calls s' !! c = Some (Returned (Some p) b))
        \/ (launches s !! p = Some Failed /\ calls s' !! c = Some (Threw p)))
  /\ (forall c c' p b b',
        calls s !! c = Some (Returned (Some p) b) ->
        calls s !! c' = Some (Returned (Some p) b') -> b = b')
  /\ (forall c p s', calls s !! c = Some (AwaitingLaunch p) ->
        exec (Resume c) s = Some s' -> browserLaunchPromise (pool s') = None)
  /\ (forall e s', exec e s = Some s' ->
        (forall b, launchSucceeds e s b ->
           contextCount (pool s') = 0%nat /\ browser (pool s') = Some b)
        /\ ((forall b, ~ launchSucceeds e s b) ->
            contextCount (pool s') = contextCount (pool s)
            \/ contextCount (pool s') = S (contextCount (pool s))))
  /\ (forall n, exists s',
        run (concurrentCalls n) initial = Some s'
        /\ launchCount s' = 1%nat
        /\ forall c, (c <= n)%nat -> calls s' !! c = Some (Returned (Some 0%nat) 0%nat)).
Proof.
  intros Hr. apply Inv_reachable in Hr as [I1 I2 I3 I4 I5 I6].
  split.
  { intros p q Hp Hq. destruct (I1 p Hp) as [Hm _], (I1 q Hq) as [Hm' _]. congruence. }
  split.
  { intros p Hp. apply I1, Hp. }
  split.
  { intros p c s' Hp He. simpl in He.
    destruct (calls s !! c); [discriminate|]. injection He as <-.
    destruct (I1 p Hp) as [Hm Hb]. unfold enter, launchOrShare. rewrite Hb, Hm.
    simpl. rewrite lookup_insert_eq. done. }
  split.
  { intros c p s' Hc He. simpl in He.
    destruct Hc as [Hc|Hc]; rewrite Hc in He;
      destruct (launches s !! p) as [[|b|]|]; try discriminate;
      injection He as <-; simpl; rewrite lookup_insert_eq; eauto. }
  split.
  { intros c c' p b b' Hc Hc'. apply I4 in Hc, Hc'. congruence. }
  split.
  { intros c p s' Hc He. simpl in He. rewrite Hc in He.
    destruct (launches s !! p) as [[|b|]|]; try discriminate;
      injection He as <-; done. }
  split.
  { intros e s' He. apply exec_counter. exact He. }
  intros n. destruct (concurrentCalls_one_launch n) as (s' & Hrun & Hn & _ & Hc).
  exists s'. auto.
Qed.

(** C9. On a reachable pool with a connected browser [b] and no launch
    pending, for calls that no other call overlaps: while the context
    counter is below 50, [getBrowser] returns [b] and changes nothing else;
    issuing [k] contexts with [getContext] up to the threshold keeps [b] and
    adds [k] to the counter; and after 50 contexts issued from a fresh
    browser, the next [getBrowser] hands [b] to [safeCloseBrowser] (whether
    or not the close succeeds), launches, and when the launch succeeds
    returns the new browser, which differs from [b], with the counter back
    at 0. *)
Theorem getBrowser_rotation (s : System) (b c : nat) (closeOk launchOk : bool) :
  reachable s ->
  browser (pool s) = Some b ->
  browserLaunchPromise (pool s) = None ->
  b ∈ connected s ->
  (forall d, (c <= d)%nat -> calls s !! d = None) ->
  ((contextCount (pool s) < MAX_CONTEXTS_PER_BROWSER)%nat ->
     getBrowser closeOk launchOk c s = Some (setCall s c (Returned None b)))
  /\ (forall k, (contextCount (pool s) + k <= MAX_CONTEXTS_PER_BROWSER)%nat ->
        issueContexts closeOk launchOk k c s
        = Some (withCount s (contextCount (pool s) + k)))
  /\ (contextCount (pool s) = 0%nat ->
      exists s50 s',
        issueContexts closeOk launchOk MAX_CONTEXTS_PER_BROWSER c s = Some s50
        /\ contextCount (pool s50) = MAX_CONTEXTS_PER_BROWSER
        /\ browser (pool s50) = Some b
        /\ getBrowser closeOk true (c + MAX_CONTEXTS_PER_BROWSER) s50 = Some s'
        /\ calls s' !! (c + MAX_CONTEXTS_PER_BROWSER)
           = Some (Returned (Some (launchCount s)) (nextBrowser s))
        /\ nextBrowser s <> b
        /\ pool s' = {| browser := Some (nextBrowser s); browserLaunchPromise := None;
                        contextCount := 0 |}
        /\ closing s' = closing s ++ [b]
        /\ launchCount s' = S (launchCount s)
        /\ nextBrowser s ∈ connected s').
Proof.
  intros Hr Hb Hm Hconn Hc.
  split; [|split].
  - intros Hn. apply getBrowser_below; auto.
  - intros k Hk. apply (issueContexts_below _ _ b); auto.
  - intros H0.
    pose proof (issueContexts_below closeOk launchOk b MAX_CONTEXTS_PER_BROWSER c s
                  Hb Hconn ltac:(lia) Hc) as Hissue.
    rewrite H0 in Hissue. simpl Nat.add in Hissue.
    set (s50 := withCount s MAX_CONTEXTS_PER_BROWSER) in *.
    destruct (getBrowser_rotates closeOk (c + MAX_CONTEXTS_PER_BROWSER) s50 b)
      as (s' & Hg & Hcall & Hpool & Hclosing & Hcount & Hnew); try done.
    { left. simpl. lia. }
    { simpl. apply Hc. lia. }
    exists s50, s'. repeat split; try done.
    apply Fresh_reachable in Hr as [F1 _]. apply F1 in Hb. simpl. lia.
Qed.

End PoolFacts.

(** The two theorems at work on concrete pools. *)
Lemma getBrowser_single_flight_witness :
  BrowserPool.reachable Scenarios.twoWaiting
  /\ forall p, BrowserPool.launches Scenarios.twoWaiting !! p = Some BrowserPool.Pending ->
       BrowserPool.browserLaunchPromise (BrowserPool.pool Scenarios.twoWaiting) = Some p.
Proof.
  assert (Hr : BrowserPool.reachable Scenarios.twoWaiting).
  { exists [BrowserPool.Enter 0; BrowserPool.Enter 1]. reflexivity. }
  split; [exact Hr|].
  exact (proj1 (proj2 (getBrowser_single_flight Scenarios.twoWaiting Hr))).
Defined.

Lemma getBrowser_rotation_witness :
  BrowserPool.reachable Scenarios.warmPool
  /\ exists s50 s',
       BrowserPool.issueContexts true true 50 1 Scenarios.warmPool = Some s50
       /\ BrowserPool.getBrowser true true 51 s50 = Some s'
       /\ BrowserPool.pool s'
          = {| BrowserPool.browser := Some 1%nat;
               BrowserPool.browserLaunchPromise := None;
               BrowserPool.contextCount := 0 |}
       /\ BrowserPool.closing s' = [0%nat].
Proof.
  assert (Hr : BrowserPool.reachable Scenarios.warmPool).
  { exists [BrowserPool.Enter 0; BrowserPool.Launched 0 true; BrowserPool.Resume 0].
    reflexivity. }
  split; [exact Hr|].
  destruct (getBrowser_rotation Scenarios.warmPool 0 1 true true Hr)
    as (_ & _ & Hrot).
  - reflexivity.
  - reflexivity.
  - vm_compute. set_solver.
  - intros d Hd. change (BrowserPool.calls Scenarios.warmPool)
      with (<[0%nat := BrowserPool.Returned (Some 0%nat) 0%nat]>
              (∅ : gmap nat BrowserPool.Call)).
    rewrite lookup_insert_ne by lia. apply lookup_empty.
  - destruct (Hrot eq_refl) as (s50 & s' & Hi & _ & _ & Hg & _ & _ & Hp & Hcl & _).
    exists s50, s'. repeat split; assumption.
Defined.

(** ** Strings, character by character *)

Section CharFacts.
Import JsString Chars.

Lemma allChars_app p s t : allChars p (s ++ t) = allChars p s && allChars p t.
Proof.
  induction s as [|c s IH]; [reflexivity|].
  rewrite append_String. cbn [allChars]. rewrite IH, andb_assoc. reflexivity.
Qed.

Lemma allChars_impl (p q : ascii -> bool) (s : string) :
  (forall c, p c = true -> q c = true) -> allChars p s = true -> allChars q s = true.
Proof.
  intros Hpq. induction s as [|c s IH]; [reflexivity|].
  cbn [allChars]. rewrite !andb_true_iff. intros [Hc Hs]. auto.
Qed.

End CharFacts.

(** ** The result parsers, as selections *)

Section ParserFacts.
Import JsString Parsers ParserSpec.

Lemma visit_accepted maxResults mk results el :
  visit maxResults mk results el =
  if (List.length results <? maxResults)%nat && accepted el
  then results ++ [pushed mk el] else results.
Proof.
  unfold visit, accepted, pushed.
  destruct (Nat.leb_spec maxResults (List.length results)) as [Hfull|Hroom].
  - destruct (Nat.ltb_spec (List.length results) maxResults); [lia|reflexivity].
  - destruct (Nat.ltb_spec (List.length results) maxResults); [|lia]. simpl.
    destruct (href el) as [u|]; [|rewrite andb_false_r; reflexivity].
    reflexivity.
Qed.

Lemma each_from maxResults mk els : forall results,
  each maxResults mk els results =
  results ++ firstn (maxResults - List.length results)
               (List.map (pushed mk) (List.filter accepted els)).
Proof.
  unfold each. induction els as [|el els IH]; intros results; simpl.
  - rewrite List.firstn_nil, List.app_nil_r. reflexivity.
  - rewrite IH, visit_accepted.
    destruct (Nat.ltb_spec (List.length results) maxResults) as [Hroom|Hfull]; simpl.
    + destruct (accepted el); [|reflexivity].
      rewrite List.length_app, <- List.app_assoc. simpl.
      replace (maxResults - List.length results)%nat
        with (S (maxResults - (List.length results + 1)))%nat by lia.
      reflexivity.
    + replace (maxResults - List.length results)%nat with 0%nat by lia.
      destruct (accepted el); reflexivity.
Qed.

Lemma each_firstAccepted maxResults mk els :
  each maxResults mk els [] = firstAccepted maxResults mk els.
Proof. rewrite each_from. simpl. rewrite Nat.sub_0_r. reflexivity. Qed.

Lemma firstAccepted_nil_iff maxResults mk els :
  firstAccepted maxResults mk els = [] <->
  maxResults = 0%nat \/ List.filter accepted els = [].
Proof.
  unfold firstAccepted. destruct maxResults as [|n]; simpl.
  - tauto.
  - destruct (List.filter accepted els); simpl; split; intros H; auto.
    + discriminate.
    + destruct H; discriminate.
Qed.

(** Two selections in a row: the second is used when the first yields
    nothing. *)
Lemma each_twice maxResults mk mk' primary secondary :
  match each maxResults mk primary [] with
  | [] => each maxResults mk' secondary []
  | r :: rs => r :: rs
  end
  = if (0 <? maxResults)%nat && existsb accepted primary
    then firstAccepted maxResults mk primary
    else firstAccepted maxResults mk' secondary.
Proof.
  assert (Hsel : (0 <? maxResults)%nat && existsb accepted primary = false
                 <-> firstAccepted maxResults mk primary = []).
  { rewrite firstAccepted_nil_iff, andb_false_iff, Nat.ltb_ge.
    assert (He : existsb accepted primary = false <-> List.filter accepted primary = []).
    { induction primary as [|el els IH]; simpl; [tauto|].
      destruct (accepted el); simpl; [split; discriminate|exact IH]. }
    rewrite He. split; intros [H|H]; auto; left; lia. }
  rewrite !each_firstAccepted. destruct Hsel as [Hto Hfrom].
  destruct (firstAccepted maxResults mk primary) eqn:Hp.
  - rewrite (Hfrom eq_refl). reflexivity.
  - destruct (_ && _); [reflexivity|]. discriminate (Hto eq_refl).
Qed.

Lemma firstAccepted_In maxResults mk els r :
  In r (firstAccepted maxResults mk els) ->
  exists el, In el els /\ accepted el = true /\ r = pushed mk el.
Proof.
  unfold firstAccepted. intros Hin. apply In_firstn in Hin.
  apply List.in_map_iff in Hin as (el & <- & Hel).
  apply List.filter_In in Hel as [Hel Hacc]. eauto.
Qed.

Lemma length_trimStart (s : string) : (String.length (trimStart s) <= String.length s)%nat.
Proof.
  induction s as [|c s IH]; [reflexivity|].
  cbn [trimStart]. destruct (isSpace c); simpl; lia.
Qed.

Lemma trimEnd_idem (s : string) : trimEnd (trimEnd s) = trimEnd s.
Proof.
  induction s as [|c s IH]; [reflexivity|].
  cbn [trimEnd]. destruct (trimEnd s) as [|d t] eqn:Ht.
  - destruct (isSpace c) eqn:Hc; [reflexivity|]. cbn [trimEnd]. rewrite Hc. reflexivity.
  - cbn [trimEnd]. cbn [trimEnd] in IH. rewrite IH. reflexivity.
Qed.

Lemma trimEnd_head (s : string) :
  match trimEnd s with
  | EmptyString => True
  | String c _ => exists s', s = String c s'
  end.
Proof.
  destruct s as [|c s]; [exact I|]. cbn [trimEnd].
  destruct (trimEnd s); [destruct (isSpace c)|]; eauto.
Qed.

Lemma trimStart_head (s : string) :
  match trimStart s with
  | EmptyString => True
  | String c _ => isSpace c = false
  end.
Proof.
  induction s as [|c s IH]; [exact I|].
  cbn [trimStart]. destruct (isSpace c) eqn:Hc; [exact IH|exact Hc].
Qed.

(** [trim] is idempotent. *)
Lemma trim_idem (s : string) : trim (trim s) = trim s.
Proof.
  unfold trim. set (t := trimStart s).
  assert (Hstart : trimStart (trimEnd t) = trimEnd t).
  { pose proof (trimEnd_head t) as Hh. pose proof (trimStart_head s) as Hs. fold t in Hs.
    destruct (trimEnd t) as [|c u]; [reflexivity|].
    destruct Hh as [t' Ht]. rewrite Ht in Hs. cbn [trimStart]. rewrite Hs. reflexivity. }
  rewrite Hstart. apply trimEnd_idem.
Qed.

Lemma pushed_bare timestamp (f : string -> string) (g : string -> string) el :
  accepted el = true ->
  bare (pushed (fun t u d => fresh timestamp t (f u) (g d)) el).
Proof.
  unfold accepted, pushed, bare, fresh. intros Hacc.
  apply andb_true_iff in Hacc as [Ht Hu]. simpl.
  rewrite trim_idem. auto 10.
Qed.

Lemma pushed_url timestamp (g : string -> string) el :
  accepted el = true ->
  truthy (url (pushed (fun t u d => fresh timestamp t u (g d)) el)) = true.
Proof.
  unfold accepted, pushed, fresh. intros Hacc.
  apply andb_true_iff in Hacc as [Ht Hu]. simpl.
  destruct (href el); [exact Hu|discriminate].
Qed.

(** X1. The Bing parser and the parser of the plain DuckDuckGo page return
    the first [maxResults] elements of their selection that have a title
    and a url, in the order of the page, as records. *)
Theorem parse_single_selection timestamp uddg (bing : BingPage) (ddg : DdgHtmlPage)
    (maxResults : nat) :
  parseBingResults timestamp bing maxResults
    = firstAccepted maxResults (fresh timestamp) (b_algo bing)
  /\ parseDuckDuckGoResults uddg timestamp ddg maxResults
     = firstAccepted maxResults
         (fun t u d => fresh timestamp t (match uddg u with Some c => c | None => u end) d)
         (resultElements ddg).
Proof. split; apply each_firstAccepted. Qed.

(** X2. The Brave parser and the parser of the rendered DuckDuckGo page
    read their second selection exactly when the first one yields no
    result, that is when [maxResults] is 0 or no element of the first
    selection has a title and a url; the second selection of the Brave
    parser drops the descriptions. *)
Theorem parse_fallback_selection timestamp (brave : BravePage) (ddg : DdgBrowserPage)
    (maxResults : nat) :
  parseBraveResults timestamp brave maxResults
    = (if (0 <? maxResults)%nat && existsb accepted (webSnippets brave)
       then firstAccepted maxResults (fresh timestamp) (webSnippets brave)
       else firstAccepted maxResults (fun t u _ => fresh timestamp t u "")
              (anySnippets brave))
  /\ parseDuckDuckGoBrowserResults timestamp ddg maxResults
     = (if (0 <? maxResults)%nat && existsb accepted (articles ddg)
        then firstAccepted maxResults (fresh timestamp) (articles ddg)
        else firstAccepted maxResults (fresh timestamp) (legacyResults ddg)).
Proof.
  split.
  - unfold parseBraveResults.
    rewrite <- (each_twice maxResults (fresh timestamp) (fun t u _ => fresh timestamp t u "")).
    destruct (each maxResults (fresh timestamp) (webSnippets brave) []); reflexivity.
  - unfold parseDuckDuckGoBrowserResults.
    rewrite <- (each_twice maxResults (fresh timestamp) (fresh timestamp)).
    destruct (each maxResults (fresh timestamp) (articles ddg) []); reflexivity.
Qed.

(** X3. Every record a parser returns has a non-empty, trimmed title, the
    status ['success'] and no content yet; the records of the three
    browser parsers also have a non-empty url. *)
Theorem parsed_results_wellformed timestamp uddg (brave : BravePage) (bing : BingPage)
    (ddgHtml : DdgHtmlPage) (ddg : DdgBrowserPage) (maxResults : nat) :
  List.Forall (fun r => bare r /\ truthy (url r) = true)
    (parseBingResults timestamp bing maxResults)
  /\ List.Forall (fun r => bare r /\ truthy (url r) = true)
       (parseBraveResults timestamp brave maxResults)
  /\ List.Forall (fun r => bare r /\ truthy (url r) = true)
       (parseDuckDuckGoBrowserResults timestamp ddg maxResults)
  /\ List.Forall bare (parseDuckDuckGoResults uddg timestamp ddgHtml maxResults).
Proof.
  assert (Hplain : forall els,
            List.Forall (fun r => bare r /\ truthy (url r) = true)
              (firstAccepted maxResults (fresh timestamp) els)).
  { intros els. apply List.Forall_forall. intros r Hr.
    apply firstAccepted_In in Hr as (el & _ & Hacc & ->). split.
    - apply (pushed_bare timestamp (fun u => u) (fun d => d) el Hacc).
    - apply (pushed_url timestamp (fun d => d) el Hacc). }
  assert (Hshort : forall els,
            List.Forall (fun r => bare r /\ truthy (url r) = true)
              (firstAccepted maxResults (fun t u _ => fresh timestamp t u "") els)).
  { intros els. apply List.Forall_forall. intros r Hr.
    apply firstAccepted_In in Hr as (el & _ & Hacc & ->). split.
    - apply (pushed_bare timestamp (fun u => u) (fun _ => "") el Hacc).
    - apply (pushed_url timestamp (fun _ => "") el Hacc). }
  split; [|split; [|split]].
  - unfold parseBingResults. rewrite each_firstAccepted. apply Hplain.
  - unfold parseBraveResults. rewrite !each_firstAccepted.
    destruct (firstAccepted maxResults (fresh timestamp) (webSnippets brave)) eqn:Hp.
    + rewrite each_firstAccepted. apply Hshort.
    + rewrite <- Hp. apply Hplain.
  - unfold parseDuckDuckGoBrowserResults. rewrite !each_firstAccepted.
    destruct (firstAccepted maxResults (fresh timestamp) (articles ddg)) eqn:Hp.
    + rewrite each_firstAccepted. apply Hplain.
    + rewrite <- Hp. apply Hplain.
  - unfold parseDuckDuckGoResults. rewrite each_firstAccepted.
    apply List.Forall_forall. intros r Hr.
    apply firstAccepted_In in Hr as (el & _ & Hacc & ->).
    apply (pushed_bare timestamp
             (fun u => match uddg u with Some c => c | None => u end) (fun d => d) el Hacc).
Qed.

End ParserFacts.

(** ** The fallback loop, in terms of its backends *)

Section SearchMore.
Import Quality SearchEngine SearchSpec.

Lemma iteration_cases cfg query len i a rs best :
  iteration cfg query len i a rs best =
  if returnsAtOnce cfg query a rs then Return {| results := rs; engine := name a |}
  else
    let best' := track cfg query a rs best in
    if (i =? len - 1)%nat then
      if Qle_bool (qualityThreshold cfg) (bestQuality best')
         || negb (enableQualityCheck cfg)
         || (0 <? List.length (bestResults best'))%nat
      then Return {| results := bestResults best'; engine := bestEngine best' |}
      else Continue best'
    else Continue best'.
Proof.
  unfold iteration, returnsAtOnce, track, score.
  destruct (Qle_bool (8 # 10) _ && negb (forceMultiEngine cfg)); [reflexivity|].
  destruct (Qle_bool (qualityThreshold cfg) _ && _ && _); [reflexivity|]. simpl.
  destruct (i =? len - 1)%nat; [|reflexivity].
  destruct (Qle_bool _ _ || negb _); [reflexivity|]. simpl. reflexivity.
Qed.

(** The loop passes over a prefix of backends none of which returns at
    once, as long as a backend follows, and tracks the best list on its
    way. *)
Lemma fallback_tracked cfg query numResults timeout len pre : forall i best,
  (i + List.length pre < len)%nat ->
  List.Forall (passedOver cfg query numResults timeout) pre ->
  forall rest,
    fallback cfg query numResults timeout len i (pre ++ rest) best
    = fallback cfg query numResults timeout len (i + List.length pre) rest
        (tracked cfg query numResults timeout pre best).
Proof.
  induction pre as [|a pre IH]; intros i best Hlen Hpre rest; simpl.
  - rewrite Nat.add_0_r. reflexivity.
  - apply List.Forall_cons_iff in Hpre as [Ha Hpre]. simpl in Hlen.
    unfold passedOver in Ha. unfold tracked; simpl. fold (tracked cfg query numResults timeout).
    replace (i + S (List.length pre))%nat with (S i + List.length pre)%nat by lia.
    unfold attempt in *.
    destruct (method a query numResults _) as [|rs]; [apply IH; [lia|done]|].
    destruct rs as [|r rs]; [apply IH; [lia|done]|].
    cbn [List.length Nat.ltb Nat.leb]. rewrite iteration_cases, Ha.
    destruct (Nat.eqb_spec i (len - 1)); [lia|]. cbn zeta.
    apply IH; [lia|done].
Qed.

(** X4. The first backend in the order of priority whose non-empty list
    passes one of the two tests of an early return wins, whatever the
    backends after it would have returned; the backends before it threw,
    found nothing, or found a list that passes neither test. *)
Theorem searchWith_first_at_once cfg pre a post query numResults timeout rs :
  List.Forall (passedOver cfg query numResults timeout) pre ->
  attempt query numResults timeout a = Returns rs ->
  rs <> [] ->
  returnsAtOnce cfg query a rs = true ->
  searchWith cfg (pre ++ a :: post) query numResults timeout
  = {| results := rs; engine := name a |}.
Proof.
  intros Hpre Ha Hne Hret. unfold searchWith.
  rewrite (fallback_tracked cfg query numResults timeout _ pre 0 noBest);
    [|rewrite List.length_app; simpl; lia|exact Hpre].
  simpl. unfold attempt in Ha. rewrite Ha.
  destruct rs as [|r rs]; [contradiction|].
  cbn [List.length Nat.ltb Nat.leb]. rewrite iteration_cases, Hret. reflexivity.
Qed.

Lemma searchWith_passed_over cfg pre a query numResults timeout :
  List.Forall (passedOver cfg query numResults timeout) (pre ++ [a]) ->
  searchWith cfg (pre ++ [a]) query numResults timeout
  = lastVerdict cfg (attempt query numResults timeout a)
      (tracked cfg query numResults timeout (pre ++ [a]) noBest).
Proof.
  intros Hall. apply List.Forall_app in Hall as [Hpre Ha].
  apply List.Forall_cons_iff in Ha as [Ha _].
  unfold searchWith.
  rewrite (fallback_tracked cfg query numResults timeout _ pre 0 noBest);
    [|rewrite List.length_app; simpl; lia|exact Hpre].
  unfold tracked at 2. rewrite fold_left_app. fold (tracked cfg query numResults timeout pre noBest).
  simpl. unfold passedOver in Ha. unfold lastVerdict. unfold attempt in *.
  destruct (method a query numResults _) as [|rs]; [reflexivity|].
  destruct rs as [|r rs]; [reflexivity|].
  cbn [List.length Nat.ltb Nat.leb]. rewrite iteration_cases, Ha.
  rewrite List.length_app. simpl.
  replace (List.length pre + 1 - 1)%nat with (List.length pre) by lia.
  rewrite Nat.eqb_refl. cbn zeta.
  destruct (Qle_bool _ _ || negb _ || _); reflexivity.
Qed.

Lemma track_quality cfg query a rs best :
  (bestQuality best <= bestQuality (track cfg query a rs best))%Q
  /\ (score cfg query rs <= bestQuality (track cfg query a rs best))%Q.
Proof.
  unfold track. destruct (Qlt_bool _ _) eqn:E; simpl.
  - apply Qlt_bool_iff in E. split; [apply Qlt_le_weak, E|apply Qle_refl].
  - split; [apply Qle_refl|]. unfold Qlt_bool in E.
    apply negb_false_iff, Qle_bool_iff in E. exact E.
Qed.

Lemma tracked_mono cfg query numResults timeout apps : forall best,
  (bestQuality best <= bestQuality (tracked cfg query numResults timeout apps best))%Q.
Proof.
  induction apps as [|a apps IH]; intros best; [apply Qle_refl|].
  unfold tracked; simpl. fold (tracked cfg query numResults timeout).
  eapply Qle_trans; [|apply IH].
  destruct (attempt query numResults timeout a) as [|[|r rs]]; try apply Qle_refl.
  apply track_quality.
Qed.

(** The best quality after the loop bounds the score of every non-empty
    list a backend returned. *)
Lemma tracked_bounds_every_score cfg query numResults timeout apps best a rs :
  In a apps ->
  attempt query numResults timeout a = Returns rs ->
  rs <> [] ->
  (score cfg query rs <= bestQuality (tracked cfg query numResults timeout apps best))%Q.
Proof.
  revert best. induction apps as [|b apps IH]; intros best Hin Ha Hne; [destruct Hin|].
  unfold tracked; simpl. fold (tracked cfg query numResults timeout).
  destruct Hin as [->|Hin]; [|apply IH; assumption].
  rewrite Ha. destruct rs as [|r rs]; [contradiction|].
  eapply Qle_trans; [|apply tracked_mono]. apply track_quality.
Qed.

(** The best triple is consistent: its quality is the score of its list,
    and the list is what the backend of its name returned. *)
Lemma tracked_consistent cfg query numResults timeout apps0 apps : forall best,
  (forall a, In a apps -> In a apps0) ->
  (bestResults best = [] /\ bestEngine best = "None" /\ bestQuality best = 0%Q)
  \/ (bestResults best <> [] /\ bestQuality best = score cfg query (bestResults best)
      /\ exists a, In a apps0 /\ bestEngine best = name a
           /\ attempt query numResults timeout a = Returns (bestResults best)) ->
  let best' := tracked cfg query numResults timeout apps best in
  (bestResults best' = [] /\ bestEngine best' = "None" /\ bestQuality best' = 0%Q)
  \/ (bestResults best' <> [] /\ bestQuality best' = score cfg query (bestResults best')
      /\ exists a, In a apps0 /\ bestEngine best' = name a
           /\ attempt query numResults timeout a = Returns (bestResults best')).
Proof.
  induction apps as [|a apps IH]; intros best Hsub Hb; [exact Hb|].
  unfold tracked; simpl. fold (tracked cfg query numResults timeout).
  apply IH; [intros b Hbin; apply Hsub; right; exact Hbin|].
  destruct (attempt query numResults timeout a) as [|[|r rs]] eqn:Ha; try exact Hb.
  unfold track. destruct (Qlt_bool _ _); [|exact Hb].
  right. simpl. split; [discriminate|]. split; [reflexivity|].
  exists a. split; [apply Hsub; left; reflexivity|]. split; [reflexivity|exact Ha].
Qed.

Lemma track_sound cfg query numResults timeout apps a r rs best :
  In a apps ->
  attempt query numResults timeout a = Returns (r :: rs) ->
  sound query numResults timeout apps (bestResults best) (bestEngine best) ->
  let best' := track cfg query a (r :: rs) best in
  sound query numResults timeout apps (bestResults best') (bestEngine best').
Proof.
  intros Hin Ha Hb. unfold track. destruct (Qlt_bool _ _); [|exact Hb].
  right. simpl. split; [discriminate|]. exists a. auto.
Qed.

Lemma fallback_sound cfg query numResults timeout apps len rest : forall i best,
  (forall a, In a rest -> In a apps) ->
  sound query numResults timeout apps (bestResults best) (bestEngine best) ->
  let r := fallback cfg query numResults timeout len i rest best in
  sound query numResults timeout apps (results r) (engine r).
Proof.
  induction rest as [|a rest IH]; intros i best Hsub Hb; simpl.
  - left. split; reflexivity.
  - assert (Hrest : forall b, In b rest -> In b apps) by (intros b Hbin; apply Hsub; right; exact Hbin).
    assert (Hin : In a apps) by (apply Hsub; left; reflexivity).
    destruct (method a query numResults _) as [|rs] eqn:Ha; [apply IH; assumption|].
    destruct rs as [|r rs]; [apply IH; assumption|].
    cbn [List.length Nat.ltb Nat.leb]. rewrite iteration_cases.
    destruct (returnsAtOnce cfg query a (r :: rs)).
    { right. simpl. split; [discriminate|]. exists a. auto. }
    cbn zeta.
    pose proof (track_sound cfg query numResults timeout apps a r rs best Hin Ha Hb) as Ht.
    cbn zeta in Ht.
    destruct (i =? len - 1)%nat; [|apply IH; assumption].
    destruct (Qle_bool _ _ || negb _ || _); [exact Ht|apply IH; assumption].
Qed.

(** X5. The answer of the loop is never made up: it is the empty list
    under the name "None", or a non-empty list under the name of a backend
    of the priority list that returned exactly that list. *)
Theorem searchWith_sound cfg apps query numResults timeout :
  let r := searchWith cfg apps query numResults timeout in
  sound query numResults timeout apps (results r) (engine r).
Proof.
  apply fallback_sound; [auto|]. left. split; reflexivity.
Qed.

Lemma score_nonneg cfg query rs : (0 <= score cfg query rs)%Q.
Proof.
  unfold score. destruct (enableQualityCheck cfg); [|discriminate].
  unfold assessResultQuality. destruct rs as [|r rs]; [apply Qle_refl|].
  destruct (queryWords query); [discriminate|]. unfold Qle; simpl; lia.
Qed.

Lemma forced_passedOver cfg query numResults timeout a :
  forceMultiEngine cfg = true -> passedOver cfg query numResults timeout a.
Proof.
  intros Hf. unfold passedOver, returnsAtOnce. rewrite Hf.
  destruct (attempt query numResults timeout a) as [|[|r rs]]; try exact I.
  simpl. rewrite !andb_false_r. reflexivity.
Qed.

Lemma lastVerdict_quality cfg query numResults timeout apps r rs :
  let best := tracked cfg query numResults timeout apps noBest in
  (bestQuality best
   <= score cfg query (results (lastVerdict cfg (Returns (r :: rs)) best)))%Q.
Proof.
  intros best.
  destruct (tracked_consistent cfg query numResults timeout apps apps noBest)
    as [(Hnil & _ & Hq)|(Hne & Hq & _)]; [auto|left; auto| |];
    fold best in Hnil || fold best in Hne; fold best in Hq.
  - rewrite Hq. apply score_nonneg.
  - unfold lastVerdict.
    destruct (Qle_bool _ _ || negb _ || _) eqn:E; simpl.
    + rewrite Hq. apply Qle_refl.
    + apply orb_false_iff in E as [_ E]. apply Nat.ltb_ge in E.
      destruct (bestResults best); [contradiction|simpl in E; lia].
Qed.

Lemma searchWith_forced_best_aux cfg pre a query numResults timeout r rs b rs' :
  List.Forall (passedOver cfg query numResults timeout) (pre ++ [a]) ->
  attempt query numResults timeout a = Returns (r :: rs) ->
  In b (pre ++ [a]) ->
  attempt query numResults timeout b = Returns rs' ->
  rs' <> [] ->
  (score cfg query rs'
   <= score cfg query (results (searchWith cfg (pre ++ [a]) query numResults timeout)))%Q.
Proof.
  intros Hall Ha Hin Hb Hne.
  rewrite (searchWith_passed_over cfg pre a query numResults timeout Hall), Ha.
  eapply Qle_trans; [|apply lastVerdict_quality].
  apply (tracked_bounds_every_score cfg query numResults timeout _ noBest b rs' Hin Hb Hne).
Qed.

(** X6. With [FORCE_MULTI_ENGINE_SEARCH] on, every backend is tried and
    the answer is decided at the last one: when the last backend returns a
    non-empty list, the answer is the best list seen (the first of the
    highest score), provided its score reaches the threshold, or quality is
    not checked, or some list scored above 0; in every other case, and
    whenever the last backend throws or finds nothing, the answer is the
    empty list under the name "None". *)
Theorem searchWith_forced_verdict cfg pre a query numResults timeout :
  forceMultiEngine cfg = true ->
  searchWith cfg (pre ++ [a]) query numResults timeout
  = lastVerdict cfg (attempt query numResults timeout a)
      (tracked cfg query numResults timeout (pre ++ [a]) noBest).
Proof.
  intros Hf. apply searchWith_passed_over.
  apply List.Forall_forall. intros b _. apply forced_passedOver, Hf.
Qed.

(** X7. With [FORCE_MULTI_ENGINE_SEARCH] on and a last backend that
    returns a non-empty list, no backend returned a non-empty list of a
    higher score than the list of the answer. *)
Theorem searchWith_forced_best cfg pre a query numResults timeout r rs b rs' :
  forceMultiEngine cfg = true ->
  attempt query numResults timeout a = Returns (r :: rs) ->
  In b (pre ++ [a]) ->
  attempt query numResults timeout b = Returns rs' ->
  rs' <> [] ->
  (score cfg query rs'
   <= score cfg query (results (searchWith cfg (pre ++ [a]) query numResults timeout)))%Q.
Proof.
  intros Hf. apply searchWith_forced_best_aux.
  apply List.Forall_forall. intros c _. apply forced_passedOver, Hf.
Qed.

End SearchMore.

Section SearchRuns.
Import Quality Parsers SearchEngine SearchSpec Scenarios Cases.

(** The three theorems at work on the query "weather london". Under the
    default configuration, with a first backend that throws and a Bing
    whose list scores 1/2, the list of Brave is returned at once; with all
    engines forced, the list of Bing, which scores 1, is the answer although
    the last backend scores 0, and no list scores higher than the answer. *)
Lemma searchWith_first_at_once_witness :
  returnsAtOnce defaultConfig "weather london"
    {| method := tryBrowserBraveSearch deps0 webBingMixedBraveGood; name := "Browser Brave" |}
    goodResults = true
  /\ searchWith defaultConfig (approaches deps0 webBingMixedBraveGood) "weather london" 5 10000
     = {| results := goodResults; engine := "Browser Brave" |}.
Proof.
  assert (Hat : returnsAtOnce defaultConfig "weather london"
                  {| method := tryBrowserBraveSearch deps0 webBingMixedBraveGood;
                     name := "Browser Brave" |}
                  goodResults = true) by (vm_compute; reflexivity).
  split; [exact Hat|].
  apply (searchWith_first_at_once defaultConfig
           [ {| method := tryBrowserDuckDuckGoSearch deps0 webBingMixedBraveGood;
                name := "Browser DuckDuckGo" |};
             {| method := tryBrowserBingSearch deps0 webBingMixedBraveGood;
                name := "Browser Bing" |} ]
           {| method := tryBrowserBraveSearch deps0 webBingMixedBraveGood;
              name := "Browser Brave" |}
           [ {| method := tryDuckDuckGoSearch deps0 webBingMixedBraveGood;
                name := "Axios DuckDuckGo" |} ]
           "weather london" 5 10000 goodResults).
  - repeat constructor.
  - vm_compute. reflexivity.
  - discriminate.
  - exact Hat.
Defined.

Lemma searchWith_forced_verdict_witness :
  forceMultiEngine forcedConfig = true
  /\ searchWith forcedConfig (approaches deps0 webGoodThenPoor) "weather london" 5 10000
     = {| results := goodResults; engine := "Browser Bing" |}.
Proof.
  split; [reflexivity|].
  refine (eq_trans
            (searchWith_forced_verdict forcedConfig
               [ {| method := tryBrowserDuckDuckGoSearch deps0 webGoodThenPoor;
                    name := "Browser DuckDuckGo" |};
                 {| method := tryBrowserBingSearch deps0 webGoodThenPoor;
                    name := "Browser Bing" |};
                 {| method := tryBrowserBraveSearch deps0 webGoodThenPoor;
                    name := "Browser Brave" |} ]
               {| method := tryDuckDuckGoSearch deps0 webGoodThenPoor;
                  name := "Axios DuckDuckGo" |}
               "weather london" 5 10000 eq_refl) _).
  vm_compute. reflexivity.
Defined.

Lemma searchWith_forced_best_witness :
  forceMultiEngine forcedConfig = true
  /\ (score forcedConfig "weather london" mixedResults
      <= score forcedConfig "weather london"
           (results (searchWith forcedConfig (approaches deps0 webGoodThenPoor)
                       "weather london" 5 10000)))%Q.
Proof.
  split; [reflexivity|].
  apply (searchWith_forced_best forcedConfig
           [ {| method := tryBrowserDuckDuckGoSearch deps0 webGoodThenPoor;
                name := "Browser DuckDuckGo" |};
             {| method := tryBrowserBingSearch deps0 webGoodThenPoor;
                name := "Browser Bing" |};
             {| method := tryBrowserBraveSearch deps0 webGoodThenPoor;
                name := "Browser Brave" |} ]
           {| method := tryDuckDuckGoSearch deps0 webGoodThenPoor;
              name := "Axios DuckDuckGo" |}
           "weather london" 5 10000
           (fresh timestamp0 "Cooking pasta" "https://b.example/pasta" "Recipes")
           [fresh timestamp0 "Chess openings" "https://e.example/chess" "Theory"]
           {| method := tryBrowserDuckDuckGoSearch deps0 webGoodThenPoor;
              name := "Browser DuckDuckGo" |}
           mixedResults).
  - reflexivity.
  - vm_compute. reflexivity.
  - left. reflexivity.
  - vm_compute. reflexivity.
  - discriminate.
Defined.

End SearchRuns.

(** ** The quality score, up to case and at its ends *)

Section QualityMore.
Import JsString Chars Quality QualitySpec.

Lemma lower_ascii_idem (c : ascii) : lower_ascii (lower_ascii c) = lower_ascii c.
Proof. destruct c as [[] [] [] [] [] [] [] []]; reflexivity. Qed.

Lemma toLowerCase_idem (s : string) : toLowerCase (toLowerCase s) = toLowerCase s.
Proof.
  induction s as [|c s IH]; [reflexivity|].
  cbn [toLowerCase]. rewrite lower_ascii_idem, IH. reflexivity.
Qed.

Lemma matches_lowered words r : matches words (lowered r) = matches words r.
Proof. unfold matches, lowered. cbn [title description]. rewrite !toLowerCase_idem. reflexivity. Qed.

Lemma matchCount_lowered words rs :
  matchCount words (List.map lowered rs) = matchCount words rs.
Proof.
  unfold matchCount. induction rs as [|r rs IH]; [reflexivity|].
  cbn [List.map List.filter]. rewrite matches_lowered.
  destruct (matches words r); cbn [List.length]; rewrite IH; reflexivity.
Qed.

(** X8. The score does not see the case of the query or of the titles and
    descriptions. *)
Theorem assessResultQuality_case_insensitive (rs : list SearchResult) (query : string) :
  assessResultQuality (List.map lowered rs) (toLowerCase query)
  = assessResultQuality rs query.
Proof.
  unfold assessResultQuality, queryWords. rewrite toLowerCase_idem.
  destruct rs as [|r rs]; [reflexivity|].
  cbn [List.map]. destruct (List.filter _ _) as [|w ws]; [reflexivity|].
  change (lowered r :: List.map lowered rs) with (List.map lowered (r :: rs)).
  rewrite matchCount_lowered, List.length_map. reflexivity.
Qed.

Lemma filter_all {A} (f : A -> bool) (l : list A) :
  List.length (List.filter f l) = List.length l <-> forallb f l = true.
Proof.
  induction l as [|x l IH]; [simpl; tauto|].
  pose proof (List.filter_length_le f l) as Hle.
  cbn [List.filter forallb]. destruct (f x); cbn [List.length andb].
  - rewrite <- IH. lia.
  - split; [lia|discriminate].
Qed.

Lemma filter_none {A} (f : A -> bool) (l : list A) :
  List.length (List.filter f l) = 0%nat <-> existsb f l = false.
Proof.
  induction l as [|x l IH]; [simpl; tauto|].
  cbn [List.filter existsb]. destruct (f x); cbn [List.length orb].
  - split; [lia|discriminate].
  - exact IH.
Qed.

(** X9. On a non-empty list and a query with a word of more than three
    characters the score is 1 exactly when every result mentions a query
    word, and 0 exactly when none does. *)
Theorem assessResultQuality_extremes (rs : list SearchResult) (query : string) :
  rs <> [] -> queryWords query <> [] ->
  ((assessResultQuality rs query == 1)%Q
     <-> forallb (matches (queryWords query)) rs = true)
  /\ ((assessResultQuality rs query == 0)%Q
     <-> existsb (matches (queryWords query)) rs = false).
Proof.
  intros Hrs Hq. unfold assessResultQuality.
  destruct rs as [|r rs]; [contradiction|].
  destruct (queryWords query) as [|w ws] eqn:Hw; [contradiction|].
  rewrite <- filter_all, <- filter_none. fold (matchCount (w :: ws) (r :: rs)).
  set (m := matchCount _ _). set (n := List.length (r :: rs)).
  assert (Hn : n <> O) by (subst n; simpl; lia).
  unfold Qeq; simpl. rewrite (Zpos_of_nat n Hn). lia.
Qed.

Lemma split_ws_aux_chars (p : ascii -> bool) (s : string) : forall cur inws,
  allChars p cur = true ->
  allChars (fun c => isSpace c || p c) s = true ->
  List.Forall (fun w => allChars p w = true) (split_ws_aux cur inws s).
Proof.
  induction s as [|c s IH]; intros cur inws Hcur Hs; cbn [split_ws_aux].
  - constructor; [exact Hcur|constructor].
  - cbn [allChars] in Hs. apply andb_true_iff in Hs as [Hc Hs].
    destruct (isSpace c) eqn:Hsp.
    + destruct inws; [apply IH; assumption|].
      constructor; [exact Hcur|]. apply IH; [reflexivity|exact Hs].
    + apply IH; [|exact Hs]. rewrite allChars_app, Hcur. cbn [allChars].
      simpl in Hc. rewrite Hc. reflexivity.
Qed.

Lemma allChars_lower (s : string) :
  allChars (fun c => Ascii.eqb (lower_ascii c) c) (toLowerCase s) = true.
Proof.
  induction s as [|c s IH]; [reflexivity|].
  cbn [toLowerCase allChars]. rewrite lower_ascii_idem, Ascii.eqb_refl. exact IH.
Qed.

Lemma allChars_toLowerCase (s : string) :
  allChars (fun c => Ascii.eqb (lower_ascii c) c) s = true -> toLowerCase s = s.
Proof.
  induction s as [|c s IH]; [reflexivity|].
  cbn [allChars toLowerCase]. rewrite andb_true_iff. intros [Hc Hs].
  apply Ascii.eqb_eq in Hc. rewrite Hc, IH; [reflexivity|exact Hs].
Qed.

(** X10. The words the score looks for: each has more than three characters,
    none of them white space, and is in lower case. *)
Theorem queryWords_wellformed (query : string) :
  List.Forall
    (fun w => (3 < String.length w)%nat
              /\ allChars (fun c => negb (isSpace c)) w = true
              /\ toLowerCase w = w)
    (queryWords query).
Proof.
  apply List.Forall_forall. intros w Hw. apply queryWords_spec in Hw as [Hin Hlen].
  split; [exact Hlen|].
  pose proof (split_ws_aux_chars
                (fun c => negb (isSpace c) && Ascii.eqb (lower_ascii c) c)
                (toLowerCase query) EmptyString false eq_refl) as Hall.
  rewrite List.Forall_forall in Hall.
  assert (Hw : allChars (fun c => negb (isSpace c) && Ascii.eqb (lower_ascii c) c) w = true).
  { apply Hall; [|exact Hin].
    eapply allChars_impl; [|apply allChars_lower].
    intros c Hc. cbn beta. rewrite Hc. destruct (isSpace c); reflexivity. }
  split.
  - eapply allChars_impl; [|exact Hw]. intros c Hc. apply andb_true_iff in Hc. tauto.
  - apply allChars_toLowerCase. eapply allChars_impl; [|exact Hw].
    intros c Hc. apply andb_true_iff in Hc. tauto.
Qed.

End QualityMore.

Section QualityRuns.
Import JsString Quality Scenarios.

(** The theorem at work: of the two mixed hits one mentions the query, so
    the score is neither 0 nor 1. *)
Lemma assessResultQuality_extremes_witness :
  queryWords "weather london" <> []
  /\ ~ (assessResultQuality mixedResults "weather london" == 1)%Q
  /\ ~ (assessResultQuality mixedResults "weather london" == 0)%Q.
Proof.
  assert (Hq : queryWords "weather london" <> []) by (vm_compute; discriminate).
  split; [exact Hq|].
  destruct (assessResultQuality_extremes mixedResults "weather london"
              ltac:(discriminate) Hq) as [[Hone _] [Hzero _]].
  split; intros H.
  - apply Hone in H. vm_compute in H. discriminate H.
  - apply Hzero in H. vm_compute in H. discriminate H.
Defined.

End QualityRuns.

(** ** Content extraction: the two paths together *)

Section ExtractionMore.
Import JsString EnhancedContentExtractor ExtractorSpec.
Variable deps : Deps.
Variable self : Extractor.
Variable world : World.

Lemma isLowQualityContent_false content :
  isLowQualityContent content = false ->
  (100 <= String.length content)%nat
  /\ List.Forall (fun marker => includes content marker = false) botMarkers.
Proof.
  unfold isLowQualityContent, botMarkers. cbn [existsb].
  rewrite !orb_false_iff. intros (Hlen & H1 & H2 & H3 & H4 & H5 & H6 & _).
  apply Nat.ltb_ge in Hlen. split; [exact Hlen|].
  repeat constructor; assumption.
Qed.

Lemma length_substring0_le (n : nat) (s : string) :
  (String.length (substring0 n s) <= n)%nat.
Proof.
  unfold substring0. revert s. induction n as [|n IH]; intros s.
  - destruct s; simpl; lia.
  - destruct s as [|c s]; simpl; [lia|]. specialize (IH s). lia.
Qed.

(** X11. A text the lightweight path resolves to is the parsed body or its
    first [maxContentLength] characters; it has at least 100 characters and
    none of the bot markers; a non-zero [maxContentLength] bounds its
    length, and with [maxContentLength = 0] nothing is cut. *)
Theorem extractWithAxios_resolved options content :
  extractWithAxios deps self world options = Resolved content ->
  exists data,
    axiosGet world (optUrl options) (timeoutOf self options) = Resolved data
    /\ (content = parseContent deps data
        \/ content = substring0 (maxLengthOf self options) (parseContent deps data))
    /\ (100 <= String.length content)%nat
    /\ List.Forall (fun marker => includes content marker = false) botMarkers
    /\ (maxLengthOf self options <> O ->
        (String.length content <= maxLengthOf self options)%nat)
    /\ (maxLengthOf self options = O -> content = parseContent deps data).
Proof.
  unfold extractWithAxios. fold (maxLengthOf self options).
  destruct (axiosGet world _ _) as [data|e]; [|discriminate].
  set (m := maxLengthOf self options). set (c := parseContent deps data).
  intros H. exists data. split; [reflexivity|].
  destruct (Nat.eqb_spec m 0) as [Hm|Hm]; cbn [negb andb] in H.
  - destruct (isLowQualityContent c) eqn:Hq; [discriminate|]. injection H as <-.
    apply isLowQualityContent_false in Hq as [Hlen Hmk].
    repeat split; auto. contradiction.
  - destruct (Nat.ltb_spec m (String.length c)) as [Hlt|Hge];
      (destruct (isLowQualityContent _) eqn:Hq; [discriminate|]); injection H as <-;
      apply isLowQualityContent_false in Hq as [Hlen Hmk].
    + repeat split; auto; [intros _; apply length_substring0_le|contradiction].
    + repeat split; auto.
Qed.

Lemma shouldUseBrowser_low_quality url :
  shouldUseBrowser (PlainError "Low quality content detected - likely bot detection") url
  = Some true.
Proof. unfold shouldUseBrowser. cbn [existsb]. vm_compute. reflexivity. Qed.

(** X12. With a [maxContentLength] between 1 and 99 the lightweight path cannot
    succeed: whenever the site answers, the text is cut below 100
    characters, counts as low in quality, and the extraction is the
    browser's. *)
Theorem extractContent_small_limit_goes_to_browser options data :
  (0 < maxLengthOf self options < 100)%nat ->
  axiosGet world (optUrl options) (timeoutOf self options) = Resolved data ->
  extractWithAxios deps self world options
  = Rejected (PlainError "Low quality content detected - likely bot detection")
  /\ extractContent deps self world options = viaBrowser deps self world options.
Proof.
  intros [Hpos Hlt] Hget.
  assert (Hax : extractWithAxios deps self world options
                = Rejected (PlainError "Low quality content detected - likely bot detection")).
  { unfold extractWithAxios. fold (maxLengthOf self options). rewrite Hget.
    set (m := maxLengthOf self options) in *. set (c := parseContent deps data).
    assert (Hlow : forall s, (String.length s < 100)%nat -> isLowQualityContent s = true).
    { intros s Hs. unfold isLowQualityContent. cbn [existsb].
      apply Nat.ltb_lt in Hs. rewrite Hs. reflexivity. }
    destruct (Nat.eqb_spec m 0) as [Hm|Hm]; [lia|]. cbn [negb andb].
    destruct (Nat.ltb_spec m (String.length c)) as [Hc|Hc].
    - rewrite Hlow; [reflexivity|]. pose proof (length_substring0_le m c). lia.
    - rewrite Hlow; [reflexivity|]. lia. }
  split; [exact Hax|].
  unfold extractContent, viaBrowser. rewrite Hax, shouldUseBrowser_low_quality.
  reflexivity.
Qed.

(** [shouldUseBrowser] throws on the errors it cannot read, and on those
    only. *)
Lemma shouldUseBrowser_throws e url :
  shouldUseBrowser e url = None <-> inspectable e = false.
Proof.
  destruct e as [code status [|s|strings|] message|message| |];
    cbn [shouldUseBrowser inspectable evaluated dataIncludes errData];
    split; intros H; try reflexivity; discriminate H.
Qed.

Lemma shouldUseBrowser_jsHeavy e url :
  jsHeavy url = true ->
  shouldUseBrowser e url = if inspectable e then Some true else None.
Proof.
  unfold jsHeavy. intros H.
  destruct e as [code status [|s|strings|] message|message| |];
    cbn [shouldUseBrowser inspectable evaluated dataIncludes errData existsb];
    try reflexivity; f_equal;
    repeat (apply orb_true_iff in H as [H|H]); rewrite H, ?orb_true_r; reflexivity.
Qed.

(** X13. On the sites taken for heavy in scripts a lightweight failure that
    [shouldUseBrowser] can read never reaches the caller: the extraction
    is the lightweight text, or the browser's, or the combined error of the
    two paths. On a failure it cannot read ([null], [undefined], a
    response body that is an object or a number) the extraction rejects
    with the TypeError of [shouldUseBrowser], and the browser is not
    used. *)
Theorem extractContent_js_heavy options :
  jsHeavy (optUrl options) = true ->
  extractContent deps self world options
  = match extractWithAxios deps self world options with
    | Resolved content => Resolved content
    | Rejected e =>
        if inspectable e then viaBrowser deps self world options
        else Rejected (PlainError (typeErrorMessage deps e))
    end.
Proof.
  intros Hjs. unfold extractContent, viaBrowser.
  destruct (extractWithAxios deps self world options) as [c|e]; [reflexivity|].
  rewrite (shouldUseBrowser_jsHeavy e _ Hjs).
  destruct (inspectable e); reflexivity.
Qed.

Lemma filter_partition_length {A} (f g : A -> bool) (l : list A) :
  (forall x, In x l -> g x = negb (f x)) ->
  (List.length (List.filter f l) + List.length (List.filter g l))%nat = List.length l.
Proof.
  induction l as [|x l IH]; intros H; [reflexivity|].
  cbn [List.filter]. rewrite (H x (or_introl eq_refl)).
  destruct (f x); cbn [negb List.length]; rewrite <- IH; auto with datatypes; lia.
Qed.

Lemma filter_nil_of {A} (f : A -> bool) (l : list A) :
  (forall x, In x l -> f x = false) -> List.filter f l = [].
Proof.
  induction l as [|x l IH]; intros H; [reflexivity|].
  cbn [List.filter]. rewrite (H x (or_introl eq_refl)). apply IH.
  intros y Hy. apply H. right. exact Hy.
Qed.

Lemma isError_isSuccess r : isError r = negb (isSuccess r).
Proof. unfold isError, isSuccess. destruct (fetchStatus r); reflexivity. Qed.

(** X14. The batch returns the first [targetCount] successes in the order of the
    input, filled up with the first failures; the last [slice] cuts
    nothing; and the number of items returned is [targetCount] or the
    number of results processed, whichever is smaller. *)
Theorem extractContentForResults_shape (results : list SearchResult) (targetCount : nat) :
  let allResults :=
    List.map (extractOne deps self world) (resultsToProcess deps results targetCount) in
  let successfulResults := List.filter isSuccess allResults in
  let failedResults := List.filter isError allResults in
  extractContentForResults deps self world results targetCount
  = firstn targetCount successfulResults
    ++ firstn (targetCount - List.length successfulResults) failedResults
  /\ List.length (extractContentForResults deps self world results targetCount)
     = Nat.min targetCount (List.length (resultsToProcess deps results targetCount))
  /\ List.length (List.filter isSuccess
                    (extractContentForResults deps self world results targetCount))
     = Nat.min targetCount (List.length successfulResults).
Proof.
  intros allResults good bad. unfold extractContentForResults.
  fold allResults. fold good. fold bad.
  assert (Hpart : (List.length good + List.length bad)%nat = List.length allResults).
  { apply filter_partition_length. intros r _. apply isError_isSuccess. }
  assert (Hall : List.length allResults
                 = List.length (resultsToProcess deps results targetCount)).
  { apply List.length_map. }
  assert (Hlen : (List.length (firstn targetCount good
                    ++ firstn (Nat.max 0 (targetCount - List.length good)) bad)
                  <= targetCount)%nat).
  { rewrite List.length_app, !List.length_firstn. lia. }
  rewrite List.firstn_all2 by exact Hlen.
  replace (Nat.max 0 (targetCount - List.length good)) with (targetCount - List.length good)%nat
    by lia.
  split; [reflexivity|]. split.
  - rewrite List.length_app, !List.length_firstn. lia.
  - rewrite List.filter_app, List.length_app.
    assert (Hg : List.filter isSuccess (firstn targetCount good) = firstn targetCount good).
    { apply List.forallb_filter_id, forallb_forall. intros r Hr.
      apply In_firstn, List.filter_In in Hr. tauto. }
    assert (Hb : List.filter isSuccess (firstn (targetCount - List.length good) bad) = []).
    { apply filter_nil_of. intros r Hr.
      apply In_firstn, List.filter_In in Hr as [_ Hr].
      rewrite isError_isSuccess in Hr. apply negb_true_iff in Hr. exact Hr. }
    rewrite Hg, Hb, List.length_firstn. simpl. lia.
Qed.
End ExtractionMore.

Section ExtractionMoreRuns.
Import JsString EnhancedContentExtractor ExtractorSpec Scenarios Cases.

(** The three theorems at work: on the open site with a limit of 1000
    characters, with a limit of 50, and on a site heavy in scripts. *)
Lemma extractWithAxios_resolved_witness :
  extractWithAxios extractorDeps0 extractor0 worldOpen (articleOptions 1000)
    = Resolved (substring0 1000 longPage)
  /\ (100 <= String.length (substring0 1000 longPage) <= 1000)%nat.
Proof.
  assert (H : extractWithAxios extractorDeps0 extractor0 worldOpen (articleOptions 1000)
              = Resolved (substring0 1000 longPage)) by (vm_compute; reflexivity).
  split; [exact H|].
  destruct (extractWithAxios_resolved extractorDeps0 extractor0 worldOpen
              (articleOptions 1000) (substring0 1000 longPage) H)
    as (data & _ & _ & Hlow & _ & Hhigh & _).
  split; [exact Hlow|]. apply Hhigh. discriminate.
Defined.

Lemma extractContent_small_limit_goes_to_browser_witness :
  (0 < maxLengthOf extractor0 (articleOptions 50) < 100)%nat
  /\ extractContent extractorDeps0 extractor0 worldOpen (articleOptions 50)
     = viaBrowser extractorDeps0 extractor0 worldOpen (articleOptions 50).
Proof.
  assert (H : (0 < maxLengthOf extractor0 (articleOptions 50) < 100)%nat)
    by (unfold maxLengthOf; simpl; lia).
  split; [exact H|].
  exact (proj2 (extractContent_small_limit_goes_to_browser extractorDeps0 extractor0
                  worldOpen (articleOptions 50) longPage H eq_refl)).
Defined.

Lemma extractContent_js_heavy_witness :
  jsHeavy (optUrl redditOptions) = true
  /\ extractContent extractorDeps0 extractor0 worldNotFound redditOptions
     = Resolved longPage
  /\ extractContent extractorDeps0 extractor0 worldNotFoundJson redditOptions
     = Rejected (PlainError "error.response?.data?.includes is not a function").
Proof.
  assert (H : jsHeavy (optUrl redditOptions) = true) by (vm_compute; reflexivity).
  split; [exact H|]. split.
  - rewrite (extractContent_js_heavy extractorDeps0 extractor0 worldNotFound redditOptions H).
    vm_compute. reflexivity.
  - rewrite (extractContent_js_heavy extractorDeps0 extractor0 worldNotFoundJson
               redditOptions H).
    vm_compute. reflexivity.
Defined.

End ExtractionMoreRuns.

(** ** Browser sessions, call by call *)

Section SessionFacts.
Import JsString Parsers Session.
Variable platform : Platform.
Variable oracle : Oracle.

Ltac answer :=
  match goal with
  | |- context [oracle ?c ?n] => destruct (oracle c n) eqn:?
  end.

Ltac session :=
  unfold run, tryBrowserDuckDuckGoSearch, tryBrowserBraveSearch, tryBrowserBingSearch,
    tryDuckDuckGoSearch, extractWithBrowser, simulateHumanBehavior, closeAndRethrow,
    bind, tryCatch, await, ret, throw, occurrences;
  cbn [List.filter List.length app method Nat.eqb fst snd].

Ltac settle :=
  repeat (answer; cbn [List.filter List.length app method Nat.eqb fst snd]);
  cbn [List.head List.last afterClose isClose];
  repeat split; auto.

(** X15. No browser session leaves its context behind: when [getContext]
    rejects the session made no other call; otherwise its last call is
    [context.close()], and after the first [close] it awaits nothing but,
    when that [close] rejected, one more [close]. *)
Theorem sessions_leave_no_context query numResults url timeout :
  leavesNoContext oracle (run (tryBrowserDuckDuckGoSearch platform oracle query numResults timeout))
  /\ leavesNoContext oracle (run (tryBrowserBraveSearch platform oracle query numResults timeout))
  /\ leavesNoContext oracle (run (tryBrowserBingSearch platform oracle query numResults timeout))
  /\ leavesNoContext oracle (run (extractWithBrowser platform oracle url timeout)).
Proof.
  unfold leavesNoContext.
  split; [|split; [|split]]; session;
    (destruct (oracle GetContext 0%nat) eqn:Hg; [|reflexivity]); settle.
Qed.

Ltac outcome :=
  unfold toAttempt, pageOf, bingOutcome, standsOn, valueOf, ddgUrl, braveUrl, bingUrl;
  cbn [firstRejected];
  session;
  repeat (answer; cbn [List.filter List.length app method Nat.eqb fst snd]);
  congruence.

(** X16. What a browser session comes to. A selector that does not show
    up, and a failed simulation of a human, never fail a DuckDuckGo, Brave
    or extraction session: the session resolves exactly when the context,
    the page, the navigation, the markup and the closing of the context
    do, with the parse of the markup, and otherwise throws the first of
    these failures. The Bing session tolerates less: once its selector has
    not shown up the title of the page is read outside any handler, and
    its failure fails the session; and when the dump of the page got as far
    as reading the markup, the results are parsed from a second reading. *)
Theorem session_outcomes query numResults url timeout :
  snd (run (tryBrowserDuckDuckGoSearch platform oracle query numResults timeout))
  = standsOn oracle
      [(GetContext, 0); (NewPage, 0); (Goto (ddgUrl platform query) timeout, 0);
       (Content, 0); (Close, 0)]%nat
      (parseDuckDuckGoBrowserResults (generateTimestamp platform)
         (loadDdgBrowser platform (valueOf oracle Content 0)) numResults)
  /\ snd (run (tryBrowserBraveSearch platform oracle query numResults timeout))
     = standsOn oracle
         [(GetContext, 0); (NewPage, 0); (Goto (braveUrl platform query) timeout, 0);
          (Content, 0); (Close, 0)]%nat
         (parseBraveResults (generateTimestamp platform)
            (loadBrave platform (valueOf oracle Content 0)) numResults)
  /\ snd (run (extractWithBrowser platform oracle url timeout))
     = standsOn oracle
         [(GetContext, 0); (NewPage, 0); (Route, 0); (Goto url timeout, 0);
          (Content, 0); (Close, 0)]%nat
         (parseContent platform (valueOf oracle Content 0))
  /\ snd (run (tryBrowserBingSearch platform oracle query numResults timeout))
     = bingOutcome oracle (bingUrl platform query (Nat.min numResults 10)) timeout
         (fun html =>
            parseBingResults (generateTimestamp platform) (loadBing platform html)
              numResults).
Proof. split; [|split; [|split]]; outcome. Qed.

(** X17. The backends of the fallback loop are these sessions: with the
    pages the sessions obtain, each backend of [SearchEngine] returns or
    throws as its session does. *)
Theorem sessions_refine_backends sanitizeQuery query numResults timeout :
  let deps := depsOf platform sanitizeQuery in
  let web := webOf platform oracle in
  toAttempt (snd (run (tryBrowserDuckDuckGoSearch platform oracle query numResults timeout)))
    = SearchEngine.tryBrowserDuckDuckGoSearch deps web query numResults timeout
  /\ toAttempt (snd (run (tryBrowserBingSearch platform oracle query numResults timeout)))
     = SearchEngine.tryBrowserBingSearch deps web query numResults timeout
  /\ toAttempt (snd (run (tryBrowserBraveSearch platform oracle query numResults timeout)))
     = SearchEngine.tryBrowserBraveSearch deps web query numResults timeout
  /\ toAttempt (snd (run (tryDuckDuckGoSearch platform oracle query numResults timeout)))
     = SearchEngine.tryDuckDuckGoSearch deps web query numResults timeout.
Proof.
  unfold SearchEngine.tryBrowserDuckDuckGoSearch, SearchEngine.tryBrowserBingSearch,
    SearchEngine.tryBrowserBraveSearch, SearchEngine.tryDuckDuckGoSearch, depsOf, webOf.
  cbn [SearchEngine.ddgBrowser SearchEngine.bingBrowser SearchEngine.braveBrowser
       SearchEngine.ddgHtml SearchEngine.generateTimestamp SearchEngine.uddg].
  split; [|split; [|split]]; outcome.
Qed.

End SessionFacts.

(** ** BraveApiRateLimiter: pacing, restarts and the status *)

Section LimiterMore.
Import BraveApiRateLimiter BraveApiStatus.
Context {T E : Type}.









Lemma World_eta (w : World) : {| lim := lim w; disk := disk w |} = w.
Proof. destruct w; reflexivity. Qed.


Lemma step_wellFormed (w : World) (op : Op T E) :
  wellFormed (lim w) -> wellFormed (lim (step w op)).
Proof.
  intros Hwf. destruct op as [env fn|]; simpl.
  - now apply execute_wellFormed.
  - intros H. discriminate H.
Qed.

Lemma run_wellFormed (ops : list (Op T E)) : forall w,
  wellFormed (lim w) -> wellFormed (lim (run ops w)).
Proof.
  unfold run. induction ops as [|op ops IH]; intros w Hwf; [exact Hwf|].
  simpl. apply IH, step_wellFormed, Hwf.
Qed.

Lemma step_nonneg (w : World) (op : Op T E) :
  wellFormed (lim w) ->
  (forall u, monthlyUsage (lim w) = Some u -> (0 <= count u)%Z) ->
  (forall u, disk w = Some u -> (0 <= count u)%Z) ->
  (forall u, monthlyUsage (lim (step w op)) = Some u -> (0 <= count u)%Z)
  /\ (forall u, disk (step w op) = Some u -> (0 <= count u)%Z).
Proof.
  intros Hwf Hl Hf. destruct op as [env fn|]; [|simpl; split; [discriminate|exact Hf]].
  assert (Hinit : forall u, monthlyUsage (init (lim w) (disk w) env) = Some u -> (0 <= count u)%Z).
  { unfold init, loadUsage. destruct (initialized (lim w)); [exact Hl|]. simpl.
    destruct (disk w) as [u0|]; [|intros u [= <-]; simpl; lia].
    destruct (String.eqb (month u0) (currentMonth env)); intros u [= <-]; simpl; [|lia].
    now apply Hf. }
  destruct (currentUsage_some (lim w) (disk w) env Hwf) as [usage Hu].
  pose proof (Hinit usage Hu) as Hpos.
  cbn [step lim disk].
  destruct (Z.le_gt_cases (maxRequestsPerMonth (lim w)) (count usage)) as [Hge|Hlt].
  - rewrite (execute_refused _ _ _ _ _ Hu Hge). simpl. auto.
  - destruct (execute_allowed _ _ _ fn _ Hu Hlt) as (wt & _ & ->).
    destruct fn; simpl; unfold saveUsage; split.
    + intros u [= <-]. simpl. lia.
    + destruct (writeOk env); [intros u [= <-]; simpl; lia|exact Hf].
    + intros u [= <-]. exact Hpos.
    + exact Hf.
Qed.

Lemma run_nonneg (ops : list (Op T E)) : forall w,
  wellFormed (lim w) ->
  (forall u, monthlyUsage (lim w) = Some u -> (0 <= count u)%Z) ->
  (forall u, disk w = Some u -> (0 <= count u)%Z) ->
  (forall u, monthlyUsage (lim (run ops w)) = Some u -> (0 <= count u)%Z)
  /\ (forall u, disk (run ops w) = Some u -> (0 <= count u)%Z).
Proof.
  unfold run. induction ops as [|op ops IH]; intros w Hwf Hl Hf; [simpl; auto|].
  simpl. destruct (step_nonneg w op Hwf Hl Hf) as [Hl' Hf'].
  apply IH; [apply step_wellFormed, Hwf|exact Hl'|exact Hf'].
Qed.

(** X21. The status adds up. On a limiter that started without a usage file,
    after any calls and restarts, [getStatus] resolves; what it reports as
    used lies between 0 and the limit, used and remaining sum to the limit,
    and nothing remains exactly when [execute] refuses. *)
Theorem getStatus_accounts (ops : list (Op T E)) (requestsPerSecond : Q) (cap : Z)
    (env : Env) :
  (0 <= cap)%Z ->
  let w := run ops {| lim := new requestsPerSecond cap; disk := None |} in
  exists status,
    fst (getStatus (lim w) (disk w) env) = Some status
    /\ monthlyLimit status = cap
    /\ (0 <= monthlyUsed status <= cap)%Z
    /\ (monthlyUsed status + monthlyRemaining status = cap)%Z
    /\ (forall fn : Settled T E,
          monthlyRemaining status = 0%Z <->
          result (execute (lim w) (disk w) env fn)
          = LimitReached cap (daysUntilReset env)).
Proof.
  intros Hcap w.
  assert (Hwf0 : wellFormed (new requestsPerSecond cap)) by (intros H; discriminate H).
  pose proof (run_wellFormed ops {| lim := new requestsPerSecond cap; disk := None |} Hwf0)
    as Hwf.
  pose proof (run_within (T := T) (E := E) ops
                {| lim := new requestsPerSecond cap; disk := None |} Hwf0 Hcap)
    as (Hc & Hheld & Hfile); [intros u H; discriminate H|intros u H; discriminate H|].
  pose proof (run_nonneg ops {| lim := new requestsPerSecond cap; disk := None |} Hwf0)
    as (Hlo & Hflo); [intros u H; discriminate H|intros u H; discriminate H|].
  fold w in Hwf, Hc, Hheld, Hfile, Hlo, Hflo. cbn [lim maxRequestsPerMonth new] in Hc, Hheld, Hfile.
  destruct (currentUsage_some (lim w) (disk w) env Hwf) as [usage Hu].
  assert (Hup : (count usage <= cap)%Z).
  { pose proof (init_within cap (lim w) (disk w) env Hcap Hheld Hfile) as Hin.
    apply Hin. exact Hu. }
  assert (Hdown : (0 <= count usage)%Z).
  { unfold currentUsage, init, loadUsage in Hu.
    destruct (initialized (lim w)); [now apply Hlo|]. simpl in Hu.
    destruct (disk w) as [u0|]; [|injection Hu as <-; simpl; lia].
    destruct (String.eqb (month u0) (currentMonth env)); injection Hu as <-; simpl; [|lia].
    now apply Hflo. }
  unfold getStatus. unfold currentUsage in Hu. cbn [fst]. rewrite Hu, init_cap, Hc.
  eexists. split; [reflexivity|]. cbn [monthlyLimit monthlyUsed monthlyRemaining].
  split; [reflexivity|]. split; [lia|]. split; [lia|].
  intros fn. split.
  - intros Hz. rewrite (execute_refused (lim w) (disk w) env fn usage Hu); [|lia].
    cbn [result]. rewrite Hc. reflexivity.
  - intros Hres. destruct (Z.eq_dec (cap - count usage)%Z 0%Z) as [Hz|Hnz]; [exact Hz|].
    exfalso.
    destruct (execute_allowed (lim w) (disk w) env fn usage Hu ltac:(lia)) as (wt & _ & Hex).
    rewrite Hex in Hres. destruct fn; discriminate Hres.
Qed.

End LimiterMore.

Section LimiterRuns.
Import BraveApiRateLimiter BraveApiStatus Scenarios Cases.




Lemma getStatus_accounts_witness :
  (0 <= 2000)%Z
  /\ exists status,
       fst (getStatus
              (lim (run (T := nat) (E := string)
                      [Call october (Resolves 7%nat); Restart; Call october (Rejects "down")]
                      {| lim := new 1 2000; disk := None |}))
              (disk (run (T := nat) (E := string)
                       [Call october (Resolves 7%nat); Restart; Call october (Rejects "down")]
                       {| lim := new 1 2000; disk := None |}))
              october)
       = Some status
       /\ (monthlyUsed status + monthlyRemaining status = 2000)%Z.
Proof.
  assert (Hcap : (0 <= 2000)%Z) by lia.
  split; [exact Hcap|].
  destruct (getStatus_accounts (T := nat) (E := string)
              [Call october (Resolves 7%nat); Restart; Call october (Rejects "down")]
              1 2000 october Hcap) as (status & Hs & _ & _ & Hsum & _).
  exists status. split; [exact Hs|exact Hsum].
Defined.

End LimiterRuns.

(** ** The monthly quota under overlapping calls *)

Section LimiterCallsFacts.
Import BraveApiRateLimiter LimiterCalls.
Context {T E : Type}.

Ltac segment :=
  repeat (cbn [run step app shared usageFile stages invoked
               monthlyUsage maxRequestsPerMonth lastRequestTime minIntervalMs initialized
               result limiter file invocationsOf];
          unfold at_stage, invoke, withUsage, bump, saveUsage;
          rewrite ?lookup_insert_eq, ?insert_insert_eq).

(** The segments of a call that runs alone come to what [execute] does as
    a whole: the same limiter, the same file, the same result, and one
    invocation of the operation unless the call is refused. *)
Lemma alone_is_execute (c : nat) (s : System T E) (env : Env) (fn : Settled T E) :
  stages s !! c = None ->
  run (alone c (shared s) (usageFile s) env fn) s
  = Some {| shared := limiter (execute (shared s) (usageFile s) env fn);
            usageFile := file (execute (shared s) (usageFile s) env fn);
            stages :=
              <[c := Returned (result (execute (shared s) (usageFile s) env fn))]> (stages s);
            invoked :=
              invoked s + invocationsOf (result (execute (shared s) (usageFile s) env fn)) |}.
Proof.
  destruct s as [[last minI cap mu ini] f st n].
  cbn [shared usageFile stages invoked]. intros Hc.
  unfold alone, execute, init.
  cbn [initialized monthlyUsage maxRequestsPerMonth lastRequestTime minIntervalMs].
  destruct ini; segment; rewrite Hc; segment.
  - destruct mu as [usage|]; segment.
    + destruct (cap <=? count usage)%Z; segment.
      * rewrite Nat.add_0_r. reflexivity.
      * destruct (now env - last <? minI)%Z; segment;
          destruct fn as [v|e]; segment;
          rewrite Nat.add_1_r; reflexivity.
    + rewrite Nat.add_0_r. reflexivity.
  - change (loadUsage f (inMonth (currentMonth env))) with (loadUsage f env).
    set (usage := loadUsage f env).
    destruct (cap <=? count usage)%Z; segment.
    + rewrite Nat.add_0_r. reflexivity.
    + destruct (now env - last <? minI)%Z; segment;
        destruct fn as [v|e]; segment;
        rewrite Nat.add_1_r; reflexivity.
Qed.

End LimiterCallsFacts.

Section LimiterCallsRuns.
Import BraveApiRateLimiter LimiterCalls Scenarios.

(** C3, the code at the failing input. The usage file holds 1999 of the
    2000 calls of October and two calls of [execute] overlap: both pass the
    check of the limit before either has counted, both operations are
    invoked and resolve, and the count the limiter holds and the count on
    file end at 2001, above the cap. One after the other, the first call
    fills the quota and the second is refused without invoking its
    operation. *)
Theorem execute_overlapping_calls_exceed_cap :
  option_map
    (fun s => (monthlyUsage (shared s), usageFile s, invoked s,
               stages s !! 0%nat, stages s !! 1%nat))
    (run twoCalls lastSlot)
  = Some (Some {| month := "2026-10"; count := 2001 |},
          Some {| month := "2026-10"; count := 2001 |},
          2%nat,
          Some (Returned (Ok 7%nat)), Some (Returned (Ok 8%nat)))
  /\ maxRequestsPerMonth (shared lastSlot) = 2000%Z
  /\ (let first :=
        execute (E := string) (shared lastSlot) (usageFile lastSlot) october
          (Resolves 7%nat) in
      let second :=
        execute (E := string) (limiter first) (file first) octoberNext (Resolves 8%nat) in
      result first = Ok 7%nat
      /\ result second = LimitReached 2000 12
      /\ events second = []
      /\ file second = Some {| month := "2026-10"; count := 2000 |}).
Proof. repeat split; vm_compute; reflexivity. Qed.

End LimiterCallsRuns.

(** ** BrowserPool: one caller at a time, overlapping callers, shutdown *)

Section PoolMore.
Import BrowserPool PoolUse.

Lemma Quiet_initial : Quiet 0 initial.
Proof. split; simpl; [reflexivity|unfold MAX_CONTEXTS_PER_BROWSER; lia|intros; apply lookup_empty]. Qed.

Ltac lookups :=
  repeat (rewrite ?lookup_insert_eq; simpl).

Lemma getContext_quiet closeOk launchOk c s :
  Quiet c s ->
  exists s', getContext closeOk launchOk c s = Some s' /\ Quiet (S c) s'.
Proof.
  intros [Hm Hn Hc].
  assert (Hcc : calls s !! c = None) by (apply Hc; lia).
  assert (Hfr : forall d, (S c <= d)%nat -> calls s !! d = None) by (intros d Hd; apply Hc; lia).
  assert (H50 : (1 <= MAX_CONTEXTS_PER_BROWSER)%nat) by (unfold MAX_CONTEXTS_PER_BROWSER; lia).
  destruct (browser (pool s)) as [b|] eqn:Hb.
  - destruct (bool_decide (b ∈ connected s)
              && (contextCount (pool s) <? MAX_CONTEXTS_PER_BROWSER)%nat) eqn:Hok.
    + apply andb_true_iff in Hok as [Hconn Hlt].
      apply bool_decide_eq_true in Hconn. apply Nat.ltb_lt in Hlt.
      rewrite (getContext_below closeOk launchOk c s b Hb Hconn Hlt Hcc).
      eexists. split; [reflexivity|]. split; simpl; [exact Hm|lia|exact Hfr].
    + unfold getContext, getBrowser. simpl. rewrite Hcc.
      unfold enter. rewrite Hb, Hok. simpl. rewrite lookup_insert_eq.
      unfold afterClose, launchOrShare.
      destruct closeOk, launchOk; simpl; rewrite Hm; lookups.
      all: eexists; split; [reflexivity|]; split; simpl; try done.
      all: intros d Hd; rewrite ?lookup_delete_ne by lia;
        rewrite !lookup_insert_ne by lia; apply Hfr; exact Hd.
  - unfold getContext, getBrowser. simpl. rewrite Hcc.
    unfold enter, launchOrShare. rewrite Hb, Hm.
    destruct launchOk; lookups.
    all: eexists; split; [reflexivity|]; split; simpl; try done.
    all: intros d Hd; rewrite ?lookup_delete_ne by lia;
      rewrite !lookup_insert_ne by lia; apply Hfr; exact Hd.
Qed.

(** X22. Used by one caller at a time, the pool never gets stuck and never
    counts more than 50 contexts on a browser, whatever closes and launches
    fail and whatever browsers disconnect in between. *)
Theorem sequential_use_keeps_threshold (uses : list Use) :
  exists s,
    useAll uses 0 initial = Some s
    /\ (contextCount (pool s) <= MAX_CONTEXTS_PER_BROWSER)%nat
    /\ browserLaunchPromise (pool s) = None.
Proof.
  assert (H : forall c s0, Quiet c s0 ->
            exists s c', useAll uses c s0 = Some s /\ Quiet c' s).
  { induction uses as [|[closeOk launchOk|b] uses IH]; intros c s0 Hq.
    - exists s0, c. split; [reflexivity|exact Hq].
    - cbn [useAll].
      destruct (getContext_quiet closeOk launchOk c s0 Hq) as (s1 & -> & Hq1).
      apply (IH (S c) s1 Hq1).
    - cbn [useAll exec]. apply IH. destruct Hq as [Hm Hn Hc]. split; simpl; assumption. }
  destruct (H 0%nat initial Quiet_initial) as (s & c' & Hrun & [Hm Hn _]).
  exists s. auto.
Qed.

Lemma run_enters b : forall n a s,
  browser (pool s) = Some b -> b ∈ connected s ->
  (contextCount (pool s) < MAX_CONTEXTS_PER_BROWSER)%nat ->
  (forall d, (a <= d)%nat -> calls s !! d = None) ->
  exists s',
    run (List.map Enter (seq a n)) s = Some s'
    /\ pool s' = pool s /\ launchCount s' = launchCount s /\ closing s' = closing s
    /\ launches s' = launches s
    /\ (forall d, (d < a)%nat -> calls s' !! d = calls s !! d)
    /\ (forall d, (a <= d < a + n)%nat -> calls s' !! d = Some (Returned None b)).
Proof.
  induction n as [|n IH]; intros a s Hb Hconn Hlt Hc.
  - exists s. repeat split; try reflexivity. intros d Hd. lia.
  - cbn [seq List.map run exec]. rewrite (Hc a) by lia.
    unfold enter. rewrite Hb, (bool_decide_eq_true_2 _ Hconn).
    apply Nat.ltb_lt in Hlt as Hlt'. rewrite Hlt'. cbn [andb].
    destruct (IH (S a) (setCall s a (Returned None b)))
      as (s' & Hr & Hp & Hl & Hcl & Hla & Hout & Hin); try assumption.
    { intros d Hd. simpl. rewrite lookup_insert_ne by lia. apply Hc. lia. }
    exists s'. split; [exact Hr|]. repeat split; try assumption.
    + intros d Hd. rewrite Hout by lia. simpl. apply lookup_insert_ne. lia.
    + intros d Hd. destruct (decide (d = a)) as [->|Hne]; [|apply Hin; lia].
      rewrite Hout by lia. simpl. apply lookup_insert_eq.
Qed.

Lemma run_issues : forall n a s,
  (forall d, (a <= d < a + n)%nat -> exists via b, calls s !! d = Some (Returned via b)) ->
  exists s',
    run (List.map Issue (seq a n)) s = Some s'
    /\ contextCount (pool s') = (contextCount (pool s) + n)%nat
    /\ browser (pool s') = browser (pool s)
    /\ browserLaunchPromise (pool s') = browserLaunchPromise (pool s)
    /\ launchCount s' = launchCount s /\ closing s' = closing s
    /\ launches s' = launches s.
Proof.
  induction n as [|n IH]; intros a s Hc.
  - exists s. repeat split; try reflexivity. simpl. lia.
  - cbn [seq List.map run exec].
    destruct (Hc a ltac:(lia)) as (via & b & Ha). rewrite Ha.
    match goal with |- context [run _ ?x] => set (s1 := x) end.
    destruct (IH (S a) s1) as (s' & Hr & Hn & Hb & Hm & Hl & Hcl & Hla).
    { intros d Hd. subst s1. simpl. rewrite lookup_delete_ne by lia. apply Hc. lia. }
    exists s'. split; [exact Hr|]. rewrite Hn, Hb, Hm, Hl, Hcl, Hla. subst s1. simpl.
    repeat split; try reflexivity. lia.
Qed.

(** X23. Calls that overlap defeat the threshold. On a connected browser below
    the threshold, any number of calls of [getContext] that all obtain the
    browser before the first of them counts its context are all served by
    that browser: the counter ends at its old value plus the number of
    calls, and no browser is closed or launched. *)
Theorem overlapping_calls_pass_threshold (s : System) (b a n : nat) :
  browser (pool s) = Some b ->
  b ∈ connected s ->
  (contextCount (pool s) < MAX_CONTEXTS_PER_BROWSER)%nat ->
  (forall d, (a <= d)%nat -> calls s !! d = None) ->
  exists s',
    run (overlapping a n) s = Some s'
    /\ contextCount (pool s') = (contextCount (pool s) + n)%nat
    /\ browser (pool s') = Some b
    /\ launchCount s' = launchCount s
    /\ closing s' = closing s.
Proof.
  intros Hb Hconn Hlt Hc. unfold overlapping. rewrite run_app.
  destruct (run_enters b n a s Hb Hconn Hlt Hc) as (s1 & -> & Hp & Hl & Hcl & _ & _ & Hin).
  destruct (run_issues n a s1) as (s2 & Hr & Hn & Hb2 & _ & Hl2 & Hcl2 & _).
  { intros d Hd. exists None, b. apply Hin. exact Hd. }
  exists s2. split; [exact Hr|]. rewrite Hn, Hb2, Hl2, Hcl2, Hp, Hl, Hcl. auto.
Qed.

(** X24. [closeAll] hands the browser of the pool to [safeCloseBrowser] and
    forgets it, a second [closeAll] does nothing, and the next
    [getBrowser] launches a new browser and starts counting from 0;
    [closeAll] itself leaves the counter as it is. *)
Theorem closeAll_then_getBrowser (s : System) (b c : nat) (ok ok' closeOk : bool) :
  browser (pool s) = Some b ->
  browserLaunchPromise (pool s) = None ->
  calls s !! c = None ->
  closing (closeAll ok s) = closing s ++ [b]
  /\ contextCount (pool (closeAll ok s)) = contextCount (pool s)
  /\ closeAll ok' (closeAll ok s) = closeAll ok s
  /\ exists s',
       getBrowser closeOk true c (closeAll ok s) = Some s'
       /\ calls s' !! c = Some (Returned (Some (launchCount s)) (nextBrowser s))
       /\ pool s' = {| browser := Some (nextBrowser s); browserLaunchPromise := None;
                       contextCount := 0 |}
       /\ closing s' = closing s ++ [b].
Proof.
  intros Hb Hm Hc. unfold closeAll. rewrite Hb. cbn [closing pool contextCount browser].
  repeat split.
  unfold getBrowser. simpl. rewrite Hc. unfold enter, launchOrShare. simpl. rewrite Hm.
  lookups. eexists. split; [reflexivity|]. simpl. rewrite lookup_insert_eq. auto.
Qed.

End PoolMore.

Section PoolRuns.
Import BrowserPool PoolUse Scenarios.

(** The two theorems at work on the pool that has just launched its first
    browser: sixty overlapping calls are all served by that browser, and
    after [closeAll] the next call launches the second browser. *)
Lemma overlapping_calls_pass_threshold_witness :
  browser (pool warmPool) = Some 0%nat
  /\ exists s',
       run (overlapping 1 60) warmPool = Some s'
       /\ contextCount (pool s') = 60%nat
       /\ browser (pool s') = Some 0%nat
       /\ launchCount s' = 1%nat.
Proof.
  split; [reflexivity|].
  destruct (overlapping_calls_pass_threshold warmPool 0 1 60) as (s' & Hr & Hn & Hb & Hl & _).
  - reflexivity.
  - vm_compute. set_solver.
  - vm_compute. lia.
  - intros d Hd. change (calls warmPool)
      with (<[0%nat := Returned (Some 0%nat) 0%nat]> (∅ : gmap nat Call)).
    rewrite lookup_insert_ne by lia. apply lookup_empty.
  - exists s'. repeat split; assumption.
Defined.

Lemma closeAll_then_getBrowser_witness :
  browser (pool warmPool) = Some 0%nat
  /\ exists s',
       getBrowser true true 1 (closeAll true warmPool) = Some s'
       /\ pool s' = {| browser := Some 1%nat; browserLaunchPromise := None;
                       contextCount := 0 |}
       /\ closing s' = [0%nat].
Proof.
  split; [reflexivity|].
  destruct (closeAll_then_getBrowser warmPool 0 1 true true true)
    as (_ & _ & _ & s' & Hr & _ & Hp & Hcl).
  - reflexivity.
  - reflexivity.
  - change (calls warmPool)
      with (<[0%nat := Returned (Some 0%nat) 0%nat]> (∅ : gmap nat Call)).
    rewrite lookup_insert_ne by lia. apply lookup_empty.
  - exists s'. repeat split; assumption.
Defined.

End PoolRuns.

(** ** GarbageCollector: reading the process table, signalling *)

Section ReaperMore.
Import JsString Chars GarbageCollector Reaper.

Lemma span_app (p : ascii -> bool) (a b : string) :
  allChars p a = true -> stopsAt p b -> span p (a ++ b) = (a, b).
Proof.
  intros Ha Hb. induction a as [|c a IH].
  - rewrite append_Empty. destruct b as [|d b]; [reflexivity|].
    cbn [span]. simpl in Hb. rewrite Hb. reflexivity.
  - cbn [allChars] in Ha. apply andb_true_iff in Ha as [Hc Ha].
    rewrite append_String. cbn [span]. rewrite Hc, (IH Ha). reflexivity.
Qed.

Lemma span_spec (p : ascii -> bool) (s : string) :
  s = (fst (span p s) ++ snd (span p s))%string
  /\ allChars p (fst (span p s)) = true
  /\ stopsAt p (snd (span p s)).
Proof.
  induction s as [|c s IH]; [repeat split|].
  cbn [span]. destruct (p c) eqn:Hc.
  - destruct (span p s) as [taken rest]. cbn [fst snd] in *.
    destruct IH as (Hs & Ht & Hr). rewrite append_String, <- Hs.
    cbn [allChars]. rewrite Hc, Ht. repeat split. exact Hr.
  - cbn [fst snd]. repeat split. exact Hc.
Qed.

Lemma stopsAt_app (p q : ascii -> bool) (a b : string) :
  truthy a = true -> allChars q a = true ->
  (forall c, q c = true -> p c = false) -> stopsAt p (a ++ b).
Proof.
  intros Ht Ha Hpq. destruct a as [|c a]; [discriminate|].
  rewrite append_String. cbn [allChars] in Ha. apply andb_true_iff in Ha as [Hc _].
  simpl. apply Hpq, Hc.
Qed.

Lemma digit_no_space (c : ascii) : isDigit c = true -> isSpace c = false.
Proof.
  unfold isDigit, isSpace. set (n := nat_of_ascii c). intros H.
  apply andb_true_iff in H as [H1 H2]. apply Nat.leb_le in H1, H2.
  apply orb_false_iff. split.
  - apply andb_false_iff. right. apply Nat.leb_gt. lia.
  - apply Nat.eqb_neq. lia.
Qed.

Lemma space_no_digit (c : ascii) : isSpace c = true -> isDigit c = false.
Proof.
  intros Hs. destruct (isDigit c) eqn:Hd; [|reflexivity].
  apply digit_no_space in Hd. congruence.
Qed.

Lemma digitsValue_nonneg (digits : string) : forall acc,
  (0 <= acc)%Z -> allChars isDigit digits = true -> (0 <= digitsValue acc digits)%Z.
Proof.
  induction digits as [|c ds IH]; intros acc Hacc Hd; [exact Hacc|].
  cbn [allChars] in Hd. apply andb_true_iff in Hd as [Hc Hd].
  cbn [digitsValue]. apply IH; [|exact Hd].
  unfold isDigit in Hc. apply andb_true_iff in Hc as [H1 _]. apply Nat.leb_le in H1. lia.
Qed.

Lemma allDigits_uint (d : Decimal.uint) :
  allChars isDigit (NilEmpty.string_of_uint d) = true.
Proof. induction d; simpl; auto. Qed.

Lemma digitsValue_uint_acc (d : Decimal.uint) : forall acc : positive,
  digitsValue (Z.pos acc) (NilEmpty.string_of_uint d) = Z.pos (Pos.of_uint_acc d acc).
Proof.
  induction d; intros acc; cbn [NilEmpty.string_of_uint digitsValue Pos.of_uint_acc];
    [reflexivity|..];
    match goal with
    | |- digitsValue ?v _ = Z.pos (Pos.of_uint_acc _ ?a) =>
        replace v with (Z.pos a);
        [apply IHd
        |match goal with
         | |- context [Z.of_nat ?n] =>
             let x := eval vm_compute in (Z.of_nat n) in change (Z.of_nat n) with x
         end; lia]
    end.
Qed.

Lemma digitsValue_uint (d : Decimal.uint) :
  digitsValue 0 (NilEmpty.string_of_uint d) = Z.of_N (Pos.of_uint d).
Proof.
  induction d; cbn [NilEmpty.string_of_uint digitsValue Pos.of_uint];
    [reflexivity|exact IHd|..];
    match goal with
    | |- digitsValue ?v _ = Z.of_N (N.pos (Pos.of_uint_acc _ ?a)) =>
        change v with (Z.pos a)
    end; rewrite digitsValue_uint_acc; reflexivity.
Qed.

(** The decimal numeral of a natural number: digits only, at least one,
    and of the value of the number. *)
Lemma ofZ_digits (z : Z) :
  (0 <= z)%Z ->
  allChars isDigit (ofZ z) = true /\ truthy (ofZ z) = true /\ digitsValue 0 (ofZ z) = z.
Proof.
  intros Hz. destruct z as [|q|q]; [repeat split| |lia].
  unfold ofZ. cbn [Z.to_int NilEmpty.string_of_int].
  assert (Hv : digitsValue 0 (NilEmpty.string_of_uint (Pos.to_uint q)) = Z.pos q).
  { rewrite digitsValue_uint, DecimalPos.Unsigned.of_to. reflexivity. }
  split; [apply allDigits_uint|]. split; [|exact Hv].
  destruct (NilEmpty.string_of_uint (Pos.to_uint q)); [discriminate Hv|reflexivity].
Qed.

Lemma trimStart_stops (s : string) : stopsAt isSpace s -> trimStart s = s.
Proof. destruct s as [|c s]; [reflexivity|]. simpl. intros ->. reflexivity. Qed.

Lemma trimStart_spaces (pad s : string) :
  allChars isSpace pad = true -> trimStart (pad ++ s) = trimStart s.
Proof.
  induction pad as [|c pad IH]; [reflexivity|].
  cbn [allChars]. intros H. apply andb_true_iff in H as [Hc Hp].
  rewrite append_String. cbn [trimStart]. rewrite Hc. apply IH, Hp.
Qed.

Lemma trimEnd_app (a s : string) :
  truthy s = true -> trimEnd s = s -> trimEnd (a ++ s) = (a ++ s)%string.
Proof.
  intros Ht Hs. induction a as [|c a IH]; [exact Hs|].
  rewrite append_String. cbn [trimEnd]. rewrite IH.
  destruct (a ++ s)%string as [|d t] eqn:Has; [|reflexivity].
  destruct a; [|discriminate Has]. rewrite append_Empty in Has. subst s. discriminate Ht.
Qed.

Lemma tidy_ends (command : string) :
  tidy command -> stopsAt isSpace command /\ trimEnd command = command.
Proof.
  intros (Ht & Htrim & _). unfold trim in Htrim.
  pose proof (trimEnd_head (trimStart command)) as Hh.
  pose proof (trimStart_head command) as Hs.
  destruct command as [|c rest]; [discriminate Ht|].
  rewrite Htrim in Hh. destruct Hh as [s' Hs']. rewrite Hs' in Hs.
  assert (Hstart : trimStart (String c rest) = String c rest).
  { cbn [trimStart]. rewrite Hs. reflexivity. }
  split; [exact Hs|]. rewrite Hstart in Htrim. exact Htrim.
Qed.

Lemma parseInt_digits (digits : string) :
  allChars isDigit digits = true -> truthy digits = true ->
  parseInt digits = Some (digitsValue 0 digits).
Proof.
  intros Hd Ht. destruct digits as [|c ds]; [discriminate Ht|].
  cbn [allChars] in Hd. apply andb_true_iff in Hd as [Hc Hds].
  unfold parseInt. rewrite trimStart_stops by (simpl; apply digit_no_space, Hc).
  assert (Hsign : match String c ds with
                  | String "-" s' => (true, s')
                  | String "+" s' => (false, s')
                  | _ => (false, String c ds)
                  end = (false, String c ds)).
  { destruct c as [[] [] [] [] [] [] [] []]; try reflexivity; discriminate Hc. }
  rewrite Hsign.
  replace (String c ds) with (String c ds ++ "")%string at 1.
  2:{ clear. generalize (String c ds) as s. induction s as [|x s IH]; [reflexivity|].
      rewrite append_String, IH. reflexivity. }
  rewrite span_app; [reflexivity| |exact I].
  cbn [allChars]. rewrite Hc, Hds. reflexivity.
Qed.

Lemma truthy_app_r (a b : string) : truthy b = true -> truthy (a ++ b) = true.
Proof. intros Hb. destruct a; [exact Hb|reflexivity]. Qed.

Lemma matchRow_row (pad pidDigits gap1 etimeDigits gap2 command : string) :
  allChars isSpace pad = true ->
  allChars isDigit pidDigits = true -> truthy pidDigits = true ->
  allChars isSpace gap1 = true -> truthy gap1 = true ->
  allChars isDigit etimeDigits = true -> truthy etimeDigits = true ->
  allChars isSpace gap2 = true -> truthy gap2 = true ->
  tidy command ->
  matchRow (pad ++ pidDigits ++ gap1 ++ etimeDigits ++ gap2 ++ command)
  = Some (pidDigits, etimeDigits, command).
Proof.
  intros Hpad Hp Hpt Hg1 Hg1t He Het Hg2 Hg2t Htidy.
  destruct (tidy_ends command Htidy) as [Hhead Hend].
  destruct Htidy as (Hct & _ & Hlt).
  assert (S4 : stopsAt isSpace command) by exact Hhead.
  assert (S3 : stopsAt isDigit (gap2 ++ command))
    by (apply (stopsAt_app isDigit isSpace); auto using space_no_digit).
  assert (S2 : stopsAt isSpace (etimeDigits ++ gap2 ++ command))
    by (apply (stopsAt_app isSpace isDigit); auto using digit_no_space).
  assert (S1 : stopsAt isDigit (gap1 ++ etimeDigits ++ gap2 ++ command))
    by (apply (stopsAt_app isDigit isSpace); auto using space_no_digit).
  assert (S0 : stopsAt isSpace (pidDigits ++ gap1 ++ etimeDigits ++ gap2 ++ command))
    by (apply (stopsAt_app isSpace isDigit); auto using digit_no_space).
  assert (Htrim : trim (pad ++ pidDigits ++ gap1 ++ etimeDigits ++ gap2 ++ command)
                  = (pidDigits ++ gap1 ++ etimeDigits ++ gap2 ++ command)%string).
  { unfold trim. rewrite (trimStart_spaces pad _ Hpad), (trimStart_stops _ S0).
    repeat (apply trimEnd_app; [repeat apply truthy_app_r; exact Hct|]). exact Hend. }
  unfold matchRow. rewrite Htrim.
  rewrite (span_app isDigit pidDigits _ Hp S1).
  rewrite (span_app isSpace gap1 _ Hg1 S2).
  rewrite (span_app isDigit etimeDigits _ He S3).
  rewrite (span_app isSpace gap2 _ Hg2 S4).
  rewrite Hpt, Hg1t, Het, Hg2t, Hlt. reflexivity.
Qed.

(** X25. A row of the process table is read back as it was printed: for a
    process id and an age that are natural numbers and a tidy command
    line, the row made of the two numerals and the command line, separated
    by white space and indented by any white space, yields exactly that
    process. *)
Theorem parseLine_row (p e : Z) (pad gap1 gap2 command : string) :
  (0 <= p)%Z -> (0 <= e)%Z ->
  allChars isSpace pad = true ->
  allChars isSpace gap1 = true -> truthy gap1 = true ->
  allChars isSpace gap2 = true -> truthy gap2 = true ->
  tidy command ->
  parseLine (pad ++ ofZ p ++ gap1 ++ ofZ e ++ gap2 ++ command)
  = [ {| pid := p; etime := e; cmd := command |} ].
Proof.
  intros Hp He Hpad Hg1 Hg1t Hg2 Hg2t Htidy.
  destruct (ofZ_digits p Hp) as (Hpd & Hpt & Hpv).
  destruct (ofZ_digits e He) as (Hed & Het & Hev).
  unfold parseLine.
  rewrite (matchRow_row pad (ofZ p) gap1 (ofZ e) gap2 command); try assumption.
  rewrite (parseInt_digits (ofZ p) Hpd Hpt), (parseInt_digits (ofZ e) Hed Het), Hpv, Hev.
  reflexivity.
Qed.

Lemma matchRow_groups (line pidDigits etimeDigits command : string) :
  matchRow line = Some (pidDigits, etimeDigits, command) ->
  (allChars isDigit pidDigits = true /\ truthy pidDigits = true)
  /\ (allChars isDigit etimeDigits = true /\ truthy etimeDigits = true)
  /\ stopsAt isSpace command
  /\ allChars (fun c => negb (isLineTerminator c)) command = true.
Proof.
  unfold matchRow.
  pose proof (span_spec isDigit (trim line)) as (_ & H1 & _).
  destruct (span isDigit (trim line)) as [d1 r1]. cbn [fst snd] in H1.
  destruct (span isSpace r1) as [g1 r2].
  pose proof (span_spec isDigit r2) as (_ & H2 & _).
  destruct (span isDigit r2) as [d2 r3]. cbn [fst snd] in H2.
  pose proof (span_spec isSpace r3) as (_ & _ & H3).
  destruct (span isSpace r3) as [g2 r4]. cbn [fst snd] in H3.
  destruct (truthy d1 && truthy g1 && truthy d2 && truthy g2 && _) eqn:Hc; [|discriminate].
  intros [= <- <- <-].
  repeat (apply andb_true_iff in Hc as [Hc ?]). auto 10.
Qed.

(** X26. Whatever [ps] printed, the processes read from it have a process id
    and an age that are natural numbers, and a command line that does not
    start with white space and holds no line terminator; a failed command
    and an output of white space alone yield no process. *)
Theorem findChromeProcesses_wellformed (stdout : option string) :
  List.Forall
    (fun proc =>
       (0 <= pid proc)%Z /\ (0 <= etime proc)%Z
       /\ stopsAt isSpace (cmd proc)
       /\ allChars (fun c => negb (isLineTerminator c)) (cmd proc) = true)
    (findChromeProcesses stdout)
  /\ findChromeProcesses None = []
  /\ (forall out, trim out = "" -> findChromeProcesses (Some out) = []).
Proof.
  split; [|split; [reflexivity|intros out Hout; unfold findChromeProcesses; rewrite Hout;
                                reflexivity]].
  destruct stdout as [out|]; [|constructor]. unfold findChromeProcesses.
  destruct (negb (truthy (trim out))); [constructor|].
  apply List.Forall_forall. intros proc Hin.
  apply List.in_concat in Hin as (row & Hrow & Hin).
  apply List.in_map_iff in Hrow as (line & <- & _).
  unfold parseLine in Hin.
  destruct (matchRow line) as [[[d1 d2] c]|] eqn:Hm; [|destruct Hin].
  apply matchRow_groups in Hm as ((Hd1 & Ht1) & (Hd2 & Ht2) & Hs & Hl).
  rewrite (parseInt_digits d1 Hd1 Ht1), (parseInt_digits d2 Hd2 Ht2) in Hin.
  destruct Hin as [<-|[]]. cbn [pid etime cmd].
  repeat split; try assumption; apply digitsValue_nonneg; (lia || assumption).
Qed.

Lemma killProcess_sent (kernel : Kernel) (p q : Z) (sig : Signal) :
  In (q, sig) (sent (killProcess kernel p)) ->
  q = p
  /\ (sig = Probe -> kernel p SIGTERM = Delivered)
  /\ (sig = SIGKILL -> kernel p SIGTERM = Delivered /\ kernel p Probe = Delivered).
Proof.
  unfold killProcess.
  destruct (kernel p SIGTERM) eqn:Ht; [destruct (kernel p Probe) eqn:Hp|]; cbn [sent In];
    intros H; repeat (destruct H as [H|H]; [injection H as <- <-|]); try destruct H;
    repeat split; intros; try discriminate; auto.
Qed.

(** X27. A sweep signals nothing but what it should. Whatever [ps] printed
    and however the system answers, every signal of a sweep goes to a
    process of the table that is not the reaper itself, is older than the
    maximal age and has a command line that contains the word playwright;
    a probe follows a delivered SIGTERM, and a SIGKILL a delivered SIGTERM
    and a probe that found the process alive. The count of the sweep is the
    number of processes signalled, whether or not a signal was delivered. *)
Theorem sweepSignals_justified (kernel : Kernel) (config : GCConfig) (myPid : Z)
    (stdout : option string) :
  List.Forall
    (fun signal =>
       fst signal <> myPid
       /\ (exists proc, In proc (findChromeProcesses stdout)
              /\ pid proc = fst signal /\ doomed config myPid proc)
       /\ (snd signal = Probe -> kernel (fst signal) SIGTERM = Delivered)
       /\ (snd signal = SIGKILL ->
           kernel (fst signal) SIGTERM = Delivered /\ kernel (fst signal) Probe = Delivered))
    (sweepSignals kernel config myPid stdout)
  /\ killed (runGC config myPid (findChromeProcesses stdout))
     = List.length
         (List.filter (fun signal => match snd signal with SIGTERM => true | _ => false end)
            (sweepSignals kernel config myPid stdout)).
Proof.
  split.
  - apply List.Forall_forall. intros [q sig] Hin. unfold sweepSignals in Hin.
    apply List.in_concat in Hin as (row & Hrow & Hin).
    apply List.in_map_iff in Hrow as (p & <- & Hp).
    apply killProcess_sent in Hin as (-> & Hprobe & Hkill).
    unfold runGC in Hp. cbn [terminated] in Hp.
    apply sweep_spec in Hp as [[]|(proc & Hproc & Hpid & Hd)].
    cbn [fst snd]. split; [|split; [|split]].
    + destruct Hd as (Hne & _). congruence.
    + exists proc. auto.
    + exact Hprobe.
    + exact Hkill.
  - unfold sweepSignals, runGC. cbn [killed terminated].
    induction (fold_left (sweepOne config myPid) (findChromeProcesses stdout) [])
      as [|p ps IH]; [reflexivity|].
    cbn [List.map List.concat List.length]. rewrite List.filter_app, List.length_app, <- IH.
    unfold killProcess.
    destruct (kernel p SIGTERM); [destruct (kernel p Probe)|]; reflexivity.
Qed.

(** X28. The emergency cleanup never signals the reaper itself: whatever
    [pgrep] printed, the reaper's own process id is not among the process
    ids handed to [killProcess], each of which is what [parseInt] reads from
    a line of the output; a failed command and an output of white space
    alone hand over nothing. *)
Theorem killAllPlaywrightChromes_spares_self (myPid : Z) (stdout : option string) :
  List.Forall
    (fun p =>
       p <> myPid
       /\ exists out line, stdout = Some out
            /\ In line (splitLines EmptyString (trim out))
            /\ parseInt line = Some p)
    (killAllPlaywrightChromes myPid stdout)
  /\ killAllPlaywrightChromes myPid None = []
  /\ (forall out, trim out = "" -> killAllPlaywrightChromes myPid (Some out) = []).
Proof.
  split; [|split; [reflexivity|intros out Hout; unfold killAllPlaywrightChromes;
                                rewrite Hout; reflexivity]].
  destruct stdout as [out|]; [|constructor]. unfold killAllPlaywrightChromes.
  destruct (negb (truthy (trim out))); [constructor|].
  apply List.Forall_forall. intros p Hin.
  apply List.filter_In in Hin as [Hin Hne].
  apply negb_true_iff, Z.eqb_neq in Hne. split; [exact Hne|].
  apply List.in_concat in Hin as (row & Hrow & Hin).
  apply List.in_map_iff in Hrow as (line & <- & Hline).
  destruct (parseInt line) as [q|] eqn:Hq; [|destruct Hin].
  destruct Hin as [<-|[]]. eauto.
Qed.

End ReaperMore.

Section ReaperRuns.
Import JsString Chars GarbageCollector Reaper Scenarios.

(** The theorem at work on the row of the browser the automation engine
    left behind. *)
Lemma parseLine_row_witness :
  tidy (cmd orphanChrome)
  /\ parseLine
       "   7001    2400 /opt/google/chrome/chrome --user-data-dir=/tmp/playwright_chromiumdev_profile-Ab12"
     = [orphanChrome].
Proof.
  assert (Htidy : tidy (cmd orphanChrome)) by (repeat split; vm_compute; reflexivity).
  split; [exact Htidy|].
  exact (parseLine_row 7001 2400 "   " "    " " " (cmd orphanChrome)
           ltac:(lia) ltac:(lia) eq_refl eq_refl eq_refl eq_refl eq_refl Htidy).
Defined.

End ReaperRuns.

(** ** GarbageCollector: the timer and the instance of the module *)

Section CollectorFacts.
Import GarbageCollector Collector.
Variable gcVerbose : bool.

(** After any use of the module the timers are those of the instance. *)
Lemma timers_step op r : timers r = timersOf r ->
  timers (step gcVerbose r op) = timersOf (step gcVerbose r op).
Proof.
  intros Ht. unfold timersOf in *.
  destruct op; simpl; unfold startGarbageCollector, getGarbageCollector, start, stop;
    destruct (globalGC r) as [gc|] eqn:Hg; simpl; rewrite ?Hg; simpl;
    try (destruct (intervalHandle gc) as [h|] eqn:Hi; simpl; rewrite ?Hg, ?Hi; simpl);
    rewrite ?Ht; simpl; rewrite ?Nat.eqb_refl; try reflexivity; try assumption.
Qed.

Lemma timers_run ops : forall r, timers r = timersOf r ->
  timers (run gcVerbose ops r) = timersOf (run gcVerbose ops r).
Proof.
  unfold run. induction ops as [|op ops IH]; intros r Hr; [exact Hr|].
  simpl. apply IH, timers_step, Hr.
Qed.

Lemma config_kept op r gc :
  globalGC r = Some gc ->
  exists gc', globalGC (step gcVerbose r op) = Some gc' /\ config gc' = config gc.
Proof.
  intros Hg.
  assert (Hget : forall given, getGarbageCollector gcVerbose given r = r)
    by (intros given; unfold getGarbageCollector; rewrite Hg; reflexivity).
  assert (Hstart : exists gc', globalGC (start r) = Some gc' /\ config gc' = config gc)
    by (unfold start; rewrite Hg; destruct (intervalHandle gc); simpl; eauto).
  destruct op; simpl; unfold startGarbageCollector; rewrite ?Hget; eauto.
  unfold stop. rewrite Hg. destruct (intervalHandle gc); simpl; eauto.
Qed.

Lemma config_run ops : forall r gc,
  globalGC r = Some gc ->
  exists gc', globalGC (run gcVerbose ops r) = Some gc' /\ config gc' = config gc.
Proof.
  unfold run. induction ops as [|op ops IH]; intros r gc Hg; [simpl; eauto|].
  simpl. destruct (config_kept op r gc Hg) as (gc1 & Hg1 & Hc1).
  destruct (IH _ gc1 Hg1) as (gc' & Hg' & Hc'). exists gc'. split; [exact Hg'|congruence].
Qed.

(** X29. The module never sweeps on two timers, and its configuration is
    that of the first call. After any calls of [getGarbageCollector],
    [startGarbageCollector], [start] and [stop], at most one timer is set;
    it is set exactly when the instance holds its handle, and its period is
    the [intervalMs] of the instance; and the configuration of the instance
    is the one built from what the first call of [getGarbageCollector] or
    [startGarbageCollector] passed, whatever later calls pass. *)
Theorem collector_single_timer (ops : list Op) :
  let r := run gcVerbose ops loaded in
  (List.length (timers r) <= 1)%nat
  /\ timers r = timersOf r
  /\ match firstConfig ops with
     | Some given => exists gc, globalGC r = Some gc /\ config gc = construct gcVerbose given
     | None => globalGC r = None
     end.
Proof.
  intros r. pose proof (timers_run ops loaded eq_refl) as Ht. fold r in Ht.
  split; [|split; [exact Ht|]].
  - rewrite Ht. unfold timersOf. destruct (globalGC r) as [gc|]; [|simpl; lia].
    destruct (intervalHandle gc); simpl; lia.
  - subst r. clear Ht. generalize loaded (eq_refl : globalGC loaded = None).
    induction ops as [|op ops IH]; intros r0 Hg; [exact Hg|].
    destruct op as [given|given| |]; cbn [firstConfig run fold_left step].
    + destruct (config_run ops (getGarbageCollector gcVerbose given r0)
                  {| config := construct gcVerbose given; intervalHandle := None |})
        as (gc & Hgc & Hc); [unfold getGarbageCollector; rewrite Hg; reflexivity|].
      exists gc. split; [exact Hgc|exact Hc].
    + destruct (config_run ops (startGarbageCollector gcVerbose given r0)
                  {| config := construct gcVerbose given;
                     intervalHandle := Some (nextHandle r0) |})
        as (gc & Hgc & Hc);
        [unfold startGarbageCollector, getGarbageCollector, start; rewrite Hg; reflexivity|].
      exists gc. split; [exact Hgc|exact Hc].
    + apply IH. unfold start. rewrite Hg. exact Hg.
    + apply IH. unfold stop. rewrite Hg. exact Hg.
Qed.

End CollectorFacts.

(** ** Personas *)

Section PersonaFacts.
Import JsString Personas.

(** X30. [getRandomPersona] never returns [undefined]: for every value of
    [Math.random()], which lies in [0, 1), it returns a persona of the
    table, whose user agent names the system its platform stands for and
    whose context gets touch exactly on the Mac platform; and every persona
    of the table is returned for some value. *)
Theorem getRandomPersona_total (random : Q) :
  (0 <= random)%Q -> (random < 1)%Q ->
  (exists persona,
     getRandomPersona random = Some persona
     /\ In persona GOLDEN_PERSONAS
     /\ coherent persona = true
     /\ hasTouch persona = String.eqb (platform persona) "MacIntel")
  /\ forall k persona, nth_error GOLDEN_PERSONAS k = Some persona ->
       getRandomPersona (Z.of_nat k # 4) = Some persona.
Proof.
  intros Hlo Hhi. split.
  - unfold getRandomPersona. cbn [List.length GOLDEN_PERSONAS].
    change (inject_Z (Z.of_nat 4)) with 4%Q.
    set (index := Qfloor (random * 4)).
    assert (Hi : (0 <= index < 4)%Z).
    { subst index. split.
      - change 0%Z with (Qfloor 0). apply Qfloor_resp_le.
        apply Qmult_le_0_compat; [exact Hlo|discriminate].
      - rewrite Zlt_Qlt. eapply Qle_lt_trans; [apply Qfloor_le|].
        destruct random as [a b]. unfold Qlt in *. simpl in *. lia. }
    assert (Hcase : index = 0%Z \/ index = 1%Z \/ index = 2%Z \/ index = 3%Z) by lia.
    clearbody index. destruct Hcase as [-> | [-> | [-> | ->]]]; cbn [Z.ltb Z.compare Z.to_nat Pos.to_nat
      Pos.iter_op Nat.add nth_error]; eexists; (split; [reflexivity|]);
      (split; [simpl; tauto|]); split; vm_compute; reflexivity.
  - intros k persona Hk.
    do 4 (destruct k as [|k]; [injection Hk as <-; vm_compute; reflexivity|]).
    destruct k; discriminate Hk.
Qed.

End PersonaFacts.

Section PersonaRuns.
Import Personas.

(** The theorem at work: with [Math.random()] at 0.6 the third persona is
    picked. *)
Lemma getRandomPersona_total_witness :
  (0 <= 6 # 10)%Q /\ (6 # 10 < 1)%Q
  /\ getRandomPersona (6 # 10) = nth_error GOLDEN_PERSONAS 2.
Proof.
  assert (Hlo : (0 <= 6 # 10)%Q) by discriminate.
  assert (Hhi : (6 # 10 < 1)%Q) by reflexivity.
  split; [exact Hlo|]. split; [exact Hhi|].
  destruct (getRandomPersona_total (6 # 10) Hlo Hhi) as [(persona & Hp & _) _].
  rewrite Hp. vm_compute in Hp. injection Hp as <-. reflexivity.
Defined.

End PersonaRuns.
